(** * WatchProc: a shallow embedding of the terminal process monitor

    The development follows [main_watchproc.go]: the column layout
    ([calcColWidths]), the collection of process records
    ([getProcesses]), their ordering ([sortProcesses]), the textual
    helpers ([formatBytes], [formatElapsed], [printHeader]), one render
    cycle ([display]) and the session control of [main] ([handleExit],
    the key listener and the ticker loop).

    The first part holds the model, the second part the lemmas and the
    theorems about it. *)

From Stdlib Require Import ZArith List String Ascii Bool Lia.
From Stdlib Require Import Sorting.Permutation Sorting.Sorted.
From Stdlib Require Import Numbers.DecimalString.
From Stdlib Require Import Floats.SpecFloat.
Import ListNotations.

Local Open Scope string_scope.
Local Open Scope Z_scope.

(** * Part I: the model *)

(** ** Go machine integers

    Go's [int] is 64 bits wide on the platforms the tool is built for;
    arithmetic wraps around in two's complement and [/] truncates
    towards zero. *)
Module GoInt.

Definition min_int : Z := - 2 ^ 63.
Definition max_int : Z := 2 ^ 63 - 1.

Definition wrap (x : Z) : Z := (x + 2 ^ 63) mod 2 ^ 64 - 2 ^ 63.

Definition in_range (x : Z) : Prop := min_int <= x <= max_int.

Definition add (x y : Z) : Z := wrap (x + y).
Definition sub (x y : Z) : Z := wrap (x - y).
Definition mul (x y : Z) : Z := wrap (x * y).
Definition div (x y : Z) : Z := wrap (Z.quot x y).

End GoInt.

(** ** Go values that may carry an error

    A Go call returning [(v, err)] is a [result]: [Ok v] when [err] is
    nil, [Err msg] otherwise, [msg] being the error's text. *)
Inductive result (A : Type) : Type :=
| Ok (v : A)
| Err (msg : string).
Arguments Ok {A} v.
Arguments Err {A} msg.

(** ** Floating point

    [float64] and [float32] values are IEEE 754 binary floats, the
    [spec_float] of the standard library; arithmetic rounds to nearest,
    ties to even, at precision 53 with [emax] 1024 for [float64]. *)
Module F64.

Definition prec : Z := 53.
Definition emax : Z := 1024.

Definition zero : spec_float := S754_zero false.

(** [float64(n)] for an integer [n]. *)
Definition of_Z (n : Z) : spec_float := binary_normalize prec emax n 0 false.

Definition add (x y : spec_float) : spec_float := SFadd prec emax x y.
Definition div (x y : spec_float) : spec_float := SFdiv prec emax x y.

(** [x < y] and [x > y]; both are false when either side is NaN. *)
Definition ltb (x y : spec_float) : bool := SFltb x y.
Definition gtb (x y : spec_float) : bool := SFltb y x.
Definition leb (x y : spec_float) : bool := SFleb x y.

(** [int(x)]: the conversion truncates towards zero.  For a value beyond
    the range of [int], an infinity or a NaN, Go leaves the result to the
    implementation; the wrap-around and the zero below stand in for it,
    and the properties proved convert values within the range only. *)
Definition to_int (x : spec_float) : Z :=
  match x with
  | S754_finite s m e =>
      let a := if e <? 0 then Z.pos m / 2 ^ (- e) else Z.pos m * 2 ^ e in
      GoInt.wrap (if s then - a else a)
  | _ => 0
  end.

(** The constant [0.1] as a [float64]: the double nearest to one tenth. *)
Definition tenth : spec_float := Eval vm_compute in div (of_Z 1) (of_Z 10).

End F64.

(** ** Column layout *)

(** [colWidths]: the dynamic column widths for a terminal width. *)
Record colWidths : Type := mkColWidths
  { name : Z; created : Z; user : Z; total : Z }.

Definition fixedWidth : Z := 59.
Definition minName : Z := 12.
Definition minCreated : Z := 10.
Definition minUser : Z := 8.

(** The floor below which [calcColWidths] raises the terminal width. *)
Definition widthFloor : Z := fixedWidth + minName + minCreated + minUser.

Definition calcColWidths (termCols : Z) : colWidths :=
  let termCols :=
    if termCols <? fixedWidth + minName + minCreated + minUser
    then fixedWidth + minName + minCreated + minUser
    else termCols in
  let remaining := GoInt.sub termCols fixedWidth in
  let nameW := GoInt.div (GoInt.mul remaining 45) 100 in
  let nameW := if nameW >? 30 then 30 else nameW in
  let nameW := if nameW <? minName then minName else nameW in
  let createdW := GoInt.div (GoInt.mul remaining 30) 100 in
  let createdW := if createdW >? 20 then 20 else createdW in
  let createdW := if createdW <? minCreated then minCreated else createdW in
  let userW := GoInt.sub (GoInt.sub remaining nameW) createdW in
  let userW := if userW <? minUser then minUser else userW in
  {| name := nameW; created := createdW; user := userW; total := termCols |}.

(** The sum of a layout: the three variable columns and the fixed part. *)
Definition layoutSum (cw : colWidths) : Z :=
  name cw + created cw + user cw + fixedWidth.

(** The integers [lo], [lo+1], ..., [lo+n-1]. *)
Definition Zrange (lo : Z) (n : nat) : list Z :=
  map (fun i => lo + Z.of_nat i) (seq 0 n).

(** What holds of the layout at every width: the bounds of the three
    columns, the total, and the sum, which exceeds the total only when the
    user column had to be raised to its minimum. *)
Definition layoutBounds (W : Z) (cw : colWidths) : Prop :=
  12 <= name cw <= 30 /\ 10 <= created cw <= 20 /\ 8 <= user cw /\
  total cw = Z.max W 89 /\
  (name cw + created cw + user cw + 59 = total cw
   \/ (name cw + created cw + user cw + 59 > total cw /\ user cw = 8)).

(** ** Text formatting ([fmt] and [strings])

    Go strings are byte sequences and [len] counts bytes; a [string] here
    is the list of its bytes and [String.length] is [len]. *)

Definition ESC : string := String "027"%char "".
Definition LF : string := String "010"%char "".

(** [len(s)] as a Go [int]. *)
Definition len (s : string) : Z := Z.of_nat (String.length s).

(** The verb [%d]. *)
Definition fmt_d (n : Z) : string := NilZero.string_of_int (Z.to_int n).

(** The verb [%02d]: zero padding up to two characters, sign included. *)
Definition fmt_02d (n : Z) : string :=
  if (0 <=? n) && (n <? 10) then "0" ++ fmt_d n else fmt_d n.

(** Rounding of [a / b] to an integer, ties to the even one ([0 < b]). *)
Definition round_half_even (a b : Z) : Z :=
  let q := a / b in
  let r := a mod b in
  match 2 * r ?= b with
  | Lt => q
  | Gt => q + 1
  | Eq => if Z.even q then q else q + 1
  end.

(** The number of tenths [%.1f] prints for the magnitude [m * 2^e]:
    the decimal expansion of a binary float is finite, and the verb
    rounds it exactly, ties to even. *)
Definition tenths (m : positive) (e : Z) : Z :=
  if e <? 0 then round_half_even (10 * Z.pos m) (2 ^ (- e))
  else 10 * Z.pos m * 2 ^ e.

(** The verb [%.1f]. *)
Definition fmt_f1 (x : spec_float) : string :=
  match x with
  | S754_nan => "NaN"
  | S754_infinity s => if s then "-Inf" else "+Inf"
  | S754_zero s => (if s then "-" else "") ++ "0.0"
  | S754_finite s m e =>
      let t := tenths m e in
      (if s then "-" else "") ++ fmt_d (t / 10) ++ "." ++ fmt_d (t mod 10)
  end.

(** [strings.Repeat(s, count)]; a negative count panics ([None]). *)
Fixpoint repeat_string (s : string) (n : nat) : string :=
  match n with
  | O => ""
  | S n' => s ++ repeat_string s n'
  end.

Definition strings_Repeat (s : string) (count : Z) : option string :=
  if count <? 0 then None else Some (repeat_string s (Z.to_nat count)).

(** [strings.Contains(s, substr)]. *)
Definition strings_Contains (s substr : string) : bool :=
  match String.index 0 substr s with
  | Some _ => true
  | None => false
  end.

(** ** Durations ([time.Duration], nanoseconds in an [int64]) *)
Module Duration.

Definition Second : Z := 1000000000.
Definition Minute : Z := 60 * Second.
Definition Hour : Z := 60 * Minute.

Definition Truncate (d m : Z) : Z :=
  if m <=? 0 then d else GoInt.sub d (Z.rem d m).

Definition Hours (d : Z) : spec_float :=
  let hour := Z.quot d Hour in
  let nsec := Z.rem d Hour in
  F64.add (F64.of_Z hour) (F64.div (F64.of_Z nsec) (F64.of_Z (60 * 60 * 1000000000))).

Definition Minutes (d : Z) : spec_float :=
  let min := Z.quot d Minute in
  let nsec := Z.rem d Minute in
  F64.add (F64.of_Z min) (F64.div (F64.of_Z nsec) (F64.of_Z (60 * 1000000000))).

Definition Seconds (d : Z) : spec_float :=
  let sec := Z.quot d Second in
  let nsec := Z.rem d Second in
  F64.add (F64.of_Z sec) (F64.div (F64.of_Z nsec) (F64.of_Z 1000000000)).

End Duration.

Definition formatElapsed (d : Z) : string :=
  let d := Duration.Truncate d Duration.Second in
  let h := F64.to_int (Duration.Hours d) in
  let m := Z.rem (F64.to_int (Duration.Minutes d)) 60 in
  let s := Z.rem (F64.to_int (Duration.Seconds d)) 60 in
  if h >? 0 then fmt_d h ++ "h" ++ fmt_02d m ++ "m" ++ fmt_02d s ++ "s"
  else if m >? 0 then fmt_d m ++ "m" ++ fmt_02d s ++ "s"
  else fmt_d s ++ "s".

Definition formatElapsedShort (d : Z) : string :=
  let d := Duration.Truncate d Duration.Second in
  let h := F64.to_int (Duration.Hours d) in
  let m := Z.rem (F64.to_int (Duration.Minutes d)) 60 in
  if h >? 0 then fmt_d h ++ "h" ++ fmt_02d m ++ "m"
  else if m >? 0 then
    let s := Z.rem (F64.to_int (Duration.Seconds d)) 60 in
    fmt_d m ++ "m" ++ fmt_02d s ++ "s"
  else fmt_d (Z.rem (F64.to_int (Duration.Seconds d)) 60) ++ "s".

(** ** Byte sizes *)

Definition KB : Z := 1024.
Definition MB : Z := KB * 1024.
Definition GB : Z := MB * 1024.

Definition formatBytes (bytes : Z) : string :=
  if bytes >=? GB then fmt_f1 (F64.div (F64.of_Z bytes) (F64.of_Z GB)) ++ "G"
  else if bytes >=? MB then fmt_f1 (F64.div (F64.of_Z bytes) (F64.of_Z MB)) ++ "M"
  else if bytes >=? KB then fmt_f1 (F64.div (F64.of_Z bytes) (F64.of_Z KB)) ++ "K"
  else fmt_d bytes ++ "B".

(** *** What the byte formatting is specified by *)

(** The four units, their sizes and their suffixes. *)
Inductive ByteUnit : Type := UnitB | UnitK | UnitM | UnitG.

Definition unitSize (u : ByteUnit) : Z :=
  match u with
  | UnitB => 1
  | UnitK => KB
  | UnitM => MB
  | UnitG => GB
  end.

Definition unitSuffix (u : ByteUnit) : string :=
  match u with
  | UnitB => "B"
  | UnitK => "K"
  | UnitM => "M"
  | UnitG => "G"
  end.

(** The largest unit in which the value is at least 1, the byte when
    there is none. *)
Definition largestUnit (bytes : Z) : ByteUnit :=
  match find (fun u => unitSize u <=? bytes) [UnitG; UnitM; UnitK; UnitB] with
  | Some u => u
  | None => UnitB
  end.

(** A float that is a number: zero or finite. *)
Definition isNumber (x : spec_float) : bool :=
  match x with
  | S754_zero _ | S754_finite _ _ _ => true
  | _ => false
  end.

(** A text with one decimal place: a sign, the integer part, a point and
    one digit. *)
Definition oneDecimal (s : string) : Prop :=
  exists (neg : bool) (whole frac : Z),
    0 <= whole /\ 0 <= frac <= 9 /\
    s = (if neg then "-" else "") ++ fmt_d whole ++ "." ++ fmt_d frac.

(** ** Instants ([time.Time])

    The only instants the tool builds are [time.UnixMilli(ms)] and the
    zero [Time]; both are counted here in milliseconds since the Unix
    epoch, the zero [Time] being January 1 of year 1. *)
Module Time.

Definition zero : Z := -62135596800000.
Definition UnixMilli (ms : Z) : Z := ms.
Definition Before (t u : Z) : bool := t <? u.
Definition IsZero (t : Z) : bool := t =? zero.

End Time.

(** ** The process provider ([gopsutil/process])

    A [Process] handle is taken with the outcome of each of its reads at
    the moment of collection. *)
Module process.

Record MemoryInfoStat : Type := { RSS : Z; VMS : Z }.

Record Process : Type :=
  { Pid : Z;
    Name : result string;
    CreateTime : result Z;
    CPUPercent : result spec_float;
    MemoryInfo : result (option MemoryInfoStat);
    MemoryPercent : result spec_float;
    Username : result string;
    Cmdline : result string }.

End process.

(** [ProcessInfo]: one process record. *)
Record ProcessInfo : Type := mkProcessInfo
  { PID : Z;
    Name : string;
    CreateTime : Z;
    CPUPercent : spec_float;
    MemPercent : spec_float;
    MemRSS : Z;
    Status : string;
    Username : string;
    CmdLine : string }.

(** The zero value of the struct but for the two fields the literal sets. *)
Definition newProcessInfo (pid : Z) (nm : string) : ProcessInfo :=
  {| PID := pid; Name := nm; CreateTime := Time.zero;
     CPUPercent := F64.zero; MemPercent := F64.zero; MemRSS := 0;
     Status := ""; Username := ""; CmdLine := "" |}.

Definition set_CreateTime (v : Z) (i : ProcessInfo) : ProcessInfo :=
  {| PID := PID i; Name := Name i; CreateTime := v;
     CPUPercent := CPUPercent i; MemPercent := MemPercent i; MemRSS := MemRSS i;
     Status := Status i; Username := Username i; CmdLine := CmdLine i |}.

Definition set_CPUPercent (v : spec_float) (i : ProcessInfo) : ProcessInfo :=
  {| PID := PID i; Name := Name i; CreateTime := CreateTime i;
     CPUPercent := v; MemPercent := MemPercent i; MemRSS := MemRSS i;
     Status := Status i; Username := Username i; CmdLine := CmdLine i |}.

Definition set_MemPercent (v : spec_float) (i : ProcessInfo) : ProcessInfo :=
  {| PID := PID i; Name := Name i; CreateTime := CreateTime i;
     CPUPercent := CPUPercent i; MemPercent := v; MemRSS := MemRSS i;
     Status := Status i; Username := Username i; CmdLine := CmdLine i |}.

Definition set_MemRSS (v : Z) (i : ProcessInfo) : ProcessInfo :=
  {| PID := PID i; Name := Name i; CreateTime := CreateTime i;
     CPUPercent := CPUPercent i; MemPercent := MemPercent i; MemRSS := v;
     Status := Status i; Username := Username i; CmdLine := CmdLine i |}.

Definition set_Status (v : string) (i : ProcessInfo) : ProcessInfo :=
  {| PID := PID i; Name := Name i; CreateTime := CreateTime i;
     CPUPercent := CPUPercent i; MemPercent := MemPercent i; MemRSS := MemRSS i;
     Status := v; Username := Username i; CmdLine := CmdLine i |}.

Definition set_Username (v : string) (i : ProcessInfo) : ProcessInfo :=
  {| PID := PID i; Name := Name i; CreateTime := CreateTime i;
     CPUPercent := CPUPercent i; MemPercent := MemPercent i; MemRSS := MemRSS i;
     Status := Status i; Username := v; CmdLine := CmdLine i |}.

Definition set_CmdLine (v : string) (i : ProcessInfo) : ProcessInfo :=
  {| PID := PID i; Name := Name i; CreateTime := CreateTime i;
     CPUPercent := CPUPercent i; MemPercent := MemPercent i; MemRSS := MemRSS i;
     Status := Status i; Username := Username i; CmdLine := v |}.

(** [sort.Slice(data, less)].

    Package [sort] sorts short slices (up to twelve elements) by the
    insertion sort below: each element in turn is swapped towards the
    front while [less] puts it before its left neighbour.  Longer slices
    go through the same package's pattern-defeating quicksort; it is a
    comparison sort as well, so its result is the one below whenever
    [less] leaves no two elements tied (see [sorted_unique]); among tied
    elements of a longer slice the order is the quicksort's, which is not
    modelled, and no property below states one.  The sorted prefix is
    kept reversed, its last element first. *)
Fixpoint insertBack {A : Type} (less : A -> A -> bool) (x : A) (revPrefix : list A)
  : list A :=
  match revPrefix with
  | [] => [x]
  | y :: rest => if less x y then y :: insertBack less x rest else x :: revPrefix
  end.

Definition sort_Slice {A : Type} (less : A -> A -> bool) (data : list A) : list A :=
  rev (fold_left (fun acc x => insertBack less x acc) data []).

(** No two elements of [l] are tied under [less]: of any two, exactly one
    is before the other. *)
Definition untied {A : Type} (less : A -> A -> bool) (x y : A) : Prop :=
  xorb (less x y) (less y x) = true.

Fixpoint noTies {A : Type} (less : A -> A -> bool) (l : list A) : bool :=
  match l with
  | [] => true
  | x :: r => forallb (fun y => xorb (less x y) (less y x)) r && noTies less r
  end.

(** The comparison [sortProcesses] hands to the sort for a strict order
    [lt]: [lt] itself ascending, its negation descending. *)
Definition dirLess {A : Type} (lt : A -> A -> bool) (desc : bool) (a b : A) : bool :=
  if desc then negb (lt a b) else lt a b.

(** [a] stands before [b] in the direction [desc]. *)
Definition before {A : Type} (lt : A -> A -> bool) (desc : bool) (a b : A) : Prop :=
  if desc then lt b a = true else lt a b = true.

(** The keys the switch of [sortProcesses] names. *)
Definition knownSortKeys : list string := ["cpu"; "mem"; "pid"; "name"; "time"].

(** The lower-case mapping restricted to ASCII letters; the examples are
    evaluated with it. *)
Definition asciiLower (s : string) : string :=
  string_of_list_ascii
    (map (fun c =>
            let n := nat_of_ascii c in
            if ((65 <=? n) && (n <=? 90))%nat then ascii_of_nat (n + 32) else c)
         (list_ascii_of_string s)).

Section WatchProc.

(** [strings.ToLower], the Unicode lower-case mapping of the Go library. *)
Variable ToLower : string -> string.

(** ** Collection *)

(** One iteration of the loop of [getProcesses] over the handles. *)
Definition collectOne (pattern patternLower : string) (exactMatch : bool)
  (result : list ProcessInfo) (p : process.Process) : list ProcessInfo :=
  match process.Name p with
  | Err _ => result
  | Ok nm =>
      let skip :=
        if negb (pattern =? "")%string then
          let nameLower := ToLower nm in
          if exactMatch then negb (nameLower =? patternLower)%string
          else negb (strings_Contains nameLower patternLower)
        else false in
      if skip then result
      else
        let info := newProcessInfo (process.Pid p) nm in
        let info :=
          match process.CreateTime p with
          | Ok createTime => set_CreateTime (Time.UnixMilli createTime) info
          | Err _ => info
          end in
        let info :=
          match process.CPUPercent p with
          | Ok cpu => set_CPUPercent cpu info
          | Err _ => info
          end in
        let info :=
          match process.MemoryInfo p with
          | Ok (Some memInfo) => set_MemRSS (process.RSS memInfo) info
          | _ => info
          end in
        let info :=
          match process.MemoryPercent p with
          | Ok memPercent => set_MemPercent memPercent info
          | Err _ => info
          end in
        let info :=
          if F64.gtb (CPUPercent info) F64.tenth then set_Status "active" info
          else set_Status "idle" info in
        let info :=
          match process.Username p with
          | Ok username => set_Username username info
          | Err _ => info
          end in
        let info :=
          match process.Cmdline p with
          | Ok cmdline => set_CmdLine cmdline info
          | Err _ => info
          end in
        result ++ [info]
  end.

(** [getProcesses]; [procsRead] is what [process.Processes()] returned. *)
Definition getProcesses (procsRead : result (list process.Process))
  (pattern : string) (exactMatch : bool) : result (list ProcessInfo) :=
  match procsRead with
  | Err e => Err e
  | Ok procs =>
      let patternLower := ToLower pattern in
      Ok (fold_left (collectOne pattern patternLower exactMatch) procs [])
  end.

(** ** Ordering *)

(** The comparison closure of [sortProcesses], on two elements. *)
Definition lessProcess (sortBy : string) (desc : bool) (pi pj : ProcessInfo) : bool :=
  let less :=
    if (sortBy =? "cpu")%string then F64.ltb (CPUPercent pi) (CPUPercent pj)
    else if (sortBy =? "mem")%string then F64.ltb (MemPercent pi) (MemPercent pj)
    else if (sortBy =? "pid")%string then PID pi <? PID pj
    else if (sortBy =? "name")%string then
      (ToLower (Name pi) <? ToLower (Name pj))%string
    else if (sortBy =? "time")%string then
      Time.Before (CreateTime pi) (CreateTime pj)
    else F64.ltb (CPUPercent pi) (CPUPercent pj) in
  if desc then negb less else less.

Definition sortProcesses (procs : list ProcessInfo) (sortBy : string) (desc : bool)
  : list ProcessInfo :=
  sort_Slice (lessProcess sortBy desc) procs.

(** *** What a collected record holds

    The description of the result of [getProcesses] the error-handling
    claim is checked against: a read that failed leaves the zero value. *)
Definition orZero {A : Type} (zero : A) (r : result A) : A :=
  match r with
  | Ok v => v
  | Err _ => zero
  end.

Definition nameMatches (pattern : string) (exactMatch : bool) (nm : string) : bool :=
  if (pattern =? "")%string then true
  else if exactMatch then (ToLower nm =? ToLower pattern)%string
  else strings_Contains (ToLower nm) (ToLower pattern).

Definition recordOf (p : process.Process) (nm : string) : ProcessInfo :=
  let cpu := orZero F64.zero (process.CPUPercent p) in
  {| PID := process.Pid p;
     Name := nm;
     CreateTime := orZero Time.zero (process.CreateTime p);
     CPUPercent := cpu;
     MemPercent := orZero F64.zero (process.MemoryPercent p);
     MemRSS := match process.MemoryInfo p with
               | Ok (Some memInfo) => process.RSS memInfo
               | _ => 0
               end;
     Status := if F64.gtb cpu F64.tenth then "active" else "idle";
     Username := orZero "" (process.Username p);
     CmdLine := orZero "" (process.Cmdline p) |}.

(** The records one handle contributes: none when its name cannot be
    read or does not pass the filter, one otherwise. *)
Definition collected (pattern : string) (exactMatch : bool) (p : process.Process)
  : list ProcessInfo :=
  match process.Name p with
  | Err _ => []
  | Ok nm => if nameMatches pattern exactMatch nm then [recordOf p nm] else []
  end.

(** ** Terminal output

    What the program does to the terminal and the process, in order: text
    written by [fmt], the console primitives of [console_unix.go] and
    [console_windows.go], the two table printers, and the end of the
    process. *)
Inductive Output : Type :=
| Print (s : string)
| Stderr (s : string)
| TableHeader (cw : colWidths)
| ProcessRow (p : ProcessInfo) (cw : colWidths)
| ClearScreen
| MoveCursor (row col : Z)
| ClearToEnd
| ClearLine
| SetupConsole
| RestoreConsole
| EnableRawInput
| DisableRawInput
| Exit (code : Z)
| Panic.

(** The five title lines of [printHeader], most detailed first. *)
Inductive TitleVariant : Type :=
| TitleFull
| TitleNoNoun
| TitleNoInterval
| TitleAbbrev
| TitleMinimal.

(** [printHeader]; [since1] and [since2] are the two readings of
    [time.Since(startTime)].  The title line is written first, the rule
    after it; [strings.Repeat] panics on a negative width. *)
Definition printHeader (since1 since2 : Z)
  (pattern : string) (interval : spec_float) (count : Z) (cw : colWidths)
  : list Output :=
  let elapsed := formatElapsed since1 in
  let elapsedShort := formatElapsedShort since2 in
  let patDisplay := if (pattern =? "")%string then "*" else pattern in
  let w := total cw in
  let full :=
    "WatchProc [" ++ elapsed ++ "] | Pattern: " ++ patDisplay
    ++ " | Interval: " ++ fmt_f1 interval ++ "s | Found: " ++ fmt_d count
    ++ " processes" in
  let title :=
    if len full <=? w then
      ESC ++ "[1;35mWatchProc" ++ ESC ++ "[0m [" ++ ESC ++ "[1;33m" ++ elapsed
      ++ ESC ++ "[0m] | Pattern: " ++ ESC ++ "[1;33m" ++ patDisplay
      ++ ESC ++ "[0m | Interval: " ++ fmt_f1 interval ++ "s | Found: "
      ++ ESC ++ "[1;32m" ++ fmt_d count ++ ESC ++ "[0m processes" ++ LF
    else if len ("WatchProc [" ++ elapsed ++ "] | Pattern: " ++ patDisplay
                 ++ " | Interval: " ++ fmt_f1 interval ++ "s | Found: "
                 ++ fmt_d count) <=? w then
      ESC ++ "[1;35mWatchProc" ++ ESC ++ "[0m [" ++ ESC ++ "[1;33m" ++ elapsed
      ++ ESC ++ "[0m] | Pattern: " ++ ESC ++ "[1;33m" ++ patDisplay
      ++ ESC ++ "[0m | Interval: " ++ fmt_f1 interval ++ "s | Found: "
      ++ ESC ++ "[1;32m" ++ fmt_d count ++ ESC ++ "[0m" ++ LF
    else if len ("WatchProc [" ++ elapsed ++ "] | Pattern: " ++ patDisplay
                 ++ " | Found: " ++ fmt_d count) <=? w then
      ESC ++ "[1;35mWatchProc" ++ ESC ++ "[0m [" ++ ESC ++ "[1;33m" ++ elapsed
      ++ ESC ++ "[0m] | Pattern: " ++ ESC ++ "[1;33m" ++ patDisplay
      ++ ESC ++ "[0m | Found: " ++ ESC ++ "[1;32m" ++ fmt_d count
      ++ ESC ++ "[0m" ++ LF
    else if len ("WatchProc [" ++ elapsedShort ++ "] | P:" ++ patDisplay
                 ++ " | Found: " ++ fmt_d count) <=? w then
      ESC ++ "[1;35mWatchProc" ++ ESC ++ "[0m [" ++ ESC ++ "[1;33m" ++ elapsedShort
      ++ ESC ++ "[0m] | P:" ++ ESC ++ "[1;33m" ++ patDisplay
      ++ ESC ++ "[0m | Found: " ++ ESC ++ "[1;32m" ++ fmt_d count
      ++ ESC ++ "[0m" ++ LF
    else
      ESC ++ "[1;35mWatchProc" ++ ESC ++ "[0m | " ++ ESC ++ "[1;32m"
      ++ fmt_d count ++ ESC ++ "[0m" ++ LF in
  [Print title;
   match strings_Repeat "-" w with
   | Some rule => Print (rule ++ LF)
   | None => Panic
   end].

(** The plain text of a title variant and the text written for it.  The
    first four plain texts are the ones [printHeader] measures; the
    count-only line is never measured, its plain text is the line without
    its escape sequences. *)
Definition titlePlain (v : TitleVariant) (elapsed elapsedShort patDisplay : string)
  (interval : spec_float) (count : Z) : string :=
  match v with
  | TitleFull =>
      "WatchProc [" ++ elapsed ++ "] | Pattern: " ++ patDisplay
      ++ " | Interval: " ++ fmt_f1 interval ++ "s | Found: " ++ fmt_d count
      ++ " processes"
  | TitleNoNoun =>
      "WatchProc [" ++ elapsed ++ "] | Pattern: " ++ patDisplay
      ++ " | Interval: " ++ fmt_f1 interval ++ "s | Found: " ++ fmt_d count
  | TitleNoInterval =>
      "WatchProc [" ++ elapsed ++ "] | Pattern: " ++ patDisplay
      ++ " | Found: " ++ fmt_d count
  | TitleAbbrev =>
      "WatchProc [" ++ elapsedShort ++ "] | P:" ++ patDisplay
      ++ " | Found: " ++ fmt_d count
  | TitleMinimal => "WatchProc | " ++ fmt_d count
  end.

Definition titleStyled (v : TitleVariant) (elapsed elapsedShort patDisplay : string)
  (interval : spec_float) (count : Z) : string :=
  match v with
  | TitleFull =>
      ESC ++ "[1;35mWatchProc" ++ ESC ++ "[0m [" ++ ESC ++ "[1;33m" ++ elapsed
      ++ ESC ++ "[0m] | Pattern: " ++ ESC ++ "[1;33m" ++ patDisplay
      ++ ESC ++ "[0m | Interval: " ++ fmt_f1 interval ++ "s | Found: "
      ++ ESC ++ "[1;32m" ++ fmt_d count ++ ESC ++ "[0m processes" ++ LF
  | TitleNoNoun =>
      ESC ++ "[1;35mWatchProc" ++ ESC ++ "[0m [" ++ ESC ++ "[1;33m" ++ elapsed
      ++ ESC ++ "[0m] | Pattern: " ++ ESC ++ "[1;33m" ++ patDisplay
      ++ ESC ++ "[0m | Interval: " ++ fmt_f1 interval ++ "s | Found: "
      ++ ESC ++ "[1;32m" ++ fmt_d count ++ ESC ++ "[0m" ++ LF
  | TitleNoInterval =>
      ESC ++ "[1;35mWatchProc" ++ ESC ++ "[0m [" ++ ESC ++ "[1;33m" ++ elapsed
      ++ ESC ++ "[0m] | Pattern: " ++ ESC ++ "[1;33m" ++ patDisplay
      ++ ESC ++ "[0m | Found: " ++ ESC ++ "[1;32m" ++ fmt_d count
      ++ ESC ++ "[0m" ++ LF
  | TitleAbbrev =>
      ESC ++ "[1;35mWatchProc" ++ ESC ++ "[0m [" ++ ESC ++ "[1;33m" ++ elapsedShort
      ++ ESC ++ "[0m] | P:" ++ ESC ++ "[1;33m" ++ patDisplay
      ++ ESC ++ "[0m | Found: " ++ ESC ++ "[1;32m" ++ fmt_d count
      ++ ESC ++ "[0m" ++ LF
  | TitleMinimal =>
      ESC ++ "[1;35mWatchProc" ++ ESC ++ "[0m | " ++ ESC ++ "[1;32m"
      ++ fmt_d count ++ ESC ++ "[0m" ++ LF
  end.

(** Rank of a variant: the lower, the more detailed. *)
Definition titleRank (v : TitleVariant) : nat :=
  match v with
  | TitleFull => 0
  | TitleNoNoun => 1
  | TitleNoInterval => 2
  | TitleAbbrev => 3
  | TitleMinimal => 4
  end.

(** The title line [printHeader] wrote: the text of its first [Print]. *)
Definition titleLine (os : list Output) : option string :=
  match os with
  | Print s :: _ => Some s
  | _ => None
  end.

(** The most detailed variant that fits, the count-only one when none
    does: the rule the title line is specified by. *)
Definition titleVariants : list TitleVariant :=
  [TitleFull; TitleNoNoun; TitleNoInterval; TitleAbbrev; TitleMinimal].

Definition mostDetailedFitting (fits : TitleVariant -> bool) : TitleVariant :=
  match find fits titleVariants with
  | Some v => v
  | None => TitleMinimal
  end.

(** ** Configuration, readings and shared state *)

(** The command-line flags. *)
Record Flags : Type := mkFlags
  { interval : spec_float;
    pattern : string;
    exact : bool;
    sortBy : string;
    descOrder : bool;
    topN : Z;
    noHeader : bool }.

(** What the outside world answers during one handler: the process
    provider, the terminal size query and the two clock readings of
    [printHeader]. *)
Record Reading : Type := mkReading
  { procsRead : result (list process.Process);
    termSize : Z * Z;
    since1 : Z;
    since2 : Z }.

(** The package-level variables, with the latch of [exitOnce], the exit
    status once the process has ended, and the output so far. *)
Record State : Type := mkState
  { paused : Z;
    lastProcs : list ProcessInfo;
    lastTermWidth : Z;
    lastTermHeight : Z;
    exitOnce : bool;
    exited : option Z;
    out : list Output }.

Definition initState : State :=
  {| paused := 0; lastProcs := []; lastTermWidth := 0; lastTermHeight := 0;
     exitOnce := false; exited := None; out := [] |}.

Definition set_paused (v : Z) (st : State) : State :=
  {| paused := v; lastProcs := lastProcs st;
     lastTermWidth := lastTermWidth st; lastTermHeight := lastTermHeight st;
     exitOnce := exitOnce st; exited := exited st; out := out st |}.

Definition set_lastProcs (v : list ProcessInfo) (st : State) : State :=
  {| paused := paused st; lastProcs := v;
     lastTermWidth := lastTermWidth st; lastTermHeight := lastTermHeight st;
     exitOnce := exitOnce st; exited := exited st; out := out st |}.

Definition set_lastTerm (w h : Z) (st : State) : State :=
  {| paused := paused st; lastProcs := lastProcs st;
     lastTermWidth := w; lastTermHeight := h;
     exitOnce := exitOnce st; exited := exited st; out := out st |}.

Definition set_exitOnce (v : bool) (st : State) : State :=
  {| paused := paused st; lastProcs := lastProcs st;
     lastTermWidth := lastTermWidth st; lastTermHeight := lastTermHeight st;
     exitOnce := v; exited := exited st; out := out st |}.

(** One output: it is appended, and [os.Exit] or a panic ends the
    process. *)
Definition emit1 (o : Output) (st : State) : State :=
  {| paused := paused st; lastProcs := lastProcs st;
     lastTermWidth := lastTermWidth st; lastTermHeight := lastTermHeight st;
     exitOnce := exitOnce st;
     exited := match o with
               | Exit code => Some code
               | Panic => Some 2
               | _ => None
               end;
     out := out st ++ [o] |}.

(** Outputs in sequence; nothing is written once the process has ended. *)
Fixpoint emit (os : list Output) (st : State) : State :=
  match os with
  | [] => st
  | o :: os' =>
      match exited st with
      | Some _ => st
      | None => emit os' (emit1 o st)
      end
  end.

(** ** Rendering *)

Definition printPlainSnapshot (fl : Flags) (rd : Reading) (procs : list ProcessInfo)
  : list Output :=
  let cols := fst (termSize rd) in
  let cw := calcColWidths cols in
  (if negb (noHeader fl) then
     printHeader (since1 rd) (since2 rd) (pattern fl) (interval fl)
       (Z.of_nat (List.length procs)) cw
     ++ [TableHeader cw]
   else [])
  ++ map (fun p => ProcessRow p cw) procs.

(** [display]: one render cycle. *)
Definition display (fl : Flags) (rd : Reading)
  (pattern : string) (exactMatch firstRun : bool) (st : State) : State :=
  match getProcesses (procsRead rd) pattern exactMatch with
  | Err e => emit [Print ("Error: " ++ e ++ LF)] st
  | Ok procs =>
      let procs := sortProcesses procs (sortBy fl) (descOrder fl) in
      let procs :=
        if (topN fl >? 0) && (Z.of_nat (List.length procs) >? topN fl)
        then firstn (Z.to_nat (topN fl)) procs
        else procs in
      let st := set_lastProcs procs st in
      let '(width, height) := termSize rd in
      let terminalResized :=
        negb (width =? lastTermWidth st) || negb (height =? lastTermHeight st) in
      let st := if terminalResized then set_lastTerm width height st else st in
      let cw := calcColWidths width in
      let st := if firstRun || terminalResized then emit [ClearScreen] st else st in
      let st := emit [MoveCursor 1 1] st in
      let st :=
        if negb (noHeader fl) then
          emit (printHeader (since1 rd) (since2 rd) pattern (interval fl)
                  (Z.of_nat (List.length procs)) cw ++ [TableHeader cw]) st
        else st in
      let st := emit (flat_map (fun p => [ProcessRow p cw; ClearLine]) procs) st in
      let st := emit [ClearToEnd] st in
      emit [Print LF;
            Print ("  " ++ ESC ++ "[90mp:pause  q:quit" ++ ESC ++ "[0m");
            ClearLine] st
  end.

(** ** Session control *)

(** [handleExit]: the body runs under [exitOnce], so at most once. *)
Definition handleExit (fl : Flags) (rd : Reading) (st : State) : State :=
  if exitOnce st then st
  else
    let st := set_exitOnce true st in
    let st := emit [DisableRawInput; RestoreConsole; Print (ESC ++ "[0m")] st in
    let st :=
      if paused st =? 0 then
        let snapshot := lastProcs st in
        emit (Print (ESC ++ "[?1049l") :: printPlainSnapshot fl rd snapshot) st
      else st in
    let st := emit [Print ("WatchProc terminated." ++ LF)] st in
    emit [Exit 0] st.

(** The keys of the listener. *)
Definition isPauseKey (key : Z) : bool :=
  (key =? 112) || (key =? 80) || (key =? 32).

Definition isQuitKey (key : Z) : bool :=
  (key =? 113) || (key =? 81) || (key =? 3).

(** One round of the key listener with a key read. *)
Definition onKey (fl : Flags) (rd : Reading) (key : Z) (st : State) : State :=
  if isPauseKey key then
    if paused st =? 0 then
      let st := set_paused 1 st in
      let snapshot := lastProcs st in
      emit (Print (ESC ++ "[?1049l")
            :: printPlainSnapshot fl rd snapshot
            ++ [Print (LF ++ "  " ++ ESC ++ "[1;43;30m PAUSED " ++ ESC ++ "[0m  "
                       ++ ESC ++ "[90mp:resume  q:quit" ++ ESC ++ "[0m" ++ LF)]) st
    else
      let st := set_paused 0 st in
      let st := emit [Print (ESC ++ "[?1049h")] st in
      display fl rd (pattern fl) (exact fl) true st
  else if isQuitKey key then handleExit fl rd st
  else st.

(** One round of the ticker loop. *)
Definition onTick (fl : Flags) (rd : Reading) (st : State) : State :=
  if paused st =? 0 then display fl rd (pattern fl) (exact fl) false st else st.

(** What can happen while the program runs. *)
Inductive Event : Type :=
| KeyPress (key : Z)
| KeyMiss
| Signal
| Tick.

(** One event handled as a whole; a process that has ended handles none.
    The three goroutines of [main] (ticker loop, key listener, signal
    listener) are interleaved at the grain of one handler: [displayMu]
    serialises the render cycles and the snapshot reads, the pause flag
    is read and written atomically, and [exitOnce] lets one caller only
    into the teardown, which ends the process. *)
Definition step (fl : Flags) (st : State) (er : Event * Reading) : State :=
  match exited st with
  | Some _ => st
  | None =>
      match fst er with
      | KeyPress key => onKey fl (snd er) key st
      | KeyMiss => st
      | Signal => handleExit fl (snd er) st
      | Tick => onTick fl (snd er) st
      end
  end.

Definition run (fl : Flags) (st : State) (trace : list (Event * Reading)) : State :=
  fold_left (step fl) trace st.

(** [main] up to the first frame: the positional pattern, the interval
    check, the console set-up and the first [display]. *)
Definition startup (fl : Flags) (args : list string) (rd : Reading) : Flags * State :=
  let fl :=
    match args with
    | a :: _ =>
        if (pattern fl =? "")%string then
          {| interval := interval fl; pattern := a; exact := exact fl;
             sortBy := sortBy fl; descOrder := descOrder fl; topN := topN fl;
             noHeader := noHeader fl |}
        else fl
    | [] => fl
    end in
  if F64.leb (interval fl) F64.zero then
    (fl, emit [Stderr ("Error: 간격은 0보다 커야 합니다" ++ LF); Exit 1] initState)
  else
    let st := emit [SetupConsole; EnableRawInput; Print (ESC ++ "[?1049h")] initState in
    (fl, display fl rd (pattern fl) (exact fl) true st).

(** The session state the shared variables stand for. *)
Inductive Session : Type :=
| Running
| Paused
| Terminating.

Definition sessionOf (st : State) : Session :=
  match exited st with
  | Some _ => Terminating
  | None => if exitOnce st then Terminating
            else if paused st =? 0 then Running else Paused
  end.

(** The outputs only the teardown of [handleExit] writes: the two console
    restorations and the end of the process.  The teardown has run as many
    times as this sequence occurs in the output. *)
Definition isTeardown (o : Output) : bool :=
  match o with
  | DisableRawInput | RestoreConsole | Exit _ => true
  | _ => false
  end.

Definition teardownOutputs : list Output := [DisableRawInput; RestoreConsole; Exit 0].

Definition teardownTrace (st : State) : list Output := filter isTeardown (out st).

(** Whether an event asks for the end of the session. *)
Definition isQuit (e : Event) : bool :=
  match e with
  | KeyPress key => negb (isPauseKey key) && isQuitKey key
  | Signal => true
  | _ => false
  end.

Definition isPause (e : Event) : bool :=
  match e with
  | KeyPress key => isPauseKey key
  | _ => false
  end.

(** The outputs that neither end the process nor belong to the teardown:
    what rendering writes. *)
Definition quiet (o : Output) : bool :=
  match o with
  | Exit _ | Panic => false
  | _ => true
  end.

Definition renderOutput (o : Output) : bool :=
  match o with
  | Print _ | TableHeader _ | ProcessRow _ _ | ClearScreen | MoveCursor _ _
  | ClearToEnd | ClearLine | Panic => true
  | _ => false
  end.

(** The snapshot a successful cycle publishes from the collected records:
    sorted, then cut to the first [topN] when the cap is positive and
    exceeded. *)
Definition publishedSnapshot (fl : Flags) (procs : list ProcessInfo)
  : list ProcessInfo :=
  let sorted := sortProcesses procs (sortBy fl) (descOrder fl) in
  if (topN fl >? 0) && (Z.of_nat (List.length sorted) >? topN fl)
  then firstn (Z.to_nat (topN fl)) sorted
  else sorted.

(** The session is not over: the process runs and the latch is free. *)
Definition alive (st : State) : Prop := exited st = None /\ exitOnce st = false.

(** ** Sample data

    The records of the end-to-end scenario (CPU 0.5, 12.3 and 0.0 percent),
    three process handles, one of which lost its name, and a
    configuration with two readings of the world, the second one failing. *)
Definition sampleInfo (pid : Z) (nm : string) (cpuTenths : Z) : ProcessInfo :=
  set_CPUPercent (F64.div (F64.of_Z cpuTenths) (F64.of_Z 10)) (newProcessInfo pid nm).

Definition sampleInfos : list ProcessInfo :=
  [sampleInfo 2 "b" 5; sampleInfo 1 "C" 123; sampleInfo 3 "a" 0].

Definition sampleHandle (pid : Z) (nm : result string) (cpuTenths : Z)
  : process.Process :=
  {| process.Pid := pid;
     process.Name := nm;
     process.CreateTime := Err "access denied";
     process.CPUPercent := Ok (F64.div (F64.of_Z cpuTenths) (F64.of_Z 10));
     process.MemoryInfo := Ok None;
     process.MemoryPercent := Err "access denied";
     process.Username := Ok "root";
     process.Cmdline := Err "process does not exist" |}.

Definition sampleHandles : list process.Process :=
  [sampleHandle 2 (Ok "b") 5; sampleHandle 7 (Err "process does not exist") 40;
   sampleHandle 1 (Ok "C") 123; sampleHandle 3 (Ok "a") 0].

Definition sampleFlags : Flags :=
  {| interval := F64.of_Z 5; pattern := ""; exact := false; sortBy := "cpu";
     descOrder := true; topN := 2; noHeader := false |}.

Definition sampleReading : Reading :=
  {| procsRead := Ok sampleHandles; termSize := (100, 24);
     since1 := 150000000000; since2 := 150000000000 |}.

Definition failedReading : Reading :=
  {| procsRead := Err "too many open files"; termSize := (100, 24);
     since1 := 155000000000; since2 := 155000000000 |}.

(** ** Further notions used by the properties of Part II *)

(** Whether [getProcesses] keeps a handle: its name is read and passes
    the filter. *)
Definition kept (pattern : string) (exactMatch : bool) (p : process.Process) : bool :=
  match process.Name p with
  | Ok nm => nameMatches pattern exactMatch nm
  | Err _ => false
  end.

(** The table rows among some outputs, in order. *)
Definition rowsOf (os : list Output) : list (ProcessInfo * colWidths) :=
  flat_map (fun o => match o with
                     | ProcessRow p cw => [(p, cw)]
                     | _ => []
                     end) os.

Definition isClearScreen (o : Output) : bool :=
  match o with ClearScreen => true | _ => false end.

(** The events that neither toggle the pause nor ask for the end: ticks,
    unsuccessful key reads and unrecognised keys. *)
Definition isIdle (e : Event) : bool :=
  match e with
  | KeyPress key => negb (isPauseKey key) && negb (isQuitKey key)
  | KeyMiss => true
  | Signal => false
  | Tick => true
  end.

(** [main] up to the creation of the ticker.  The period is the interval
    times [float64(time.Second)] converted to a [time.Duration], that is
    the product truncated to nanoseconds, and [time.NewTicker] panics on a
    period that is not positive; the first frame is on screen by then.
    The key and signal listeners, started before, are taken to handle
    nothing in between.  For a product beyond the range of an [int64]
    the conversion is implementation-defined and the period below need
    not be the program's. *)
Definition tickerPeriod (interval : spec_float) : Z :=
  F64.to_int (SFmul F64.prec F64.emax interval (F64.of_Z Duration.Second)).

Definition mainUntilTicker (fl : Flags) (args : list string) (rd : Reading)
  : Flags * State :=
  let r := startup fl args rd in
  match exited (snd r) with
  | Some _ => r
  | None =>
      if tickerPeriod (interval (fst r)) <=? 0
      then (fst r, emit [Panic] (snd r))
      else r
  end.

(** Further sample data: a paused state, an interval of [2^-40] seconds
    and one of zero seconds. *)
Definition samplePaused : State := set_paused 1 initState.

Definition tinyFlags : Flags :=
  {| interval := S754_finite false 4503599627370496 (-92); pattern := "";
     exact := false; sortBy := "cpu"; descOrder := true; topN := 0;
     noHeader := false |}.

Definition zeroFlags : Flags :=
  {| interval := F64.zero; pattern := ""; exact := false; sortBy := "cpu";
     descOrder := true; topN := 0; noHeader := false |}.

(** The state after the first frame of the sample session, and a few
    events to run a session through. *)
Definition sampleRunning : State :=
  display sampleFlags sampleReading "" false true initState.

Definition idleTrace : list (Event * Reading) :=
  [(Tick, sampleReading); (KeyPress 120, sampleReading); (KeyMiss, failedReading)].

Definition busyTrace : list (Event * Reading) :=
  [(Tick, sampleReading); (KeyPress 112, sampleReading);
   (Tick, failedReading); (KeyPress 112, sampleReading)].

(** A float that is zero or a positive fraction of at most [4095/4096],
    held at an exponent of at most [-53]: what the division of the
    remainder of a duration by the unit yields. *)
Definition smallFrac (q : spec_float) : bool :=
  match q with
  | S754_zero false => true
  | S754_finite false m e =>
      (-1074 <=? e) && (e <=? -53) && (Z.pos m * 4096 <=? 4095 * 2 ^ (- e))
  | _ => false
  end.

(** ** The user column of [printProcess]

    [strings.LastIndex(s, sep)] for a separator of one byte: the index of
    its last occurrence, counted from [i] at the head of [s], or [-1]. *)
Fixpoint lastIndexFrom (c : ascii) (s : string) (i : Z) : Z :=
  match s with
  | EmptyString => -1
  | String x r =>
      let j := lastIndexFrom c r (i + 1) in
      if j =? -1 then (if Ascii.eqb x c then i else -1) else j
  end.

Definition strings_LastIndex (s : string) (c : ascii) : Z := lastIndexFrom c s 0.

(** The slice [s[i:]] for [0 <= i <= len(s)]. *)
Definition sliceFrom (s : string) (i : Z) : string :=
  String.substring (Z.to_nat i) (String.length s - Z.to_nat i) s.

Definition backslash : ascii := "092"%char.

(** The user name as [printProcess] shows it: of a name of the form
    domain, backslash, user only the user part. *)
Definition displayedUser (user : string) : string :=
  let idx := strings_LastIndex user backslash in
  if negb (idx =? -1) then sliceFrom user (idx + 1) else user.

(** ** The table header of [printTableHeader]

    The verbs [%-8s], [%8s] and [%-*s] of [fmt] on ASCII text, whose width
    in runes is its length in bytes: the text is padded with spaces up to
    the width, on the right under the minus flag and on the left without
    it, and never cut.  A width taken from an argument that is negative
    counts as its absolute value under the minus flag, and one beyond a
    million either way is refused: [fmt] writes [%!(BADWIDTH)] and
    formats the text without a width. *)
Definition spaces (n : Z) : string := repeat_string " " (Z.to_nat n).

Definition fmt_s_left (w : Z) (s : string) : string := s ++ spaces (w - len s).

Definition fmt_s_right (w : Z) (s : string) : string := spaces (w - len s) ++ s.

Definition fmt_s_left_star (w : Z) (s : string) : string :=
  if (w >? 1000000) || (w <? -1000000) then "%!(BADWIDTH)" ++ s
  else fmt_s_left (Z.abs w) s.

(** The line [printTableHeader] writes, the text of the output
    [TableHeader cw]. *)
Definition printTableHeader (cw : colWidths) : string :=
  ESC ++ "[1;37m"
  ++ fmt_s_left 8 "PID" ++ " " ++ fmt_s_left_star (name cw) "NAME" ++ " "
  ++ fmt_s_right 8 "CPU%" ++ " " ++ fmt_s_right 8 "MEM%" ++ "  "
  ++ fmt_s_left 10 "MEM" ++ " " ++ fmt_s_left_star (created cw) "CREATED" ++ " "
  ++ fmt_s_left 8 "UPTIME" ++ " " ++ fmt_s_left_star (user cw) "USER" ++ " "
  ++ fmt_s_left 8 "STATUS"
  ++ ESC ++ "[0m" ++ LF.

(** * Part II: lemmas and theorems *)

(** ** Machine integers *)

Lemma wrap_id x : GoInt.in_range x -> GoInt.wrap x = x.
Proof.
  unfold GoInt.in_range, GoInt.min_int, GoInt.max_int, GoInt.wrap. intros H.
  rewrite Z.mod_small; lia.
Qed.

(** ** Column layout *)

Example calcColWidths_80 :
  calcColWidths 80 = {| name := 13; created := 10; user := 8; total := 89 |}.
Proof. reflexivity. Qed.

Example calcColWidths_120 :
  calcColWidths 120 = {| name := 27; created := 18; user := 16; total := 120 |}.
Proof. reflexivity. Qed.

Example calcColWidths_200 :
  calcColWidths 200 = {| name := 30; created := 20; user := 91; total := 200 |}.
Proof. reflexivity. Qed.

(** The two clamps of the name and created columns, whatever the
    intermediate product was. *)
Lemma clamp_bounds (x lo hi : Z) :
  lo <= hi ->
  let y := if x >? hi then hi else x in
  let z := if y <? lo then lo else y in
  lo <= z <= hi.
Proof.
  intros Hlh y z. subst y z.
  destruct (x >? hi) eqn:E1.
  - destruct (hi <? lo) eqn:E2; lia.
  - destruct (x <? lo) eqn:E2; lia.
Qed.

(** Bounds of the three variable columns, at every width an [int] holds. *)
Lemma calcColWidths_bounds (W : Z) :
  GoInt.in_range W -> layoutBounds W (calcColWidths W).
Proof.
  unfold layoutBounds.
  unfold GoInt.in_range, GoInt.min_int, GoInt.max_int. intros HW.
  unfold calcColWidths, minName, minCreated, minUser, fixedWidth.
  cbv zeta.
  set (tc := if W <? 59 + 12 + 10 + 8 then 59 + 12 + 10 + 8 else W).
  assert (Htc : tc = Z.max W 89) by (subst tc; destruct (W <? 59 + 12 + 10 + 8) eqn:E; lia).
  assert (Hrem : GoInt.sub tc 59 = tc - 59).
  { unfold GoInt.sub. apply wrap_id.
    unfold GoInt.in_range, GoInt.min_int, GoInt.max_int. lia. }
  rewrite Hrem.
  pose proof (clamp_bounds (GoInt.div (GoInt.mul (tc - 59) 45) 100) 12 30 ltac:(lia)) as Hn.
  pose proof (clamp_bounds (GoInt.div (GoInt.mul (tc - 59) 30) 100) 10 20 ltac:(lia)) as Hc.
  cbv zeta in Hn, Hc.
  set (n := if (if GoInt.div (GoInt.mul (tc - 59) 45) 100 >? 30 then 30
                else GoInt.div (GoInt.mul (tc - 59) 45) 100) <? 12 then 12
            else (if GoInt.div (GoInt.mul (tc - 59) 45) 100 >? 30 then 30
                  else GoInt.div (GoInt.mul (tc - 59) 45) 100)) in *.
  set (c := if (if GoInt.div (GoInt.mul (tc - 59) 30) 100 >? 20 then 20
                else GoInt.div (GoInt.mul (tc - 59) 30) 100) <? 10 then 10
            else (if GoInt.div (GoInt.mul (tc - 59) 30) 100 >? 20 then 20
                  else GoInt.div (GoInt.mul (tc - 59) 30) 100)) in *.
  assert (Hu : GoInt.sub (GoInt.sub (tc - 59) n) c = tc - 59 - n - c).
  { unfold GoInt.sub.
    rewrite (wrap_id (tc - 59 - n));
      [apply wrap_id|];
      unfold GoInt.in_range, GoInt.min_int, GoInt.max_int; lia. }
  rewrite Hu. simpl name; simpl created; simpl user; simpl total.
  destruct (tc - 59 - n - c <? 8) eqn:E; lia.
Qed.

Lemma Zrange_forallb (P : Z -> bool) (lo : Z) (n : nat) :
  forallb P (Zrange lo n) = true ->
  forall x, lo <= x < lo + Z.of_nat n -> P x = true.
Proof.
  intros H x Hx. rewrite forallb_forall in H. apply H.
  unfold Zrange. apply in_map_iff. exists (Z.to_nat (x - lo)). split.
  - lia.
  - apply in_seq. lia.
Qed.

(** Between 90 and 116 columns the product and the remainder are small;
    the layout is evaluated at each width. *)
Lemma calcColWidths_sum_small (W : Z) :
  90 <= W <= 116 -> layoutSum (calcColWidths W) = W.
Proof.
  intros HW.
  apply (proj1 (Z.eqb_eq _ _)).
  apply (Zrange_forallb (fun W => layoutSum (calcColWidths W) =? W) 90 27).
  - vm_compute. reflexivity.
  - lia.
Qed.

(** C1 as the claim states it fails at the floor itself: at 89 columns the
    name column takes 13, the created column is raised to 10 and the user
    column to 8, one more than the 30 columns left. *)
Lemma calcColWidths_floor_sum_counterexample :
  89 >= fixedWidth + minName + minCreated + minUser /\
  ~ (name (calcColWidths 89) + created (calcColWidths 89)
     + user (calcColWidths 89) + 59 = total (calcColWidths 89)).
Proof.
  split; [vm_compute; discriminate | vm_compute; discriminate].
Qed.

(** From the bounds and the small widths to the invariant. *)
Lemma layout_invariant_of_bounds (W : Z) (cw : colWidths) :
  89 <= W ->
  layoutBounds W cw ->
  (90 <= W <= 116 -> layoutSum cw = W) ->
  total cw = W /\
  12 <= name cw <= 30 /\
  10 <= created cw <= 20 /\
  8 <= user cw /\
  (90 <= W -> name cw + created cw + user cw + 59 = total cw).
Proof.
  unfold layoutBounds, layoutSum, fixedWidth.
  intros HW (Hn & Hc & Hu & Ht & Hs) E.
  repeat split; lia.
Qed.

(** C1 (amended): for every terminal width [W] from 89 up, [total] is [W],
    the name column lies in [12,30], the created column in [10,20] and the
    user column is at least 8; from 90 columns up the three columns and the
    fixed 59 add up to [total]. *)
Theorem calcColWidths_invariant (W : Z) :
  89 <= W <= GoInt.max_int ->
  total (calcColWidths W) = W /\
  12 <= name (calcColWidths W) <= 30 /\
  10 <= created (calcColWidths W) <= 20 /\
  8 <= user (calcColWidths W) /\
  (90 <= W ->
   name (calcColWidths W) + created (calcColWidths W)
   + user (calcColWidths W) + 59 = total (calcColWidths W)).
Proof.
  intros HW.
  assert (Hr : GoInt.in_range W).
  { unfold GoInt.in_range, GoInt.min_int. split; [|apply HW].
    apply Z.le_trans with 89; [discriminate | apply HW]. }
  apply (layout_invariant_of_bounds W (calcColWidths W)).
  - apply HW.
  - apply calcColWidths_bounds, Hr.
  - apply calcColWidths_sum_small.
Qed.

Lemma calcColWidths_invariant_witness :
  total (calcColWidths 120) = 120 /\
  12 <= name (calcColWidths 120) <= 30 /\
  10 <= created (calcColWidths 120) <= 20 /\
  8 <= user (calcColWidths 120) /\
  (90 <= 120 ->
   name (calcColWidths 120) + created (calcColWidths 120)
   + user (calcColWidths 120) + 59 = total (calcColWidths 120)).
Proof.
  apply (calcColWidths_invariant 120). vm_compute. split; discriminate.
Defined.

(** C8: below the floor of 89 columns, zero and negative widths included,
    the total is raised to 89 and the three variable columns are 13, 10
    and 8, all strictly positive. *)
Theorem calcColWidths_below_floor (W : Z) :
  W < 89 ->
  calcColWidths W = {| name := 13; created := 10; user := 8; total := 89 |} /\
  total (calcColWidths W) = widthFloor /\
  0 < name (calcColWidths W) /\
  0 < created (calcColWidths W) /\
  0 < user (calcColWidths W).
Proof.
  intros HW.
  assert (E : calcColWidths W
              = {| name := 13; created := 10; user := 8; total := 89 |}).
  { unfold calcColWidths, fixedWidth, minName, minCreated, minUser.
    replace (W <? 59 + 12 + 10 + 8) with true by (symmetry; apply Z.ltb_lt; lia).
    reflexivity. }
  rewrite E. simpl. unfold widthFloor. repeat split; reflexivity.
Qed.

Lemma calcColWidths_below_floor_witness :
  calcColWidths (-5) = {| name := 13; created := 10; user := 8; total := 89 |} /\
  total (calcColWidths (-5)) = widthFloor /\
  0 < name (calcColWidths (-5)) /\
  0 < created (calcColWidths (-5)) /\
  0 < user (calcColWidths (-5)).
Proof.
  apply (calcColWidths_below_floor (-5)). lia.
Defined.

(** ** Rounding of binary floats

    What is needed of the rounding of [binary_round_aux] to know that the
    quotients [formatBytes] prints are finite numbers. *)

Lemma Zdigits2_log2 (m : Z) : 0 < m -> Zdigits2 m = Z.log2 m + 1.
Proof.
  destruct m as [|p|p]; try (intros H; discriminate H).
  intros _. simpl Zdigits2.
  assert (E : forall q, digits2_pos q = Pos.size q).
  { induction q; simpl; congruence. }
  rewrite E. destruct p; simpl; try reflexivity; rewrite Pos2Z.inj_succ; lia.
Qed.

Lemma Zdigits2_nonneg (m : Z) : 0 <= Zdigits2 m.
Proof. destruct m; simpl; lia. Qed.

(** A number below [2^k] has at most [k] digits. *)
Lemma Zdigits2_le (m k : Z) : 0 <= m -> 0 <= k -> m < 2 ^ k -> Zdigits2 m <= k.
Proof.
  intros Hm Hk H.
  destruct (Z.eq_dec m 0) as [->|Hz]; [simpl; lia|].
  rewrite Zdigits2_log2 by lia.
  assert (Z.log2 m < k) by (apply Z.log2_lt_pow2; lia). lia.
Qed.

(** A number with [d] digits is below [2^d]. *)
Lemma Zdigits2_bound (m : Z) : 0 <= m -> m < 2 ^ Zdigits2 m.
Proof.
  intros Hm.
  destruct (Z.eq_dec m 0) as [->|Hz]; [simpl; lia|].
  rewrite Zdigits2_log2 by lia.
  apply Z.log2_spec. lia.
Qed.

Lemma shr_1_div2 (mrs : shr_record) :
  0 <= shr_m mrs ->
  shr_m (shr_1 mrs) = shr_m mrs / 2 /\ 0 <= shr_m (shr_1 mrs).
Proof.
  destruct mrs as [m r s]. intros H.
  assert (D : shr_m (shr_1 {| shr_m := m; shr_r := r; shr_s := s |}) = Z.div2 m).
  { destruct m as [|[p|p|]|p]; try reflexivity. simpl in H. lia. }
  rewrite D, Z.div2_div. cbn [shr_m] in *. split; [reflexivity|].
  apply Z.div_pos; lia.
Qed.

Lemma iter_shr_1_div (p : positive) (mrs : shr_record) :
  0 <= shr_m mrs ->
  shr_m (iter_pos shr_1 p mrs) = shr_m mrs / 2 ^ Z.pos p /\
  0 <= shr_m (iter_pos shr_1 p mrs).
Proof.
  revert mrs. induction p as [p IH|p IH|]; intros mrs H; simpl iter_pos.
  - destruct (shr_1_div2 mrs H) as [E1 P1].
    destruct (IH _ P1) as [E2 P2]. destruct (IH _ P2) as [E3 P3].
    split; [|exact P3].
    rewrite E3, E2, E1.
    rewrite !Z.div_div by lia.
    f_equal. rewrite <- Z.pow_add_r, <- Z.pow_succ_r by lia.
    f_equal. lia.
  - destruct (IH _ H) as [E2 P2]. destruct (IH _ P2) as [E3 P3].
    split; [|exact P3].
    rewrite E3, E2.
    rewrite !Z.div_div by lia.
    f_equal. rewrite <- Z.pow_add_r by lia.
    f_equal. lia.
  - destruct (shr_1_div2 mrs H) as [E1 P1]. split; [|exact P1].
    rewrite E1. reflexivity.
Qed.

Lemma shr_m_of_loc (m : Z) (l : location) : shr_m (shr_record_of_loc m l) = m.
Proof. destruct l as [|[]]; reflexivity. Qed.

(** One shift of [binary_round_aux]: the exponent rises to the one the
    format asks for and the mantissa is divided accordingly. *)
Lemma shr_fexp_spec (m e : Z) (l : location) :
  0 <= m ->
  let e' := Z.max e (fexp F64.prec F64.emax (Zdigits2 m + e)) in
  snd (shr_fexp F64.prec F64.emax m e l) = e' /\
  shr_m (fst (shr_fexp F64.prec F64.emax m e l)) = m / 2 ^ (e' - e) /\
  0 <= shr_m (fst (shr_fexp F64.prec F64.emax m e l)).
Proof.
  intros H e'. unfold shr_fexp, shr.
  remember (fexp F64.prec F64.emax (Zdigits2 m + e) - e) as n eqn:En.
  destruct n as [|p|p]; simpl fst; simpl snd; rewrite ?shr_m_of_loc.
  - subst e'. replace (Z.max e _ - e) with 0 by lia.
    rewrite Z.div_1_r. repeat split; lia.
  - destruct (iter_shr_1_div p (shr_record_of_loc m l)) as [E P];
      [rewrite shr_m_of_loc; exact H|].
    rewrite shr_m_of_loc in E.
    subst e'. replace (Z.max e _ - e) with (Z.pos p) by lia.
    repeat split; [lia | exact E | exact P].
  - subst e'. replace (Z.max e _ - e) with 0 by lia.
    rewrite Z.div_1_r. repeat split; lia.
Qed.

Lemma round_nearest_even_bounds (m : Z) (l : location) :
  m <= round_nearest_even m l <= m + 1.
Proof.
  unfold round_nearest_even.
  destruct l as [|[]]; try destruct (Z.even m); lia.
Qed.

Lemma fexp_F64 (x : Z) : fexp F64.prec F64.emax x = Z.max (x - 53) (-1074).
Proof. reflexivity. Qed.

(** The rounding of a small enough magnitude is a number, with the
    mantissa and the exponent bounded. *)
Lemma binary_round_aux_number (K : Z) (s : bool) (m e : Z) (l : location) :
  0 <= m < 2 ^ K -> 0 <= K <= 250 -> -400 <= e <= 400 ->
  binary_round_aux F64.prec F64.emax s m e l = S754_zero s \/
  exists m' e',
    binary_round_aux F64.prec F64.emax s m e l = S754_finite s m' e' /\
    Z.pos m' <= 2 ^ K /\ e <= e' <= e + 2 * K.
Proof.
  intros Hm HK He. unfold binary_round_aux.
  destruct (shr_fexp_spec m e l (proj1 Hm)) as (E1 & M1 & P1).
  destruct (shr_fexp F64.prec F64.emax m e l) as [mrs1 e1].
  simpl fst in *. simpl snd in *.
  set (mr := round_nearest_even (shr_m mrs1) (loc_of_shr_record mrs1)).
  pose proof (round_nearest_even_bounds (shr_m mrs1) (loc_of_shr_record mrs1)) as Hr.
  fold mr in Hr.
  assert (Hd : Zdigits2 m <= K) by (apply Zdigits2_le; lia).
  pose proof (Zdigits2_nonneg m) as Hd0.
  rewrite fexp_F64 in E1, M1.
  assert (He1 : e <= e1 <= e + K) by lia.
  assert (Hm1 : shr_m mrs1 <= m).
  { rewrite M1. apply Z.div_le_upper_bound.
    - apply Z.pow_pos_nonneg; lia.
    - assert (1 <= 2 ^ (Z.max e (Z.max (Zdigits2 m + e - 53) (-1074)) - e))
        by (apply (Z.pow_le_mono_r 2 0); lia).
      nia. }
  assert (Hmr : 0 <= mr <= 2 ^ K) by lia.
  assert (Hdr : Zdigits2 mr <= K + 1).
  { apply Zdigits2_le; try lia.
    rewrite Z.pow_add_r by lia. lia. }
  pose proof (Zdigits2_nonneg mr) as Hdr0.
  destruct (shr_fexp_spec mr e1 loc_Exact (proj1 Hmr)) as (E2 & M2 & P2).
  destruct (shr_fexp F64.prec F64.emax mr e1 loc_Exact) as [mrs2 e2].
  simpl fst in *. simpl snd in *.
  rewrite fexp_F64 in E2, M2.
  assert (He2 : e1 <= e2 <= e1 + K) by lia.
  assert (Hm2 : shr_m mrs2 <= mr).
  { rewrite M2. apply Z.div_le_upper_bound.
    - apply Z.pow_pos_nonneg; lia.
    - assert (1 <= 2 ^ (Z.max e1 (Z.max (Zdigits2 mr + e1 - 53) (-1074)) - e1))
        by (apply (Z.pow_le_mono_r 2 0); lia).
      nia. }
  destruct (shr_m mrs2) as [|p|p] eqn:Em.
  - left. reflexivity.
  - right. exists p, e2.
    replace (e2 <=? F64.emax - F64.prec) with true
      by (symmetry; apply Z.leb_le; unfold F64.emax, F64.prec; lia).
    repeat split; lia.
  - lia.
Qed.

Lemma Pos_iter_xO (p d : positive) :
  Z.pos (Pos.iter xO p d) = Z.pos p * 2 ^ Z.pos d.
Proof.
  induction d as [|d IH] using Pos.peano_ind.
  - simpl Pos.iter. rewrite Pos2Z.inj_xO, Z.pow_1_r. lia.
  - rewrite Pos.iter_succ, Pos2Z.inj_xO, IH, Pos2Z.inj_succ, Z.pow_succ_r by lia.
    lia.
Qed.

(** [float64(n)] of an unsigned 64-bit integer is a number. *)
Lemma of_Z_number (n : Z) :
  0 < n < 2 ^ 64 ->
  F64.of_Z n = S754_zero false \/
  exists m e, F64.of_Z n = S754_finite false m e /\
              Z.pos m <= 2 ^ 117 /\ -52 <= e <= 234.
Proof.
  intros Hn. destruct n as [|p|p]; try lia.
  unfold F64.of_Z, binary_normalize, binary_round, shl_align.
  assert (Hd : 1 <= Z.pos (digits2_pos p) <= 64).
  { change (Z.pos (digits2_pos p)) with (Zdigits2 (Z.pos p)). split.
    - rewrite Zdigits2_log2 by lia. pose proof (Z.log2_nonneg (Z.pos p)). lia.
    - apply Zdigits2_le; lia. }
  rewrite fexp_F64.
  remember (Z.max (Z.pos (digits2_pos p) + 0 - 53) (-1074) - 0) as d eqn:Ed.
  assert (Hmz : exists mz ez,
             (match d with
              | Z.neg d0 => (Pos.iter xO p d0, Z.max (Z.pos (digits2_pos p) + 0 - 53) (-1074))
              | _ => (p, 0)
              end) = (mz, ez) /\ Z.pos mz < 2 ^ 117 /\ -52 <= ez <= 0).
  { assert (B : Z.pos p < 2 ^ 117).
    { apply Z.lt_trans with (2 ^ 64); [lia|]. apply Z.pow_lt_mono_r; lia. }
    destruct d as [|q|q].
    - exists p, 0. repeat split; lia.
    - exists p, 0. repeat split; lia.
    - eexists. eexists. split; [reflexivity|]. split; [|lia].
      rewrite Pos_iter_xO.
      assert (Z.pos q <= 52) by lia.
      assert (2 ^ Z.pos q <= 2 ^ 52) by (apply Z.pow_le_mono_r; lia).
      replace (2 ^ 117) with (2 ^ 64 * 2 ^ 53) by (vm_compute; reflexivity).
      assert (2 ^ 52 < 2 ^ 53) by (apply Z.pow_lt_mono_r; lia).
      nia. }
  destruct Hmz as (mz & ez & E & Hmz & Hez). rewrite E.
  destruct (binary_round_aux_number 117 false (Z.pos mz) ez loc_Exact)
    as [Z0 | (m' & e' & R & Hm' & He')]; try lia.
  - left. exact Z0.
  - right. exists m', e'. split; [exact R|]. lia.
Qed.

(** The quotient of two numbers of moderate size is a number. *)
Lemma div_number (m1 : positive) (e1 : Z) (m2 : positive) (e2 : Z) :
  Z.pos m1 <= 2 ^ 117 -> -52 <= e1 <= 234 ->
  Z.pos m2 < 2 ^ 64 -> -100 <= e2 <= 100 ->
  isNumber (F64.div (S754_finite false m1 e1) (S754_finite false m2 e2)) = true.
Proof.
  intros Hm1 He1 Hm2 He2.
  unfold F64.div, SFdiv, SFdiv_core_binary.
  rewrite fexp_F64.
  set (d1 := Zdigits2 (Z.pos m1)). set (d2 := Zdigits2 (Z.pos m2)).
  assert (Hd1 : 0 <= d1) by apply Zdigits2_nonneg.
  assert (Hd2 : 0 <= d2 <= 64).
  { split; [apply Zdigits2_nonneg | apply Zdigits2_le; lia]. }
  set (e' := Z.min (Z.max (d1 + e1 - (d2 + e2) - 53) (-1074)) (e1 - e2)).
  assert (He' : e1 - e2 - 117 <= e' <= e1 - e2) by (subst e'; lia).
  set (m' := match e1 - e2 - e' with
             | 0 => Z.pos m1
             | Z.pos _ => Z.shiftl (Z.pos m1) (e1 - e2 - e')
             | Z.neg _ => 0
             end).
  assert (Hm' : 0 <= m' < 2 ^ 250).
  { subst m'. destruct (e1 - e2 - e') as [|s|s] eqn:Es.
    - split; [lia|].
      apply Z.le_lt_trans with (2 ^ 117); [lia|]. apply Z.pow_lt_mono_r; lia.
    - rewrite Z.shiftl_mul_pow2 by lia.
      assert (2 ^ Z.pos s <= 2 ^ 117) by (apply Z.pow_le_mono_r; lia).
      assert (0 < 2 ^ Z.pos s) by (apply Z.pow_pos_nonneg; lia).
      replace (2 ^ 250) with (2 ^ 117 * 2 ^ 117 * 2 ^ 16) by (vm_compute; reflexivity).
      assert (1 < 2 ^ 16) by (vm_compute; reflexivity).
      assert (0 < 2 ^ 117) by (vm_compute; reflexivity).
      nia.
    - split; [lia | vm_compute; reflexivity]. }
  pose proof (Z_div_mod m' (Z.pos m2) ltac:(lia)) as Hdiv.
  destruct (Z.div_eucl m' (Z.pos m2)) as [q r].
  destruct Hdiv as [Hq Hr].
  assert (Hqb : 0 <= q < 2 ^ 250) by nia.
  destruct (binary_round_aux_number 250 (xorb false false) q e'
              (new_location (Z.pos m2) r) Hqb ltac:(lia) ltac:(lia))
    as [-> | (m & e & -> & _)]; reflexivity.
Qed.

(** The quotients [formatBytes] prints are numbers. *)
Lemma formatBytes_quotient_number (bytes : Z) (u : ByteUnit) :
  0 <= bytes < 2 ^ 64 ->
  isNumber (F64.div (F64.of_Z bytes) (F64.of_Z (unitSize u))) = true.
Proof.
  intros Hb.
  assert (Hu : exists m2 e2, F64.of_Z (unitSize u) = S754_finite false m2 e2
                             /\ Z.pos m2 < 2 ^ 64 /\ -100 <= e2 <= 100).
  { exists 4503599627370496%positive.
    destruct u; [exists (-52) | exists (-42) | exists (-32) | exists (-22)];
      (split; [vm_compute; reflexivity | split; [reflexivity | lia]]). }
  destruct Hu as (m2 & e2 & -> & Hm2 & He2).
  destruct (Z.eq_dec bytes 0) as [->|Hz]; [reflexivity|].
  destruct (of_Z_number bytes ltac:(lia)) as [-> | (m1 & e1 & -> & Hm1 & He1)].
  - reflexivity.
  - apply div_number; assumption.
Qed.

Lemma round_half_even_nonneg (a b : Z) : 0 <= a -> 0 < b -> 0 <= round_half_even a b.
Proof.
  intros Ha Hb. unfold round_half_even.
  assert (0 <= a / b) by (apply Z.div_pos; lia).
  destruct (2 * (a mod b) ?= b); try destruct (Z.even (a / b)); lia.
Qed.

Lemma tenths_nonneg (m : positive) (e : Z) : 0 <= tenths m e.
Proof.
  unfold tenths. destruct (e <? 0) eqn:E.
  - apply round_half_even_nonneg; [lia|].
    apply Z.pow_pos_nonneg; lia.
  - apply Z.ltb_ge in E.
    assert (0 < 2 ^ e) by (apply Z.pow_pos_nonneg; lia). nia.
Qed.

(** [%.1f] writes a number with one decimal place. *)
Lemma fmt_f1_oneDecimal (x : spec_float) :
  isNumber x = true -> oneDecimal (fmt_f1 x).
Proof.
  destruct x as [s|s| |s m e]; try discriminate; intros _; unfold oneDecimal.
  - exists s, 0, 0. repeat split; try lia.
  - exists s, (tenths m e / 10), (tenths m e mod 10).
    pose proof (tenths_nonneg m e).
    pose proof (Z.mod_pos_bound (tenths m e) 10 ltac:(lia)).
    repeat split; try lia.
    apply Z.div_pos; lia.
Qed.

(** ** Sorting *)

Section SortSlice.

Context {A : Type}.
Variable less : A -> A -> bool.

Lemma insertBack_perm (x : A) (acc : list A) :
  Permutation (insertBack less x acc) (x :: acc).
Proof.
  induction acc as [|y rest IH]; simpl.
  - apply Permutation_refl.
  - destruct (less x y).
    + eapply Permutation_trans; [apply perm_skip, IH | apply perm_swap].
    + apply Permutation_refl.
Qed.

Lemma fold_insertBack_perm (l acc : list A) :
  Permutation (fold_left (fun acc x => insertBack less x acc) l acc) (rev l ++ acc).
Proof.
  revert acc. induction l as [|x l IH]; intros acc; simpl.
  - apply Permutation_refl.
  - eapply Permutation_trans; [apply IH|].
    rewrite <- app_assoc. simpl.
    apply Permutation_app_head. apply insertBack_perm.
Qed.

Lemma sort_Slice_perm (l : list A) : Permutation (sort_Slice less l) l.
Proof.
  unfold sort_Slice.
  eapply Permutation_trans; [apply Permutation_sym, Permutation_rev|].
  eapply Permutation_trans; [apply fold_insertBack_perm|].
  rewrite app_nil_r. apply Permutation_sym, Permutation_rev.
Qed.

Lemma sort_Slice_length (l : list A) :
  List.length (sort_Slice less l) = List.length l.
Proof. apply Permutation_length, sort_Slice_perm. Qed.

(** The result depends on the closure through its values only. *)
Lemma insertBack_ext (less' : A -> A -> bool) (x : A) (acc : list A) :
  (forall a b, less a b = less' a b) ->
  insertBack less x acc = insertBack less' x acc.
Proof.
  intros E. induction acc as [|y rest IH]; simpl; [reflexivity|].
  rewrite E, IH. reflexivity.
Qed.

Lemma sort_Slice_ext (less' : A -> A -> bool) (l : list A) :
  (forall a b, less a b = less' a b) ->
  sort_Slice less l = sort_Slice less' l.
Proof.
  intros E. unfold sort_Slice. f_equal.
  generalize (@nil A). induction l as [|x l IH]; intros acc; simpl.
  - reflexivity.
  - rewrite (insertBack_ext less' x acc E). apply IH.
Qed.

Lemma noTies_spec (l : list A) :
  noTies less l = true <-> ForallOrdPairs (untied less) l.
Proof.
  induction l as [|x r IH]; simpl.
  - split; [constructor | reflexivity].
  - rewrite andb_true_iff, forallb_forall, IH. split.
    + intros [H1 H2]. constructor; [|exact H2].
      apply Forall_forall. exact H1.
    + intros H. inversion H; subst. split; [|assumption].
      apply Forall_forall. assumption.
Qed.

Lemma untied_sym (x y : A) : untied less x y -> untied less y x.
Proof. unfold untied. rewrite xorb_comm. trivial. Qed.

Lemma ForallOrdPairs_perm (R : A -> A -> Prop) (l l' : list A) :
  (forall a b, R a b -> R b a) ->
  Permutation l l' -> ForallOrdPairs R l -> ForallOrdPairs R l'.
Proof.
  intros Hsym HP. induction HP as [|x l l' HP IH|x y l|l l' l'' HP1 IH1 HP2 IH2];
    intros H.
  - constructor.
  - inversion H; subst. constructor.
    + eapply Permutation_Forall; eauto.
    + auto.
  - inversion H as [|? ? Hy Hr]; subst.
    inversion Hr as [|? ? Hx Hl]; subst.
    inversion Hy; subst.
    constructor; [constructor; auto | constructor; auto].
  - auto.
Qed.

Lemma ForallOrdPairs_In_sym (R : A -> A -> Prop) (l : list A) (a b : A) :
  (forall a b, R a b -> R b a) ->
  ForallOrdPairs R l -> In a l -> In b l -> a = b \/ R a b.
Proof.
  intros Hsym H Ha Hb.
  destruct (ForallOrdPairs_In H a b Ha Hb) as [E | [Hab | Hba]]; auto.
Qed.

End SortSlice.

(** Sorted lists over an order with no ties. *)
Section SortedUnique.

Context {A : Type}.
Variable before : A -> A -> Prop.
Hypothesis before_asym : forall a b, before a b -> before b a -> False.

(** Two sorted arrangements of the same elements coincide. *)
Lemma sorted_unique (l1 l2 : list A) :
  StronglySorted before l1 -> StronglySorted before l2 ->
  Permutation l1 l2 -> l1 = l2.
Proof.
  revert l2. induction l1 as [|a l1 IH]; intros l2 S1 S2 HP.
  - apply Permutation_nil in HP. subst. reflexivity.
  - destruct l2 as [|b l2].
    + apply Permutation_sym, Permutation_nil in HP. discriminate.
    + inversion S1 as [|? ? S1' F1]; subst.
      inversion S2 as [|? ? S2' F2]; subst.
      assert (Hab : a = b).
      { assert (Ha : In a (b :: l2)).
        { eapply Permutation_in; [exact HP | left; reflexivity]. }
        assert (Hb : In b (a :: l1)).
        { eapply Permutation_in; [apply Permutation_sym; exact HP | left; reflexivity]. }
        destruct Ha as [E | Ha]; [auto|].
        destruct Hb as [E | Hb]; [auto|].
        rewrite Forall_forall in F1, F2.
        exfalso. exact (before_asym a b (F1 b Hb) (F2 a Ha)). }
      subst b. f_equal. apply IH; auto.
      eapply Permutation_cons_inv; exact HP.
Qed.

Lemma StronglySorted_app (l1 l2 : list A) :
  StronglySorted before l1 -> StronglySorted before l2 ->
  (forall a b, In a l1 -> In b l2 -> before a b) ->
  StronglySorted before (l1 ++ l2).
Proof.
  intros S1 S2 H. induction l1 as [|x l1 IH]; simpl; [assumption|].
  inversion S1; subst. constructor.
  - apply IH; [assumption|]. intros; apply H; [right|]; assumption.
  - apply Forall_app. split; [assumption|].
    apply Forall_forall. intros b Hb. apply H; [left; reflexivity | assumption].
Qed.

End SortedUnique.

Lemma StronglySorted_rev {A : Type} (R : A -> A -> Prop) (l : list A) :
  StronglySorted (fun x y => R y x) l -> StronglySorted R (rev l).
Proof.
  induction 1 as [|a l S IH F]; simpl.
  - constructor.
  - apply StronglySorted_app; [assumption | repeat constructor |].
    intros x y Hx [E | []]. subst y.
    rewrite Forall_forall in F. apply F. apply in_rev. assumption.
Qed.

(** Insertion sort under a strict order [lt], ascending or descending the
    way [sortProcesses] inverts the comparison. *)
Section SortDirection.

Context {A : Type}.
Variable lt : A -> A -> bool.
Hypothesis lt_irrefl : forall a, lt a a = false.
Hypothesis lt_trans : forall a b c, lt a b = true -> lt b c = true -> lt a c = true.

Lemma before_asym desc a b : before lt desc a b -> before lt desc b a -> False.
Proof.
  unfold before. destruct desc; intros H1 H2;
    pose proof (lt_trans _ _ _ H1 H2) as H; rewrite lt_irrefl in H; discriminate.
Qed.

Lemma before_trans desc a b c :
  before lt desc a b -> before lt desc b c -> before lt desc a c.
Proof.
  unfold before. destruct desc; intros H1 H2; eauto.
Qed.

Lemma before_negb desc a b : before lt (negb desc) a b <-> before lt desc b a.
Proof. unfold before. destruct desc; simpl; tauto. Qed.

Lemma dirLess_true desc a b :
  untied lt a b -> dirLess lt desc a b = true -> before lt desc a b.
Proof.
  unfold untied, dirLess, before.
  destruct desc, (lt a b), (lt b a); simpl; intros; congruence.
Qed.

Lemma dirLess_false desc a b :
  untied lt a b -> dirLess lt desc a b = false -> before lt desc b a.
Proof.
  unfold untied, dirLess, before.
  destruct desc, (lt a b), (lt b a); simpl; intros; congruence.
Qed.

Lemma insertBack_sorted desc (x : A) (acc : list A) :
  StronglySorted (fun u v => before lt desc v u) acc ->
  (forall y, In y acc -> untied lt x y) ->
  StronglySorted (fun u v => before lt desc v u) (insertBack (dirLess lt desc) x acc).
Proof.
  induction acc as [|y rest IH]; intros S U; simpl.
  - repeat constructor.
  - inversion S as [|? ? S' F]; subst.
    assert (Uy : untied lt x y) by (apply U; left; reflexivity).
    destruct (dirLess lt desc x y) eqn:E.
    + constructor.
      * apply IH; [assumption|]. intros z Hz. apply U. right. assumption.
      * eapply Permutation_Forall;
          [apply Permutation_sym, insertBack_perm|].
        constructor; [|assumption].
        apply (dirLess_true desc x y Uy E).
    + pose proof (dirLess_false desc x y Uy E) as Hyx.
      constructor; [assumption|].
      constructor; [assumption|].
      rewrite Forall_forall in F |- *. intros z Hz.
      eapply before_trans; [apply F; exact Hz | exact Hyx].
Qed.

Lemma fold_insertBack_sorted desc (l acc : list A) :
  StronglySorted (fun u v => before lt desc v u) acc ->
  ForallOrdPairs (untied lt) l ->
  (forall x y, In x l -> In y acc -> untied lt x y) ->
  StronglySorted (fun u v => before lt desc v u)
    (fold_left (fun acc x => insertBack (dirLess lt desc) x acc) l acc).
Proof.
  revert acc. induction l as [|x l IH]; intros acc S P U; simpl.
  - assumption.
  - inversion P as [|? ? Fx P']; subst.
    apply IH.
    + apply insertBack_sorted; [assumption|].
      intros y Hy. apply U; [left; reflexivity | assumption].
    + assumption.
    + intros x' y Hx' Hy.
      apply (Permutation_in _ (insertBack_perm (dirLess lt desc) x acc)) in Hy.
      destruct Hy as [E | Hy].
      * subst y. apply untied_sym. rewrite Forall_forall in Fx. apply Fx, Hx'.
      * apply U; [right|]; assumption.
Qed.

(** With no ties the result is sorted in the direction asked. *)
Lemma sort_Slice_sorted desc (l : list A) :
  noTies lt l = true ->
  StronglySorted (before lt desc) (sort_Slice (dirLess lt desc) l).
Proof.
  intros H. apply noTies_spec in H.
  unfold sort_Slice. apply StronglySorted_rev.
  apply fold_insertBack_sorted; [constructor | assumption |].
  intros x y _ [].
Qed.

(** Any sorted arrangement of the elements is the one [sort_Slice]
    returns: the result does not depend on the order of arrival. *)
Lemma sort_Slice_unique desc (l l' : list A) :
  noTies lt l = true ->
  Permutation l' l -> StronglySorted (before lt desc) l' ->
  l' = sort_Slice (dirLess lt desc) l.
Proof.
  intros H HP S.
  apply (sorted_unique (before lt desc) (before_asym desc)).
  - assumption.
  - apply sort_Slice_sorted. assumption.
  - eapply Permutation_trans; [exact HP|].
    apply Permutation_sym, sort_Slice_perm.
Qed.

Lemma noTies_perm (l l' : list A) :
  Permutation l l' -> noTies lt l = true -> noTies lt l' = true.
Proof.
  intros HP H. apply noTies_spec. apply noTies_spec in H.
  eapply ForallOrdPairs_perm; [|exact HP|exact H].
  intros a b. apply untied_sym.
Qed.

Lemma sort_Slice_of_perm desc (l l' : list A) :
  noTies lt l = true -> Permutation l' l ->
  sort_Slice (dirLess lt desc) l' = sort_Slice (dirLess lt desc) l.
Proof.
  intros H HP. apply sort_Slice_unique; [assumption| |].
  - eapply Permutation_trans; [apply sort_Slice_perm | exact HP].
  - apply sort_Slice_sorted.
    apply (noTies_perm l l'); [apply Permutation_sym|]; assumption.
Qed.

(** The other direction gives the reverse list. *)
Lemma sort_Slice_flip desc (l : list A) :
  noTies lt l = true ->
  sort_Slice (dirLess lt (negb desc)) l = rev (sort_Slice (dirLess lt desc) l).
Proof.
  intros H. symmetry. apply sort_Slice_unique; [assumption| |].
  - eapply Permutation_trans;
      [apply Permutation_sym, Permutation_rev | apply sort_Slice_perm].
  - apply StronglySorted_rev.
    pose proof (sort_Slice_sorted desc l H) as S.
    eapply StronglySorted_ind with (P := fun l => StronglySorted _ l);
      [constructor| |exact S].
    intros a l0 _ IH F. constructor; [exact IH|].
    eapply Forall_impl; [|exact F].
    intros b Hb. apply before_negb. exact Hb.
Qed.

End SortDirection.

(** ** The orders behind the sort keys *)

Lemma SFltb_irrefl (x : spec_float) : SFltb x x = false.
Proof.
  unfold SFltb, SFcompare.
  destruct x as [s|s| |s m e]; try destruct s; try reflexivity;
    rewrite Z.compare_refl;
    change (Pos.compare_cont Eq m m) with (Pos.compare m m);
    rewrite Pos.compare_refl; reflexivity.
Qed.

Lemma SFltb_trans (x y z : spec_float) :
  SFltb x y = true -> SFltb y z = true -> SFltb x z = true.
Proof.
  unfold SFltb, SFcompare.
  destruct x as [sx|sx| |sx mx ex], y as [sy|sy| |sy my ey], z as [sz|sz| |sz mz ez];
    try destruct sx; try destruct sy; try destruct sz;
    try (intros; reflexivity); try (intros; discriminate);
    change (Pos.compare_cont Eq) with Pos.compare;
    destruct (Z.compare_spec ex ey); destruct (Z.compare_spec ey ez);
    destruct (Z.compare_spec ex ez);
    try (intros; reflexivity); try (intros; discriminate); try lia;
    destruct (Pos.compare_spec mx my); destruct (Pos.compare_spec my mz);
    destruct (Pos.compare_spec mx mz);
    simpl; try (intros; reflexivity); try (intros; discriminate); try lia.
Qed.

Lemma String_ltb_irrefl (s : string) : (s <? s)%string = false.
Proof.
  unfold String.ltb.
  pose proof (String.compare_antisym s s) as H.
  destruct (String.compare s s); simpl in H; congruence.
Qed.

Lemma Ascii_compare_refl (c : ascii) : Ascii.compare c c = Eq.
Proof. unfold Ascii.compare. apply N.compare_refl. Qed.

Lemma String_compare_lt_trans (a b c : string) :
  String.compare a b = Lt -> String.compare b c = Lt -> String.compare a c = Lt.
Proof.
  revert b c. induction a as [|ca a IH]; intros [|cb b] [|cc c]; simpl;
    try congruence.
  destruct (Ascii.compare ca cb) eqn:E1; try discriminate;
    destruct (Ascii.compare cb cc) eqn:E2; try discriminate.
  - apply Ascii.compare_eq_iff in E1, E2. subst.
    rewrite Ascii_compare_refl. apply IH.
  - apply Ascii.compare_eq_iff in E1. subst. rewrite E2. trivial.
  - apply Ascii.compare_eq_iff in E2. subst. rewrite E1. trivial.
  - intros _ _. unfold Ascii.compare in *.
    rewrite N.compare_lt_iff in E1, E2.
    replace (N_of_ascii ca ?= N_of_ascii cc)%N with Lt; [reflexivity|].
    symmetry. apply N.compare_lt_iff. lia.
Qed.

Lemma String_ltb_trans (a b c : string) :
  (a <? b)%string = true -> (b <? c)%string = true -> (a <? c)%string = true.
Proof.
  unfold String.ltb.
  destruct (String.compare a b) eqn:E1; try discriminate.
  destruct (String.compare b c) eqn:E2; try discriminate.
  rewrite (String_compare_lt_trans a b c E1 E2). trivial.
Qed.

(** The comparison of [sortProcesses] for a key, ascending. *)
Lemma lessProcess_irrefl (sortBy : string) (p : ProcessInfo) :
  lessProcess sortBy false p p = false.
Proof.
  unfold lessProcess, F64.ltb, Time.Before.
  repeat match goal with
         | |- context [(?a =? ?b)%string] => destruct (a =? b)%string
         end;
    auto using SFltb_irrefl, String_ltb_irrefl, Z.ltb_irrefl.
Qed.

Lemma lessProcess_trans (sortBy : string) (p q r : ProcessInfo) :
  lessProcess sortBy false p q = true -> lessProcess sortBy false q r = true ->
  lessProcess sortBy false p r = true.
Proof.
  unfold lessProcess, F64.ltb, Time.Before.
  repeat match goal with
         | |- context [(?a =? ?b)%string] => destruct (a =? b)%string
         end;
    eauto using SFltb_trans, String_ltb_trans;
    rewrite !Z.ltb_lt; lia.
Qed.

Lemma lessProcess_desc (sortBy : string) (desc : bool) (p q : ProcessInfo) :
  lessProcess sortBy desc p q = dirLess (lessProcess sortBy false) desc p q.
Proof. unfold dirLess, lessProcess. destruct desc; reflexivity. Qed.

Lemma sortProcesses_dir (procs : list ProcessInfo) (sortBy : string) (desc : bool) :
  sortProcesses procs sortBy desc
  = sort_Slice (dirLess (lessProcess sortBy false) desc) procs.
Proof.
  unfold sortProcesses. apply sort_Slice_ext. intros a b. apply lessProcess_desc.
Qed.

Lemma sortProcesses_perm (procs : list ProcessInfo) (sortBy : string) (desc : bool) :
  Permutation (sortProcesses procs sortBy desc) procs.
Proof. apply sort_Slice_perm. Qed.

(** ** Claims on [sortProcesses] *)

(** C7 (amended): for every record list and sort key under which no two
    records are tied, the list sorted in one direction is the reverse of
    the list sorted in the other, and the result of a sort does not depend
    on the order the records arrive in: it holds the records of the input,
    each as often, in the order the key and the direction ask for, and
    every rearrangement of the input sorts to it; so flipping the
    direction twice, sorting each time, leads back to the order after the
    first sort. *)
Theorem sortProcesses_double_inversion
  (procs : list ProcessInfo) (sortBy : string) (desc : bool) :
  noTies (lessProcess sortBy false) procs = true ->
  sortProcesses procs sortBy (negb desc) = rev (sortProcesses procs sortBy desc) /\
  sortProcesses (sortProcesses procs sortBy (negb desc)) sortBy desc
  = sortProcesses procs sortBy desc /\
  sortProcesses
    (sortProcesses (sortProcesses procs sortBy desc) sortBy (negb desc)) sortBy desc
  = sortProcesses procs sortBy desc /\
  (forall procs',
      Permutation procs' procs ->
      sortProcesses procs' sortBy desc = sortProcesses procs sortBy desc) /\
  Permutation (sortProcesses procs sortBy desc) procs /\
  StronglySorted (before (lessProcess sortBy false) desc)
    (sortProcesses procs sortBy desc).
Proof.
  intros H.
  pose proof (lessProcess_irrefl sortBy) as Hi.
  pose proof (lessProcess_trans sortBy) as Ht.
  split; [|split; [|split; [|split; [|split]]]].
  - rewrite !sortProcesses_dir. apply sort_Slice_flip; assumption.
  - rewrite !sortProcesses_dir.
    apply sort_Slice_of_perm; try assumption. apply sort_Slice_perm.
  - rewrite !sortProcesses_dir.
    apply sort_Slice_of_perm; try assumption.
    eapply Permutation_trans; apply sort_Slice_perm.
  - intros procs' P. rewrite !sortProcesses_dir.
    apply sort_Slice_of_perm; assumption.
  - apply sortProcesses_perm.
  - rewrite sortProcesses_dir. apply sort_Slice_sorted; assumption.
Qed.

(** C10: a sort key outside cpu, mem, pid, name and time orders the
    records as the key "cpu" does, by CPU percent: the comparison handed
    to the sort is the one of the CPU percentages (inverted when
    descending), the result is the one for the key "cpu", it holds the
    records of the input, and when no two CPU percentages are tied it
    stands in the order of the CPU percentages, ascending or descending,
    whatever order the source had. *)
Theorem sortProcesses_unknown_key
  (procs : list ProcessInfo) (sortBy : string) (desc : bool) :
  ~ In sortBy knownSortKeys ->
  sortProcesses procs sortBy desc = sortProcesses procs "cpu" desc /\
  Permutation (sortProcesses procs sortBy desc) procs /\
  (forall a b,
      lessProcess sortBy desc a b
      = if desc then negb (F64.ltb (CPUPercent a) (CPUPercent b))
        else F64.ltb (CPUPercent a) (CPUPercent b)) /\
  (noTies (fun a b => F64.ltb (CPUPercent a) (CPUPercent b)) procs = true ->
   StronglySorted
     (fun a b => if desc then F64.ltb (CPUPercent b) (CPUPercent a) = true
                 else F64.ltb (CPUPercent a) (CPUPercent b) = true)
     (sortProcesses procs sortBy desc)).
Proof.
  intros H.
  assert (L : forall d a b, lessProcess sortBy d a b = lessProcess "cpu" d a b).
  { intros d a b. unfold lessProcess, knownSortKeys in *. simpl in H.
    destruct (String.eqb_spec sortBy "cpu"); [exfalso; apply H; subst; auto 10|].
    destruct (String.eqb_spec sortBy "mem"); [exfalso; apply H; subst; auto 10|].
    destruct (String.eqb_spec sortBy "pid"); [exfalso; apply H; subst; auto 10|].
    destruct (String.eqb_spec sortBy "name"); [exfalso; apply H; subst; auto 10|].
    destruct (String.eqb_spec sortBy "time"); [exfalso; apply H; subst; auto 10|].
    reflexivity. }
  assert (E : sortProcesses procs sortBy desc = sortProcesses procs "cpu" desc).
  { unfold sortProcesses. apply sort_Slice_ext. intros a b. apply L. }
  split; [exact E|]. split; [apply sortProcesses_perm|]. split.
  - intros a b. rewrite L. unfold lessProcess. simpl. destruct desc; reflexivity.
  - intros T. rewrite E, sortProcesses_dir.
    apply (sort_Slice_sorted (lessProcess "cpu" false) (lessProcess_trans "cpu") desc procs).
    exact T.
Qed.

(** ** Collection *)

Lemma collectOne_collected (pattern : string) (exactMatch : bool)
  (acc : list ProcessInfo) (p : process.Process) :
  collectOne pattern (ToLower pattern) exactMatch acc p
  = (acc ++ collected pattern exactMatch p)%list.
Proof.
  unfold collectOne, collected, nameMatches, recordOf.
  destruct p as [pid nm ct cpu mi mp un cl]; simpl.
  destruct nm as [nm|e]; [|rewrite app_nil_r; reflexivity].
  destruct (pattern =? "")%string; simpl.
  - destruct ct, cpu, mi as [[m|]|], mp, un, cl; simpl;
      repeat match goal with
             | |- context [if ?c then _ else _] => destruct c
             end; reflexivity.
  - destruct exactMatch;
      [destruct (ToLower nm =? ToLower pattern)%string
      |destruct (strings_Contains (ToLower nm) (ToLower pattern))]; simpl;
      try (rewrite app_nil_r; reflexivity);
      destruct ct, cpu, mi as [[m|]|], mp, un, cl; simpl;
      repeat match goal with
             | |- context [if ?c then _ else _] => destruct c
             end; reflexivity.
Qed.

Lemma fold_collectOne (pattern : string) (exactMatch : bool)
  (procs : list process.Process) (acc : list ProcessInfo) :
  fold_left (collectOne pattern (ToLower pattern) exactMatch) procs acc
  = (acc ++ flat_map (collected pattern exactMatch) procs)%list.
Proof.
  revert acc. induction procs as [|p procs IH]; intros acc; simpl.
  - rewrite app_nil_r. reflexivity.
  - rewrite IH, collectOne_collected, app_assoc. reflexivity.
Qed.

(** C9: whatever the reads on the single processes answer, the collection
    succeeds; a process whose name cannot be read contributes no record,
    and every process whose name is read and passes the filter
    contributes its record, in which each field whose read failed keeps
    its zero value. *)
Theorem getProcesses_per_process_errors
  (procs : list process.Process) (pattern : string) (exactMatch : bool) :
  exists infos,
    getProcesses (Ok procs) pattern exactMatch = Ok infos /\
    infos = flat_map (collected pattern exactMatch) procs /\
    (forall p e, process.Name p = Err e -> collected pattern exactMatch p = []) /\
    (forall p nm, In p procs -> process.Name p = Ok nm ->
                  nameMatches pattern exactMatch nm = true ->
                  In (recordOf p nm) infos) /\
    (forall i, In i infos ->
               exists p nm, In p procs /\ process.Name p = Ok nm /\
                            nameMatches pattern exactMatch nm = true /\
                            i = recordOf p nm) /\
    (forall p nm,
        let i := recordOf p nm in
        PID i = process.Pid p /\ Name i = nm /\
        (forall e, process.CreateTime p = Err e -> CreateTime i = Time.zero) /\
        (forall e, process.CPUPercent p = Err e ->
                   CPUPercent i = F64.zero /\ Status i = "idle") /\
        (forall e, process.MemoryInfo p = Err e -> MemRSS i = 0) /\
        (forall e, process.MemoryPercent p = Err e -> MemPercent i = F64.zero) /\
        (forall e, process.Username p = Err e -> Username i = "") /\
        (forall e, process.Cmdline p = Err e -> CmdLine i = "")).
Proof.
  exists (flat_map (collected pattern exactMatch) procs).
  split; [|split; [reflexivity|split; [|split; [|split]]]].
  - unfold getProcesses. rewrite fold_collectOne. reflexivity.
  - intros p e H. unfold collected. rewrite H. reflexivity.
  - intros p nm Hp Hn Hm. apply in_flat_map. exists p. split; [assumption|].
    unfold collected. rewrite Hn, Hm. left. reflexivity.
  - intros i Hi. apply in_flat_map in Hi. destruct Hi as (p & Hp & Hi).
    unfold collected in Hi.
    destruct (process.Name p) as [nm|e] eqn:Hn; [|destruct Hi].
    destruct (nameMatches pattern exactMatch nm) eqn:Hm; [|destruct Hi].
    destruct Hi as [Hi | []]. exists p, nm. auto.
  - intros p nm i. subst i. unfold recordOf. simpl.
    repeat split; intros; try reflexivity;
      match goal with H : _ = Err _ |- _ => rewrite H end; reflexivity.
Qed.

(** ** The title line *)

Lemma mostDetailedFitting_cases (fits : TitleVariant -> bool) :
  mostDetailedFitting fits
  = if fits TitleFull then TitleFull
    else if fits TitleNoNoun then TitleNoNoun
    else if fits TitleNoInterval then TitleNoInterval
    else if fits TitleAbbrev then TitleAbbrev
    else TitleMinimal.
Proof.
  unfold mostDetailedFitting, titleVariants. simpl.
  destruct (fits TitleFull), (fits TitleNoNoun), (fits TitleNoInterval),
    (fits TitleAbbrev), (fits TitleMinimal); reflexivity.
Qed.

Lemma printHeader_titleLine (since1 since2 : Z) (pattern : string)
  (interval : spec_float) (count : Z) (cw : colWidths) :
  let elapsed := formatElapsed since1 in
  let elapsedShort := formatElapsedShort since2 in
  let patDisplay := if (pattern =? "")%string then "*" else pattern in
  let fits v :=
    len (titlePlain v elapsed elapsedShort patDisplay interval count) <=? total cw in
  titleLine (printHeader since1 since2 pattern interval count cw)
  = Some (titleStyled (mostDetailedFitting fits)
            elapsed elapsedShort patDisplay interval count).
Proof.
  intros elapsed elapsedShort patDisplay fits.
  rewrite mostDetailedFitting_cases.
  unfold printHeader, titleLine. fold elapsed elapsedShort patDisplay.
  cbv zeta. subst fits. cbv beta. unfold titlePlain.
  repeat match goal with
         | |- context [if ?c <=? ?w then _ else _] => destruct (c <=? w)
         end; reflexivity.
Qed.

(** ** Output and state *)

Lemma emit_exited (os : list Output) (st : State) (c : Z) :
  exited st = Some c -> emit os st = st.
Proof. intros H. destruct os; simpl; [reflexivity | rewrite H; reflexivity]. Qed.

Lemma emit_app (os1 os2 : list Output) (st : State) :
  emit (os1 ++ os2) st = emit os2 (emit os1 st).
Proof.
  revert st. induction os1 as [|o os1 IH]; intros st; simpl; [reflexivity|].
  destruct (exited st) eqn:E; [|apply IH].
  symmetry. apply (emit_exited os2 st z E).
Qed.

(** [emit] touches the output and the exit status only. *)
Lemma emit_fields (os : list Output) (st : State) :
  paused (emit os st) = paused st /\
  lastProcs (emit os st) = lastProcs st /\
  lastTermWidth (emit os st) = lastTermWidth st /\
  lastTermHeight (emit os st) = lastTermHeight st /\
  exitOnce (emit os st) = exitOnce st.
Proof.
  revert st. induction os as [|o os IH]; intros st; simpl; [tauto|].
  destruct (exited st); [tauto|].
  destruct (IH (emit1 o st)) as (H1 & H2 & H3 & H4 & H5).
  rewrite H1, H2, H3, H4, H5. simpl. tauto.
Qed.

Lemma emit_paused os st : paused (emit os st) = paused st.
Proof. apply emit_fields. Qed.
Lemma emit_lastProcs os st : lastProcs (emit os st) = lastProcs st.
Proof. apply emit_fields. Qed.
Lemma emit_lastTermWidth os st : lastTermWidth (emit os st) = lastTermWidth st.
Proof. apply emit_fields. Qed.
Lemma emit_lastTermHeight os st : lastTermHeight (emit os st) = lastTermHeight st.
Proof. apply emit_fields. Qed.
Lemma emit_exitOnce os st : exitOnce (emit os st) = exitOnce st.
Proof. apply emit_fields. Qed.

(** Quiet outputs are all written and leave the process running. *)
Lemma emit_quiet (os : list Output) (st : State) :
  exited st = None -> forallb quiet os = true ->
  out (emit os st) = (out st ++ os)%list /\ exited (emit os st) = None.
Proof.
  revert st. induction os as [|o os IH]; intros st E Q; simpl.
  - rewrite app_nil_r. auto.
  - rewrite E. simpl in Q. apply andb_true_iff in Q. destruct Q as [Qo Q].
    destruct (IH (emit1 o st)) as [H1 H2].
    + destruct o; simpl in *; try reflexivity; discriminate.
    + assumption.
    + rewrite H1, H2. simpl. rewrite <- app_assoc. auto.
Qed.

(** Outputs of a kind [f] that [os] does not hold are not added. *)
Lemma emit_filter_none (f : Output -> bool) (os : list Output) (st : State) :
  filter f os = [] -> filter f (out (emit os st)) = filter f (out st).
Proof.
  revert st. induction os as [|o os IH]; intros st H; simpl; [reflexivity|].
  destruct (exited st); [reflexivity|].
  simpl in H. destruct (f o) eqn:Fo; [discriminate|].
  rewrite (IH (emit1 o st) H). simpl.
  rewrite filter_app. simpl. rewrite Fo, app_nil_r. reflexivity.
Qed.

Lemma filter_none_of_render (f : Output -> bool) (os : list Output) :
  (forall o, renderOutput o = true -> f o = false) ->
  forallb renderOutput os = true -> filter f os = [].
Proof.
  intros Hf. induction os as [|o os IH]; simpl; [reflexivity|].
  intros H. apply andb_true_iff in H. destruct H as [Ho H].
  rewrite (Hf o Ho). auto.
Qed.

(** *** The header *)

Lemma calcColWidths_total (w : Z) : total (calcColWidths w) = Z.max w 89.
Proof.
  unfold calcColWidths, fixedWidth, minName, minCreated, minUser.
  cbv zeta. cbn [total].
  match goal with |- context [?a <? ?b] => destruct (Z.ltb_spec a b) end; lia.
Qed.

Lemma printHeader_shape (since1 since2 : Z) (pattern : string)
  (interval : spec_float) (count : Z) (cw : colWidths) :
  0 <= total cw ->
  exists title rule,
    printHeader since1 since2 pattern interval count cw
    = [Print title; Print rule].
Proof.
  intros H. unfold printHeader, strings_Repeat. cbv zeta.
  replace (total cw <? 0) with false by (symmetry; apply Z.ltb_ge; lia).
  eexists. eexists. reflexivity.
Qed.

Lemma printHeader_render (since1 since2 : Z) (pattern : string)
  (interval : spec_float) (count : Z) (cw : colWidths) :
  forallb renderOutput (printHeader since1 since2 pattern interval count cw) = true.
Proof.
  unfold printHeader. cbv zeta.
  destruct (strings_Repeat "-" (total cw)); reflexivity.
Qed.

Lemma printHeader_quiet (since1 since2 : Z) (pattern : string)
  (interval : spec_float) (count : Z) (w : Z) :
  forallb quiet
    (printHeader since1 since2 pattern interval count (calcColWidths w)) = true.
Proof.
  destruct (printHeader_shape since1 since2 pattern interval count (calcColWidths w))
    as (t & r & E).
  - rewrite calcColWidths_total. lia.
  - rewrite E. reflexivity.
Qed.

Lemma printPlainSnapshot_render fl rd procs :
  forallb renderOutput (printPlainSnapshot fl rd procs) = true.
Proof.
  unfold printPlainSnapshot. rewrite forallb_app. apply andb_true_iff. split.
  - destruct (negb (noHeader fl)); [|reflexivity].
    rewrite forallb_app, printHeader_render. reflexivity.
  - apply forallb_forall. intros o Ho. apply in_map_iff in Ho.
    destruct Ho as (p & <- & _). reflexivity.
Qed.

Lemma printPlainSnapshot_quiet fl rd procs :
  forallb quiet (printPlainSnapshot fl rd procs) = true.
Proof.
  unfold printPlainSnapshot. rewrite forallb_app. apply andb_true_iff. split.
  - destruct (negb (noHeader fl)); [|reflexivity].
    rewrite forallb_app, printHeader_quiet. reflexivity.
  - apply forallb_forall. intros o Ho. apply in_map_iff in Ho.
    destruct Ho as (p & <- & _). reflexivity.
Qed.

Lemma rows_render (cw : colWidths) (procs : list ProcessInfo) :
  forallb renderOutput (flat_map (fun p => [ProcessRow p cw; ClearLine]) procs) = true
  /\ forallb quiet (flat_map (fun p => [ProcessRow p cw; ClearLine]) procs) = true.
Proof.
  induction procs as [|p procs [IH1 IH2]]; simpl; auto.
Qed.

(** ** One render cycle *)

Lemma display_failure fl rd (pattern : string) (exactMatch firstRun : bool) st e :
  procsRead rd = Err e ->
  display fl rd pattern exactMatch firstRun st
  = emit [Print ("Error: " ++ e ++ LF)] st.
Proof.
  intros H. unfold display, getProcesses. rewrite H. reflexivity.
Qed.

(** A successful cycle publishes the snapshot, records the terminal size
    and then only writes rendering output, none of which ends the
    process. *)
Lemma display_success fl rd (pattern : string) (exactMatch firstRun : bool) st procs :
  getProcesses (procsRead rd) pattern exactMatch = Ok procs ->
  exists os st2,
    display fl rd pattern exactMatch firstRun st = emit os st2 /\
    forallb quiet os = true /\
    forallb renderOutput os = true /\
    lastProcs st2 = publishedSnapshot fl procs /\
    paused st2 = paused st /\
    exitOnce st2 = exitOnce st /\
    exited st2 = exited st /\
    out st2 = out st.
Proof.
  intros H. unfold display. rewrite H. fold (publishedSnapshot fl procs).
  destruct (termSize rd) as [width height]. cbv zeta.
  set (snap := publishedSnapshot fl procs).
  set (st1 := set_lastProcs snap st).
  set (resized := negb (width =? lastTermWidth st1)
                  || negb (height =? lastTermHeight st1)).
  set (st2 := if resized then set_lastTerm width height st1 else st1).
  set (cw := calcColWidths width).
  set (hdr := printHeader (since1 rd) (since2 rd) pattern (interval fl)
                (Z.of_nat (List.length snap)) cw).
  exists ((if firstRun || resized then [ClearScreen] else [])
          ++ [MoveCursor 1 1]
          ++ (if negb (noHeader fl) then hdr ++ [TableHeader cw] else [])
          ++ flat_map (fun p => [ProcessRow p cw; ClearLine]) snap
          ++ [ClearToEnd]
          ++ [Print LF;
              Print ("  " ++ ESC ++ "[90mp:pause  q:quit" ++ ESC ++ "[0m");
              ClearLine])%list, st2.
  split; [|split; [|split]].
  - destruct (firstRun || resized), (negb (noHeader fl));
      rewrite !emit_app; reflexivity.
  - rewrite !forallb_app.
    destruct (rows_render cw snap) as [_ Hq]. rewrite Hq.
    assert (Hh : forallb quiet hdr = true) by apply printHeader_quiet.
    destruct (firstRun || resized), (negb (noHeader fl));
      rewrite ?forallb_app, ?Hh; reflexivity.
  - rewrite !forallb_app.
    destruct (rows_render cw snap) as [Hr _]. rewrite Hr.
    assert (Hh : forallb renderOutput hdr = true) by apply printHeader_render.
    destruct (firstRun || resized), (negb (noHeader fl));
      rewrite ?forallb_app, ?Hh; reflexivity.
  - subst st2 st1. destruct resized; simpl; auto.
Qed.

Lemma display_fields fl rd (pattern : string) (exactMatch firstRun : bool) st :
  paused (display fl rd pattern exactMatch firstRun st) = paused st /\
  exitOnce (display fl rd pattern exactMatch firstRun st) = exitOnce st.
Proof.
  destruct (getProcesses (procsRead rd) pattern exactMatch) as [procs|e] eqn:G.
  - destruct (display_success fl rd pattern exactMatch firstRun st procs G)
      as (os & st2 & E & _ & _ & _ & Hp & Ho & _).
    rewrite E, emit_paused, emit_exitOnce. auto.
  - unfold display. rewrite G. rewrite emit_paused, emit_exitOnce. auto.
Qed.

(** A render cycle never ends the process. *)
Lemma display_alive fl rd (pattern : string) (exactMatch firstRun : bool) st :
  exited st = None ->
  exited (display fl rd pattern exactMatch firstRun st) = None.
Proof.
  intros A.
  destruct (getProcesses (procsRead rd) pattern exactMatch) as [procs|e] eqn:G.
  - destruct (display_success fl rd pattern exactMatch firstRun st procs G)
      as (os & st2 & E & Q & _ & _ & _ & _ & Hx & _).
    rewrite E. apply emit_quiet; [congruence | assumption].
  - unfold display. rewrite G. apply emit_quiet; [assumption | reflexivity].
Qed.

(** A render cycle writes rendering output only. *)
Lemma display_filter (f : Output -> bool) fl rd (pattern : string)
  (exactMatch firstRun : bool) st :
  (forall o, renderOutput o = true -> f o = false) ->
  filter f (out (display fl rd pattern exactMatch firstRun st)) = filter f (out st).
Proof.
  intros Hf.
  destruct (getProcesses (procsRead rd) pattern exactMatch) as [procs|e] eqn:G.
  - destruct (display_success fl rd pattern exactMatch firstRun st procs G)
      as (os & st2 & E & _ & R & _ & _ & _ & _ & Ho).
    rewrite E, emit_filter_none, Ho; [reflexivity|].
    apply filter_none_of_render; assumption.
  - unfold display. rewrite G. rewrite emit_filter_none; [reflexivity|].
    apply filter_none_of_render; [assumption | reflexivity].
Qed.

Lemma display_lastProcs fl rd (pattern : string) (exactMatch firstRun : bool) st procs :
  getProcesses (procsRead rd) pattern exactMatch = Ok procs ->
  lastProcs (display fl rd pattern exactMatch firstRun st) = publishedSnapshot fl procs.
Proof.
  intros G.
  destruct (display_success fl rd pattern exactMatch firstRun st procs G)
    as (os & st2 & E & _ & _ & Hl & _).
  rewrite E, emit_lastProcs. assumption.
Qed.

(** ** Session control *)

Lemma isTeardown_render (o : Output) : renderOutput o = true -> isTeardown o = false.
Proof. destruct o; simpl; congruence. Qed.

Lemma teardownTrace_emit_render (os : list Output) (st : State) :
  forallb renderOutput os = true ->
  teardownTrace (emit os st) = teardownTrace st.
Proof.
  intros H. unfold teardownTrace. apply emit_filter_none.
  apply filter_none_of_render; [apply isTeardown_render | assumption].
Qed.

(** The first call of [handleExit]: the teardown runs to the end. *)
Lemma handleExit_fresh fl rd st :
  exitOnce st = false -> exited st = None ->
  exitOnce (handleExit fl rd st) = true /\
  exited (handleExit fl rd st) = Some 0 /\
  paused (handleExit fl rd st) = paused st /\
  lastProcs (handleExit fl rd st) = lastProcs st /\
  teardownTrace (handleExit fl rd st) = (teardownTrace st ++ teardownOutputs)%list.
Proof.
  intros HO HE. unfold handleExit. rewrite HO. cbv zeta.
  set (st0 := set_exitOnce true st).
  set (st1 := emit [DisableRawInput; RestoreConsole; Print (ESC ++ "[0m")] st0).
  set (snap := Print (ESC ++ "[?1049l") :: printPlainSnapshot fl rd (lastProcs st1)).
  set (st2 := if paused st1 =? 0 then emit snap st1 else st1).
  set (st3 := emit [Print ("WatchProc terminated." ++ LF)] st2).
  assert (A1 : out st1
               = (out st0 ++ [DisableRawInput; RestoreConsole; Print (ESC ++ "[0m")])%list
               /\ exited st1 = None).
  { subst st1. apply emit_quiet; [exact HE | reflexivity]. }
  change (out st0) with (out st) in A1.
  destruct A1 as [O1 E1].
  assert (Qs : forallb quiet snap = true).
  { subst snap. simpl. apply printPlainSnapshot_quiet. }
  assert (Rs : forallb renderOutput snap = true).
  { subst snap. simpl. apply printPlainSnapshot_render. }
  assert (E2 : exited st2 = None).
  { subst st2. destruct (paused st1 =? 0); [|exact E1].
    apply emit_quiet; assumption. }
  assert (T2 : teardownTrace st2 = teardownTrace st1).
  { subst st2. destruct (paused st1 =? 0); [|reflexivity].
    apply teardownTrace_emit_render. exact Rs. }
  assert (A3 : out st3 = (out st2 ++ [Print ("WatchProc terminated." ++ LF)])%list
               /\ exited st3 = None).
  { subst st3. apply emit_quiet; [exact E2 | reflexivity]. }
  destruct A3 as [O3 E3].
  assert (F : paused st3 = paused st /\ lastProcs st3 = lastProcs st
              /\ exitOnce st3 = true).
  { subst st3. rewrite emit_paused, emit_lastProcs, emit_exitOnce.
    subst st2. destruct (paused st1 =? 0);
      rewrite ?emit_paused, ?emit_lastProcs, ?emit_exitOnce;
      subst st1; rewrite emit_paused, emit_lastProcs, emit_exitOnce;
      subst st0; simpl; auto. }
  destruct F as (F1 & F2 & F3).
  simpl emit. rewrite E3. simpl.
  repeat split; try assumption.
  unfold teardownTrace in *. simpl out. rewrite filter_app, O3, filter_app.
  rewrite T2, O1, filter_app. simpl. rewrite app_nil_r, <- app_assoc. reflexivity.
Qed.

(** Later calls find the latch set and do nothing. *)
Lemma handleExit_again fl rd st : exitOnce st = true -> handleExit fl rd st = st.
Proof. intros H. unfold handleExit. rewrite H. reflexivity. Qed.

Lemma handleExit_exitOnce fl rd st : exitOnce (handleExit fl rd st) = true.
Proof.
  unfold handleExit. destruct (exitOnce st) eqn:E; [exact E|].
  rewrite !emit_exitOnce.
  match goal with
  | |- exitOnce (if ?c then _ else _) = _ => destruct c
  end; rewrite ?emit_exitOnce; reflexivity.
Qed.

Lemma handleExit_idempotent fl rd rd' st :
  handleExit fl rd' (handleExit fl rd st) = handleExit fl rd st.
Proof. apply handleExit_again, handleExit_exitOnce. Qed.

Lemma alive_iff (st : State) : alive st <-> sessionOf st <> Terminating.
Proof.
  unfold alive, sessionOf.
  destruct (exited st), (exitOnce st), (paused st =? 0);
    split; intros H; try (destruct H; discriminate); try congruence; auto.
Qed.

Lemma isQuit_key (key : Z) :
  isQuit (KeyPress key) = true -> isPauseKey key = false /\ isQuitKey key = true.
Proof.
  simpl. destruct (isPauseKey key), (isQuitKey key); simpl; intros; auto; discriminate.
Qed.

Lemma step_pause_running fl rd st key :
  sessionOf st = Running -> isPauseKey key = true ->
  sessionOf (step fl st (KeyPress key, rd)) = Paused /\
  lastProcs (step fl st (KeyPress key, rd)) = lastProcs st /\
  teardownTrace (step fl st (KeyPress key, rd)) = teardownTrace st.
Proof.
  unfold sessionOf. intros S K.
  destruct (exited st) eqn:E; [discriminate|].
  destruct (exitOnce st) eqn:O; [discriminate|].
  destruct (paused st =? 0) eqn:P; [|discriminate].
  unfold step. rewrite E. simpl fst. simpl snd. unfold onKey. rewrite K, P.
  set (os := (Print (ESC ++ "[?1049l")
       :: printPlainSnapshot fl rd (lastProcs (set_paused 1 st)) ++ _)%list).
  assert (Q : forallb quiet os = true).
  { subst os. simpl. rewrite forallb_app, printPlainSnapshot_quiet. reflexivity. }
  assert (R : forallb renderOutput os = true).
  { subst os. simpl. rewrite forallb_app, printPlainSnapshot_render. reflexivity. }
  destruct (emit_quiet os (set_paused 1 st) E Q) as [_ E'].
  rewrite E', emit_exitOnce, emit_paused, emit_lastProcs.
  rewrite (teardownTrace_emit_render os _ R). simpl. rewrite O. auto.
Qed.

Lemma step_pause_paused fl rd st key :
  sessionOf st = Paused -> isPauseKey key = true ->
  sessionOf (step fl st (KeyPress key, rd)) = Running /\
  teardownTrace (step fl st (KeyPress key, rd)) = teardownTrace st.
Proof.
  unfold sessionOf. intros S K.
  destruct (exited st) eqn:E; [discriminate|].
  destruct (exitOnce st) eqn:O; [discriminate|].
  destruct (paused st =? 0) eqn:P; [discriminate|].
  unfold step. rewrite E. simpl fst. simpl snd. unfold onKey. rewrite K, P.
  set (st1 := emit [Print (ESC ++ "[?1049h")] (set_paused 0 st)).
  assert (A : out st1 = (out (set_paused 0 st) ++ [Print (ESC ++ "[?1049h")])%list
              /\ exited st1 = None).
  { subst st1. apply emit_quiet; [exact E | reflexivity]. }
  destruct A as [O1 E1].
  rewrite (display_alive fl rd _ _ _ st1 E1).
  destruct (display_fields fl rd (pattern fl) (exact fl) true st1) as [Hp Ho].
  rewrite Hp, Ho. subst st1. rewrite emit_paused, emit_exitOnce. split.
  - simpl. rewrite O. reflexivity.
  - unfold teardownTrace. rewrite display_filter by apply isTeardown_render.
    rewrite emit_filter_none by reflexivity. reflexivity.
Qed.

Lemma step_quit_alive fl rd st ev :
  alive st -> isQuit ev = true ->
  sessionOf (step fl st (ev, rd)) = Terminating /\
  exited (step fl st (ev, rd)) = Some 0 /\
  lastProcs (step fl st (ev, rd)) = lastProcs st /\
  teardownTrace (step fl st (ev, rd)) = (teardownTrace st ++ teardownOutputs)%list.
Proof.
  intros [E O] Q.
  assert (S : step fl st (ev, rd) = handleExit fl rd st).
  { unfold step. rewrite E. simpl fst. simpl snd.
    destruct ev as [key| | |]; try discriminate; [|reflexivity].
    apply isQuit_key in Q. destruct Q as [Q1 Q2].
    unfold onKey. rewrite Q1, Q2. reflexivity. }
  rewrite S.
  destruct (handleExit_fresh fl rd st O E) as (H1 & H2 & H3 & H4 & H5).
  unfold sessionOf. rewrite H2. auto.
Qed.

Lemma step_quit_terminating fl rd st ev :
  sessionOf st = Terminating -> isQuit ev = true -> step fl st (ev, rd) = st.
Proof.
  unfold sessionOf, step. intros S Q.
  destruct (exited st) eqn:E; [reflexivity|].
  destruct (exitOnce st) eqn:O;
    [|destruct (paused st =? 0); discriminate].
  simpl fst. simpl snd.
  destruct ev as [key| | |]; try discriminate.
  - apply isQuit_key in Q. destruct Q as [Q1 Q2].
    unfold onKey. rewrite Q1, Q2. apply handleExit_again. exact O.
  - apply handleExit_again. exact O.
Qed.

Lemma step_ended fl st er c : exited st = Some c -> step fl st er = st.
Proof. intros H. unfold step. rewrite H. reflexivity. Qed.

Lemma run_ended fl st trace c : exited st = Some c -> run fl st trace = st.
Proof.
  intros H. unfold run. induction trace as [|er trace IH]; simpl; [reflexivity|].
  rewrite (step_ended fl st er c H). exact IH.
Qed.

(** An event that does not ask for the end leaves the session alive and
    the teardown unrun. *)
Lemma step_other_alive fl rd st ev :
  alive st -> isQuit ev = false ->
  alive (step fl st (ev, rd)) /\
  teardownTrace (step fl st (ev, rd)) = teardownTrace st.
Proof.
  intros [E O] Q. unfold step. rewrite E. simpl fst. simpl snd.
  destruct ev as [key| | |]; try discriminate.
  - unfold onKey. simpl in Q.
    destruct (isPauseKey key) eqn:K.
    + destruct (paused st =? 0) eqn:P.
      * destruct (step_pause_running fl rd st key) as (S & _ & T).
        { unfold sessionOf. rewrite E, O, P. reflexivity. }
        { exact K. }
        unfold step in S, T. rewrite E in S, T. simpl fst in S, T. simpl snd in S, T.
        unfold onKey in S, T. rewrite K, P in S, T.
        split; [|exact T]. apply alive_iff. rewrite S. discriminate.
      * destruct (step_pause_paused fl rd st key) as (S & T).
        { unfold sessionOf. rewrite E, O, P. reflexivity. }
        { exact K. }
        unfold step in S, T. rewrite E in S, T. simpl fst in S, T. simpl snd in S, T.
        unfold onKey in S, T. rewrite K, P in S, T.
        split; [|exact T]. apply alive_iff. rewrite S. discriminate.
    + simpl in Q. rewrite Q. split; [split; assumption | reflexivity].
  - split; [split; assumption | reflexivity].
  - unfold onTick. destruct (paused st =? 0).
    + split.
      * split; [apply display_alive; exact E|].
        destruct (display_fields fl rd (pattern fl) (exact fl) false st) as [_ Ho].
        rewrite Ho. exact O.
      * unfold teardownTrace. apply display_filter, isTeardown_render.
    + split; [split; assumption | reflexivity].
Qed.

(** Along a run the teardown is written once if some event asks for the
    end, and not at all otherwise. *)
Lemma run_teardown fl st (trace : list (Event * Reading)) :
  alive st ->
  teardownTrace (run fl st trace)
  = (teardownTrace st
     ++ if existsb (fun er => isQuit (fst er)) trace then teardownOutputs else [])%list.
Proof.
  revert st. induction trace as [|[ev rd] trace IH]; intros st A; simpl.
  - rewrite app_nil_r. reflexivity.
  - destruct (isQuit ev) eqn:Q; simpl.
    + destruct (step_quit_alive fl rd st ev A Q) as (_ & X & _ & T).
      change (run fl st ((ev, rd) :: trace)) with (run fl (step fl st (ev, rd)) trace).
      rewrite (run_ended fl _ trace 0 X). exact T.
    + destruct (step_other_alive fl rd st ev A Q) as (A' & T).
      change (run fl st ((ev, rd) :: trace)) with (run fl (step fl st (ev, rd)) trace).
      rewrite (IH _ A'), T. reflexivity.
Qed.

(** ** Claims on the render cycle and the session *)

(** C2: from Running the pause key leads to Paused, from Paused to
    Running; from either the quit key or a signal leads to Terminating and
    writes the teardown once; in Terminating a further quit key or signal
    changes nothing, and along any run the teardown is written exactly
    once when some event asks for the end. *)
Theorem session_state_machine fl rd (st : State) :
  (sessionOf st = Running ->
   forall key, isPauseKey key = true ->
               sessionOf (step fl st (KeyPress key, rd)) = Paused) /\
  (sessionOf st = Paused ->
   forall key, isPauseKey key = true ->
               sessionOf (step fl st (KeyPress key, rd)) = Running) /\
  (sessionOf st <> Terminating ->
   forall ev, isQuit ev = true ->
              sessionOf (step fl st (ev, rd)) = Terminating /\
              teardownTrace (step fl st (ev, rd))
              = (teardownTrace st ++ teardownOutputs)%list) /\
  (sessionOf st = Terminating ->
   forall ev, isQuit ev = true -> step fl st (ev, rd) = st) /\
  (forall rd', handleExit fl rd' (handleExit fl rd st) = handleExit fl rd st) /\
  (sessionOf st <> Terminating ->
   forall trace,
     teardownTrace (run fl st trace)
     = (teardownTrace st
        ++ if existsb (fun er => isQuit (fst er)) trace
           then teardownOutputs else [])%list).
Proof.
  split; [|split; [|split; [|split; [|split]]]].
  - intros S key K. apply (step_pause_running fl rd st key S K).
  - intros S key K. apply (step_pause_paused fl rd st key S K).
  - intros S ev Q. apply alive_iff in S.
    destruct (step_quit_alive fl rd st ev S Q) as (H1 & _ & _ & H2). auto.
  - intros S ev Q. apply step_quit_terminating; assumption.
  - intros rd'. apply handleExit_idempotent.
  - intros S trace. apply run_teardown. apply alive_iff. exact S.
Qed.

(** C3: when the read of the metric source fails, [display] writes the
    error line and nothing else, the published snapshot stays as it was,
    and the ticker loop goes on: the following ticks are handled from the
    state the failed cycle left, and the next successful one publishes its
    snapshot. *)
Theorem display_read_failure fl rd (st : State) (e : string) :
  procsRead rd = Err e ->
  exited st = None ->
  (forall pattern exactMatch firstRun,
      out (display fl rd pattern exactMatch firstRun st)
      = (out st ++ [Print ("Error: " ++ e ++ LF)])%list /\
      lastProcs (display fl rd pattern exactMatch firstRun st) = lastProcs st /\
      paused (display fl rd pattern exactMatch firstRun st) = paused st /\
      exited (display fl rd pattern exactMatch firstRun st) = None) /\
  (paused st = 0 ->
   step fl st (Tick, rd) = display fl rd (pattern fl) (exact fl) false st /\
   sessionOf (step fl st (Tick, rd)) = sessionOf st /\
   (forall rest,
       run fl st ((Tick, rd) :: rest) = run fl (step fl st (Tick, rd)) rest) /\
   (forall rd2 procs2,
       getProcesses (procsRead rd2) (pattern fl) (exact fl) = Ok procs2 ->
       lastProcs (step fl (step fl st (Tick, rd)) (Tick, rd2))
       = publishedSnapshot fl procs2)).
Proof.
  intros H E.
  assert (D : forall pattern exactMatch firstRun,
             out (display fl rd pattern exactMatch firstRun st)
             = (out st ++ [Print ("Error: " ++ e ++ LF)])%list /\
             lastProcs (display fl rd pattern exactMatch firstRun st) = lastProcs st /\
             paused (display fl rd pattern exactMatch firstRun st) = paused st /\
             exited (display fl rd pattern exactMatch firstRun st) = None).
  { intros pattern exactMatch firstRun.
    rewrite (display_failure fl rd pattern exactMatch firstRun st e H).
    rewrite emit_lastProcs, emit_paused.
    destruct (emit_quiet [Print ("Error: " ++ e ++ LF)] st E eq_refl) as [H1 H2].
    auto. }
  split; [exact D|].
  intros P.
  assert (S : step fl st (Tick, rd) = display fl rd (pattern fl) (exact fl) false st).
  { unfold step. rewrite E. simpl. unfold onTick. rewrite P. reflexivity. }
  destruct (D (pattern fl) (exact fl) false) as (D1 & D2 & D3 & D4).
  split; [exact S|]. split; [|split].
  - rewrite S. unfold sessionOf. rewrite D4, E, D3.
    destruct (display_fields fl rd (pattern fl) (exact fl) false st) as [_ Ho].
    rewrite Ho. reflexivity.
  - intros rest. reflexivity.
  - intros rd2 procs2 G. rewrite S.
    unfold step at 1. rewrite D4. simpl. unfold onTick. rewrite D3, P. simpl.
    apply display_lastProcs. exact G.
Qed.

(** C4: with a cap [topN] above zero the published snapshot is the first
    [min topN n] records of the [n] sorted ones, so never more than
    [topN], and all of them when [n <= topN]; with [topN] zero it is the
    whole sorted list. *)
Theorem display_topN fl rd (pattern : string) (exactMatch firstRun : bool)
  (st : State) (procs : list ProcessInfo) :
  getProcesses (procsRead rd) pattern exactMatch = Ok procs ->
  let sorted := sortProcesses procs (sortBy fl) (descOrder fl) in
  let snap := lastProcs (display fl rd pattern exactMatch firstRun st) in
  List.length sorted = List.length procs /\
  (0 < topN fl ->
   snap = firstn (Z.to_nat (Z.min (topN fl) (Z.of_nat (List.length procs)))) sorted /\
   Z.of_nat (List.length snap) = Z.min (topN fl) (Z.of_nat (List.length procs)) /\
   Z.of_nat (List.length snap) <= topN fl /\
   (Z.of_nat (List.length procs) <= topN fl -> snap = sorted)) /\
  (topN fl = 0 -> snap = sorted).
Proof.
  intros G sorted snap.
  assert (L : List.length sorted = List.length procs) by apply sort_Slice_length.
  assert (S : snap = publishedSnapshot fl procs).
  { subst snap. apply display_lastProcs. exact G. }
  unfold publishedSnapshot in S. fold sorted in S. rewrite L in S.
  split; [exact L|]. split.
  - intros N.
    replace (topN fl >? 0) with true in S by (symmetry; apply Z.gtb_lt; lia).
    simpl in S.
    destruct (Z.gtb_spec (Z.of_nat (List.length procs)) (topN fl)) as [Hgt | Hle].
    + rewrite Z.min_l by lia.
      rewrite S, length_firstn, L. repeat split; try lia; try reflexivity.
    + rewrite Z.min_r by lia. rewrite Nat2Z.id, <- L, firstn_all.
      rewrite S, L. repeat split; try lia; try reflexivity.
  - intros N. rewrite N in S. simpl in S. exact S.
Qed.

(** C6 as stated fails when an intermediate variant fits: with a pattern
    of thirty characters at 89 columns the full sentence takes 94
    characters and the abbreviated form fits, yet the line written is the
    one without the trailing noun, not the abbreviated one. *)
Lemma printHeader_abbreviated_counterexample :
  let pattern := "abcdefghijklmnopqrstuvwxyz0123" in
  let since := 5000000000 in
  let interval := F64.of_Z 5 in
  let cw := calcColWidths 89 in
  let plain v :=
    titlePlain v (formatElapsed since) (formatElapsedShort since) pattern interval 3 in
  (len (plain TitleFull) <=? total cw) = false /\
  (len (plain TitleAbbrev) <=? total cw) = true /\
  titleLine (printHeader since since pattern interval 3 cw)
  <> Some (titleStyled TitleAbbrev (formatElapsed since) (formatElapsedShort since)
             pattern interval 3) /\
  titleLine (printHeader since since pattern interval 3 cw)
  = Some (titleStyled TitleNoNoun (formatElapsed since) (formatElapsedShort since)
            pattern interval 3).
Proof.
  cbv zeta. split; [vm_compute; reflexivity|].
  split; [vm_compute; reflexivity|].
  split; [|vm_compute; reflexivity].
  intros H.
  assert (L : forall a b : option string, a = b ->
              option_map String.length a = option_map String.length b)
    by (intros a b ->; reflexivity).
  apply L in H. vm_compute in H. discriminate H.
Qed.

(** C6 (amended): the title line is the most detailed of the five variants
    whose plain text fits the total width, and the count-only one when
    none fits.  When the full sentence exceeds the width and the
    abbreviated form fits, the count-only form is not chosen; the
    abbreviated form is the one chosen when the two variants between them
    exceed the width as well. *)
Theorem printHeader_title_choice (since1 since2 : Z) (pattern : string)
  (interval : spec_float) (count : Z) (cw : colWidths) :
  let elapsed := formatElapsed since1 in
  let elapsedShort := formatElapsedShort since2 in
  let patDisplay := if (pattern =? "")%string then "*" else pattern in
  let fits v :=
    len (titlePlain v elapsed elapsedShort patDisplay interval count) <=? total cw in
  let chosen := mostDetailedFitting fits in
  titleLine (printHeader since1 since2 pattern interval count cw)
  = Some (titleStyled chosen elapsed elapsedShort patDisplay interval count) /\
  (chosen <> TitleMinimal -> fits chosen = true) /\
  (forall v, (titleRank v < titleRank chosen)%nat -> fits v = false) /\
  ((forall v, fits v = false) -> chosen = TitleMinimal) /\
  (fits TitleFull = false -> fits TitleAbbrev = true ->
   chosen <> TitleMinimal /\ chosen <> TitleFull /\
   (fits TitleNoNoun = false -> fits TitleNoInterval = false ->
    chosen = TitleAbbrev)).
Proof.
  intros elapsed elapsedShort patDisplay fits chosen.
  split; [apply printHeader_titleLine|].
  subst chosen. rewrite mostDetailedFitting_cases.
  destruct (fits TitleFull) eqn:F0; [|destruct (fits TitleNoNoun) eqn:F1;
    [|destruct (fits TitleNoInterval) eqn:F2; [|destruct (fits TitleAbbrev) eqn:F3]]].
  all: repeat split; try assumption; try congruence.
  all: try (intros [] Hr; simpl in Hr; try assumption; exfalso; lia).
  all: try (intros Hall; try reflexivity;
            first [rewrite Hall in F0 | rewrite Hall in F1
                  | rewrite Hall in F2 | rewrite Hall in F3]; discriminate).
Qed.

(** ** Claims on [formatBytes] *)

Lemma largestUnit_cases (bytes : Z) :
  largestUnit bytes
  = if bytes >=? GB then UnitG
    else if bytes >=? MB then UnitM
    else if bytes >=? KB then UnitK
    else UnitB.
Proof.
  unfold largestUnit. simpl find. rewrite !Z.geb_leb.
  destruct (GB <=? bytes), (MB <=? bytes), (KB <=? bytes), (1 <=? bytes);
    reflexivity.
Qed.

(** C5: 0, 1536, 1048576 and 1073741824 bytes are written "0B", "1.5K",
    "1.0M" and "1.0G"; every unsigned 64-bit count is written in the
    largest of the units B, K, M, G (powers of 1024) in which it is at
    least 1, in bytes as an integer when there is none or the unit is B,
    and otherwise as the quotient by the unit with one decimal place. *)
Theorem formatBytes_units :
  formatBytes 0 = "0B" /\
  formatBytes 1536 = "1.5K" /\
  formatBytes 1048576 = "1.0M" /\
  formatBytes 1073741824 = "1.0G" /\
  forall bytes, 0 <= bytes < 2 ^ 64 ->
    let u := largestUnit bytes in
    (1 <= bytes -> unitSize u <= bytes) /\
    (forall u', unitSize u' <= bytes -> unitSize u' <= unitSize u) /\
    formatBytes bytes
    = match u with
      | UnitB => fmt_d bytes
      | _ => fmt_f1 (F64.div (F64.of_Z bytes) (F64.of_Z (unitSize u)))
      end ++ unitSuffix u /\
    (u <> UnitB ->
     oneDecimal (fmt_f1 (F64.div (F64.of_Z bytes) (F64.of_Z (unitSize u))))).
Proof.
  split; [vm_compute; reflexivity|].
  split; [vm_compute; reflexivity|].
  split; [vm_compute; reflexivity|].
  split; [vm_compute; reflexivity|].
  intros bytes Hb u.
  split; [|split; [|split]].
  - subst u. rewrite largestUnit_cases. unfold GB, MB, KB.
    destruct (Z.geb_spec bytes (1024 * 1024 * 1024));
      [|destruct (Z.geb_spec bytes (1024 * 1024));
        [|destruct (Z.geb_spec bytes 1024)]];
      unfold unitSize, GB, MB, KB; lia.
  - subst u. rewrite largestUnit_cases. unfold GB, MB, KB.
    destruct (Z.geb_spec bytes (1024 * 1024 * 1024));
      [|destruct (Z.geb_spec bytes (1024 * 1024));
        [|destruct (Z.geb_spec bytes 1024)]];
      intros []; unfold unitSize, GB, MB, KB; lia.
  - subst u. rewrite largestUnit_cases. unfold formatBytes.
    destruct (bytes >=? GB); [reflexivity|].
    destruct (bytes >=? MB); [reflexivity|].
    destruct (bytes >=? KB); reflexivity.
  - intros _. apply fmt_f1_oneDecimal, formatBytes_quotient_number. exact Hb.
Qed.

Lemma formatBytes_units_witness :
  let bytes := 1536 in
  let u := largestUnit bytes in
  (1 <= bytes -> unitSize u <= bytes) /\
  (forall u', unitSize u' <= bytes -> unitSize u' <= unitSize u) /\
  formatBytes bytes
  = match u with
    | UnitB => fmt_d bytes
    | _ => fmt_f1 (F64.div (F64.of_Z bytes) (F64.of_Z (unitSize u)))
    end ++ unitSuffix u /\
  (u <> UnitB ->
   oneDecimal (fmt_f1 (F64.div (F64.of_Z bytes) (F64.of_Z (unitSize u))))).
Proof.
  apply (proj2 (proj2 (proj2 (proj2 formatBytes_units))) 1536).
  split; [discriminate | reflexivity].
Defined.

(** ** Further properties of the collection *)

Lemma collected_PID (pattern : string) (exactMatch : bool) (p : process.Process) :
  map PID (collected pattern exactMatch p)
  = if kept pattern exactMatch p then [process.Pid p] else [].
Proof.
  unfold collected, kept. destruct (process.Name p) as [nm|e]; [|reflexivity].
  destruct (nameMatches pattern exactMatch nm); reflexivity.
Qed.

(** X3: the records come in the order of the provider's handles, one for
    each handle whose name is read and passes the filter: their process
    ids are the ids of those handles, so there are never more records
    than handles. *)
Theorem getProcesses_order (procs : list process.Process)
  (pattern : string) (exactMatch : bool) :
  exists infos,
    getProcesses (Ok procs) pattern exactMatch = Ok infos /\
    map PID infos = map process.Pid (filter (kept pattern exactMatch) procs) /\
    (List.length infos <= List.length procs)%nat.
Proof.
  exists (flat_map (collected pattern exactMatch) procs).
  assert (E : map PID (flat_map (collected pattern exactMatch) procs)
              = map process.Pid (filter (kept pattern exactMatch) procs)).
  { induction procs as [|p procs IH]; simpl; [reflexivity|].
    rewrite map_app, IH, collected_PID.
    destruct (kept pattern exactMatch p); reflexivity. }
  split; [|split].
  - unfold getProcesses. rewrite fold_collectOne. reflexivity.
  - exact E.
  - rewrite <- (length_map PID), E, length_map. apply filter_length_le.
Qed.

Lemma prefix_refl (s : string) : String.prefix s s = true.
Proof.
  induction s as [|a s IH]; simpl; [reflexivity|].
  destruct (ascii_dec a a); [exact IH | congruence].
Qed.

Lemma strings_Contains_refl (s : string) : strings_Contains s s = true.
Proof.
  unfold strings_Contains. destruct s as [|a s]; [reflexivity|].
  simpl. destruct (ascii_dec a a) as [_|N]; [|congruence].
  rewrite prefix_refl. reflexivity.
Qed.

Lemma nameMatches_exact_partial (pattern nm : string) :
  nameMatches pattern true nm = true -> nameMatches pattern false nm = true.
Proof.
  unfold nameMatches. destruct (pattern =? "")%string; [trivial|].
  intros H. apply String.eqb_eq in H. rewrite H. apply strings_Contains_refl.
Qed.

(** X4: the exact mode shows nothing the substring mode hides: every
    record collected with the exact match is collected, with the same
    pattern and handles, with the partial match. *)
Theorem getProcesses_exact_subset (procs : list process.Process) (pattern : string)
  (exactInfos partialInfos : list ProcessInfo) :
  getProcesses (Ok procs) pattern true = Ok exactInfos ->
  getProcesses (Ok procs) pattern false = Ok partialInfos ->
  forall i, In i exactInfos -> In i partialInfos.
Proof.
  unfold getProcesses. rewrite !fold_collectOne. simpl.
  intros E P. injection E as <-. injection P as <-.
  intros i Hi. apply in_flat_map in Hi. destruct Hi as (p & Hp & Hi).
  apply in_flat_map. exists p. split; [exact Hp|].
  unfold collected in *. destruct (process.Name p) as [nm|e]; [|exact Hi].
  destruct (nameMatches pattern true nm) eqn:M; [|destruct Hi].
  rewrite (nameMatches_exact_partial pattern nm M). exact Hi.
Qed.

(** X5: the status of every collected record is derived from its CPU
    percentage alone: "active" when it is above 0.1, "idle" otherwise, a
    percentage that is not a number included. *)
Theorem getProcesses_status (procs : list process.Process)
  (pattern : string) (exactMatch : bool) (infos : list ProcessInfo) :
  getProcesses (Ok procs) pattern exactMatch = Ok infos ->
  forall i, In i infos ->
    (Status i = "active" /\ F64.gtb (CPUPercent i) F64.tenth = true) \/
    (Status i = "idle" /\ F64.gtb (CPUPercent i) F64.tenth = false).
Proof.
  unfold getProcesses. rewrite fold_collectOne. simpl.
  intros E. injection E as <-.
  intros i Hi. apply in_flat_map in Hi. destruct Hi as (p & Hp & Hi).
  unfold collected in Hi. destruct (process.Name p) as [nm|e]; [|destruct Hi].
  destruct (nameMatches pattern exactMatch nm); [|destruct Hi].
  destruct Hi as [<-|[]]. unfold recordOf. simpl.
  destruct (F64.gtb (orZero F64.zero (process.CPUPercent p)) F64.tenth); auto.
Qed.

(** X6: a pattern acts through its lower-case form only: two non-empty
    patterns with the same lower-case form select the same records. *)
Theorem getProcesses_pattern_case (procsRead : result (list process.Process))
  (pattern pattern' : string) (exactMatch : bool) :
  pattern <> "" -> pattern' <> "" -> ToLower pattern = ToLower pattern' ->
  getProcesses procsRead pattern exactMatch
  = getProcesses procsRead pattern' exactMatch.
Proof.
  intros N N' E. unfold getProcesses.
  destruct procsRead as [procs|e]; [|reflexivity].
  rewrite !fold_collectOne. simpl. f_equal.
  induction procs as [|p procs IH]; simpl; [reflexivity|].
  rewrite IH. f_equal. unfold collected, nameMatches.
  apply String.eqb_neq in N, N'. rewrite N, N', E. reflexivity.
Qed.

(** ** Further properties of the header *)

Lemma string_length_append (a b : string) :
  String.length (a ++ b) = (String.length a + String.length b)%nat.
Proof. induction a as [|c a IH]; simpl; [reflexivity | rewrite IH; reflexivity]. Qed.

Lemma repeat_dash_length (n : nat) : String.length (repeat_string "-" n) = n.
Proof. induction n as [|n IH]; simpl; [reflexivity | rewrite IH; reflexivity]. Qed.

(** X11: the header is the title line followed by the rule; on a total
    width that is not negative the rule is that many dashes and a line
    feed, and on a negative one the title is still written and
    [strings.Repeat] then panics. *)
Theorem printHeader_rule (since1 since2 : Z) (pattern : string)
  (interval : spec_float) (count : Z) (cw : colWidths) :
  exists title,
    titleLine (printHeader since1 since2 pattern interval count cw) = Some title /\
    (0 <= total cw ->
     exists rule,
       printHeader since1 since2 pattern interval count cw
       = [Print title; Print (rule ++ LF)] /\
       rule = repeat_string "-" (Z.to_nat (total cw)) /\
       len rule = total cw) /\
    (total cw < 0 ->
     printHeader since1 since2 pattern interval count cw = [Print title; Panic]).
Proof.
  unfold printHeader, strings_Repeat. cbv zeta.
  eexists. split; [reflexivity|]. split.
  - intros H.
    replace (total cw <? 0) with false by (symmetry; apply Z.ltb_ge; lia).
    eexists. split; [reflexivity|]. split; [reflexivity|].
    unfold len. rewrite repeat_dash_length. lia.
  - intros H.
    replace (total cw <? 0) with true by (symmetry; apply Z.ltb_lt; lia).
    reflexivity.
Qed.

Lemma mostDetailedFitting_monotone (size : TitleVariant -> Z) (w w' : Z) :
  w <= w' ->
  (titleRank (mostDetailedFitting (fun v => (size v <=? w')%Z))
   <= titleRank (mostDetailedFitting (fun v => (size v <=? w)%Z)))%nat.
Proof.
  intros H. rewrite !mostDetailedFitting_cases.
  destruct (Z.leb_spec (size TitleFull) w');
    destruct (Z.leb_spec (size TitleFull) w);
    destruct (Z.leb_spec (size TitleNoNoun) w');
    destruct (Z.leb_spec (size TitleNoNoun) w);
    destruct (Z.leb_spec (size TitleNoInterval) w');
    destruct (Z.leb_spec (size TitleNoInterval) w);
    destruct (Z.leb_spec (size TitleAbbrev) w');
    destruct (Z.leb_spec (size TitleAbbrev) w);
    simpl; lia.
Qed.

(** X12: the title never loses detail when the terminal gets wider: with
    the same clock readings, pattern, interval and count, the variant
    written for a larger total width is at least as detailed as the one
    written for a smaller one. *)
Theorem printHeader_title_monotone (since1 since2 : Z) (pattern : string)
  (interval : spec_float) (count : Z) (cw cw' : colWidths) :
  total cw <= total cw' ->
  exists v v',
    titleLine (printHeader since1 since2 pattern interval count cw)
    = Some (titleStyled v (formatElapsed since1) (formatElapsedShort since2)
              (if (pattern =? "")%string then "*" else pattern) interval count) /\
    titleLine (printHeader since1 since2 pattern interval count cw')
    = Some (titleStyled v' (formatElapsed since1) (formatElapsedShort since2)
              (if (pattern =? "")%string then "*" else pattern) interval count) /\
    (titleRank v' <= titleRank v)%nat.
Proof.
  intros H.
  pose proof (printHeader_titleLine since1 since2 pattern interval count cw) as T.
  pose proof (printHeader_titleLine since1 since2 pattern interval count cw') as T'.
  cbv zeta in T, T'.
  eexists. eexists. split; [exact T|]. split; [exact T'|].
  apply (mostDetailedFitting_monotone
           (fun v => len (titlePlain v (formatElapsed since1)
                            (formatElapsedShort since2)
                            (if (pattern =? "")%string then "*" else pattern)
                            interval count))).
  exact H.
Qed.

(** ** Further properties of the layout *)

Lemma calcColWidths_clamped (W : Z) : W < 89 -> calcColWidths W = calcColWidths 89.
Proof.
  intros H. unfold calcColWidths, fixedWidth, minName, minCreated, minUser.
  replace (W <? 59 + 12 + 10 + 8) with true by (symmetry; apply Z.ltb_lt; lia).
  reflexivity.
Qed.

(** The widths of a table line add up to [max W 90] at every width [W]
    an [int] holds, while the total is [max W 89]. *)
Lemma calcColWidths_layoutSum (W : Z) :
  GoInt.in_range W ->
  layoutSum (calcColWidths W) = Z.max W 90 /\
  total (calcColWidths W) = Z.max W 89.
Proof.
  intros HW. split; [|apply calcColWidths_total].
  destruct (Z_lt_le_dec W 89) as [Hlt | Hge].
  - rewrite (calcColWidths_clamped W Hlt). rewrite Z.max_r by lia. reflexivity.
  - destruct (layout_invariant_of_bounds W (calcColWidths W) Hge
                (calcColWidths_bounds W HW) (calcColWidths_sum_small W))
      as (Ht & _ & _ & _ & Hs).
    destruct (Z.eq_dec W 89) as [->|Hne]; [reflexivity|].
    unfold layoutSum, fixedWidth. rewrite Hs by lia. lia.
Qed.

(** X2: from 126 columns up, as long as 45 times the remaining width is
    still an [int], the name and created columns stay at their caps of 30
    and 20 and the user column takes all the rest. *)
Theorem calcColWidths_saturated (W : Z) :
  126 <= W -> (W - 59) * 45 <= GoInt.max_int ->
  calcColWidths W = {| name := 30; created := 20; user := W - 109; total := W |}.
Proof.
  unfold GoInt.max_int. intros HW Hmul.
  assert (R : forall x, 0 <= x <= 2 ^ 63 - 1 -> GoInt.wrap x = x).
  { intros x Hx. apply wrap_id.
    unfold GoInt.in_range, GoInt.min_int, GoInt.max_int. lia. }
  unfold calcColWidths, fixedWidth, minName, minCreated, minUser.
  replace (W <? 59 + 12 + 10 + 8) with false by (symmetry; apply Z.ltb_ge; lia).
  unfold GoInt.sub, GoInt.mul, GoInt.div.
  rewrite (R (W - 59)) by lia.
  rewrite (R ((W - 59) * 45)) by lia.
  rewrite (R ((W - 59) * 30)) by lia.
  rewrite !Z.quot_div_nonneg by lia.
  assert (Hn : 30 <= (W - 59) * 45 / 100) by (apply Z.div_le_lower_bound; lia).
  assert (Hc : 20 <= (W - 59) * 30 / 100) by (apply Z.div_le_lower_bound; lia).
  assert (Hn' : (W - 59) * 45 / 100 <= (W - 59) * 45)
    by (apply Z.div_le_upper_bound; lia).
  assert (Hc' : (W - 59) * 30 / 100 <= (W - 59) * 30)
    by (apply Z.div_le_upper_bound; lia).
  rewrite (R ((W - 59) * 45 / 100)) by lia.
  rewrite (R ((W - 59) * 30 / 100)) by lia.
  assert (En : (if (W - 59) * 45 / 100 >? 30 then 30 else (W - 59) * 45 / 100) = 30).
  { destruct (Z.gtb_spec ((W - 59) * 45 / 100) 30); lia. }
  assert (Ec : (if (W - 59) * 30 / 100 >? 20 then 20 else (W - 59) * 30 / 100) = 20).
  { destruct (Z.gtb_spec ((W - 59) * 30 / 100) 20); lia. }
  cbv zeta. rewrite En, Ec.
  change (30 <? 12) with false. change (20 <? 10) with false. cbv iota.
  rewrite (R (W - 59 - 30)) by lia.
  rewrite (R (W - 59 - 30 - 20)) by lia.
  replace (W - 59 - 30 - 20 <? 8) with false by (symmetry; apply Z.ltb_ge; lia).
  f_equal. lia.
Qed.

Lemma calcColWidths_saturated_witness :
  calcColWidths 200 = {| name := 30; created := 20; user := 200 - 109; total := 200 |}.
Proof.
  apply (calcColWidths_saturated 200); [lia | vm_compute; discriminate].
Defined.

(** ** Further properties of the render cycle *)

(** What a successful cycle writes, and the terminal size it records. *)
Lemma display_frame fl rd (pattern : string) (exactMatch firstRun : bool) st procs :
  getProcesses (procsRead rd) pattern exactMatch = Ok procs ->
  exited st = None ->
  let snap := publishedSnapshot fl procs in
  let width := fst (termSize rd) in
  let height := snd (termSize rd) in
  let resized :=
    negb (width =? lastTermWidth st) || negb (height =? lastTermHeight st) in
  let cw := calcColWidths width in
  out (display fl rd pattern exactMatch firstRun st)
  = (out st
     ++ (if firstRun || resized then [ClearScreen] else [])
     ++ [MoveCursor 1 1]
     ++ (if negb (noHeader fl)
         then printHeader (since1 rd) (since2 rd) pattern (interval fl)
                (Z.of_nat (List.length snap)) cw ++ [TableHeader cw]
         else [])
     ++ flat_map (fun p => [ProcessRow p cw; ClearLine]) snap
     ++ [ClearToEnd; Print LF;
         Print ("  " ++ ESC ++ "[90mp:pause  q:quit" ++ ESC ++ "[0m"); ClearLine])%list
  /\ lastTermWidth (display fl rd pattern exactMatch firstRun st) = width
  /\ lastTermHeight (display fl rd pattern exactMatch firstRun st) = height.
Proof.
  intros G E. unfold display. rewrite G. fold (publishedSnapshot fl procs).
  destruct (termSize rd) as [width height]. cbv zeta. simpl fst. simpl snd.
  set (snap := publishedSnapshot fl procs).
  set (st1 := set_lastProcs snap st).
  change (lastTermWidth st1) with (lastTermWidth st).
  change (lastTermHeight st1) with (lastTermHeight st).
  set (resized := negb (width =? lastTermWidth st)
                  || negb (height =? lastTermHeight st)).
  set (st2 := if resized then set_lastTerm width height st1 else st1).
  set (cw := calcColWidths width).
  set (hdr := printHeader (since1 rd) (since2 rd) pattern (interval fl)
                (Z.of_nat (List.length snap)) cw).
  set (os := ((if firstRun || resized then [ClearScreen] else [])
          ++ [MoveCursor 1 1]
          ++ (if negb (noHeader fl) then hdr ++ [TableHeader cw] else [])
          ++ flat_map (fun p => [ProcessRow p cw; ClearLine]) snap
          ++ [ClearToEnd]
          ++ [Print LF;
              Print ("  " ++ ESC ++ "[90mp:pause  q:quit" ++ ESC ++ "[0m");
              ClearLine])%list).
  assert (D : emit [Print LF;
                    Print ("  " ++ ESC ++ "[90mp:pause  q:quit" ++ ESC ++ "[0m");
                    ClearLine]
                (emit [ClearToEnd]
                   (emit (flat_map (fun p => [ProcessRow p cw; ClearLine]) snap)
                      (if negb (noHeader fl)
                       then emit (hdr ++ [TableHeader cw])
                              (emit [MoveCursor 1 1]
                                 (if firstRun || resized
                                  then emit [ClearScreen] st2 else st2))
                       else emit [MoveCursor 1 1]
                              (if firstRun || resized
                               then emit [ClearScreen] st2 else st2))))
              = emit os st2).
  { subst os. destruct (firstRun || resized), (negb (noHeader fl));
      rewrite !emit_app; reflexivity. }
  rewrite D.
  assert (Q : forallb quiet os = true).
  { subst os. rewrite !forallb_app.
    destruct (rows_render cw snap) as [_ Hq]. rewrite Hq.
    assert (Hh : forallb quiet hdr = true) by apply printHeader_quiet.
    destruct (firstRun || resized), (negb (noHeader fl));
      rewrite ?forallb_app, ?Hh; reflexivity. }
  assert (E2 : exited st2 = None) by (subst st2 st1; destruct resized; exact E).
  destruct (emit_quiet os st2 E2 Q) as [O _].
  rewrite O, emit_lastTermWidth, emit_lastTermHeight.
  split; [|split].
  - subst st2 st1. destruct resized; reflexivity.
  - subst st2 st1 resized.
    destruct (Z.eqb_spec width (lastTermWidth st));
      destruct (Z.eqb_spec height (lastTermHeight st)); simpl; congruence.
  - subst st2 st1 resized.
    destruct (Z.eqb_spec width (lastTermWidth st));
      destruct (Z.eqb_spec height (lastTermHeight st)); simpl; congruence.
Qed.

(** X13: a render cycle, whether the read succeeds or fails, never ends
    the process, never writes a teardown output and leaves the pause flag
    and the exit latch as they were. *)
Theorem display_keeps_running fl rd (pattern : string)
  (exactMatch firstRun : bool) (st : State) :
  exited st = None ->
  exited (display fl rd pattern exactMatch firstRun st) = None /\
  teardownTrace (display fl rd pattern exactMatch firstRun st) = teardownTrace st /\
  paused (display fl rd pattern exactMatch firstRun st) = paused st /\
  exitOnce (display fl rd pattern exactMatch firstRun st) = exitOnce st.
Proof.
  intros E. split; [apply display_alive; exact E|]. split.
  - unfold teardownTrace. apply display_filter, isTeardown_render.
  - apply display_fields.
Qed.

(** X14: after a successful cycle the remembered terminal size is the
    size just read; a failed cycle leaves the remembered size alone. *)
Theorem display_tracks_size fl rd (pattern : string)
  (exactMatch firstRun : bool) (st : State) :
  exited st = None ->
  (forall procs,
      getProcesses (procsRead rd) pattern exactMatch = Ok procs ->
      (lastTermWidth (display fl rd pattern exactMatch firstRun st),
       lastTermHeight (display fl rd pattern exactMatch firstRun st))
      = termSize rd) /\
  (forall e,
      procsRead rd = Err e ->
      lastTermWidth (display fl rd pattern exactMatch firstRun st) = lastTermWidth st /\
      lastTermHeight (display fl rd pattern exactMatch firstRun st) = lastTermHeight st).
Proof.
  intros E. split.
  - intros procs G.
    destruct (display_frame fl rd pattern exactMatch firstRun st procs G E)
      as (_ & W & H).
    rewrite W, H. destruct (termSize rd); reflexivity.
  - intros e F. rewrite (display_failure fl rd pattern exactMatch firstRun st e F).
    rewrite emit_lastTermWidth, emit_lastTermHeight. auto.
Qed.

Lemma printHeader_no_mark (f : Output -> bool) (since1 since2 : Z)
  (pattern : string) (interval : spec_float) (count : Z) (cw : colWidths) :
  (forall s, f (Print s) = false) -> f Panic = false ->
  filter f (printHeader since1 since2 pattern interval count cw) = [].
Proof.
  intros Hp Hx. unfold printHeader. cbv zeta. simpl filter. rewrite Hp.
  destruct (strings_Repeat "-" (total cw)); rewrite ?Hp, ?Hx; reflexivity.
Qed.

Lemma rows_no_clear (cw : colWidths) (procs : list ProcessInfo) :
  filter isClearScreen (flat_map (fun p => [ProcessRow p cw; ClearLine]) procs) = [].
Proof. induction procs as [|p procs IH]; simpl; auto. Qed.

(** X15: a successful cycle clears the screen exactly when it is a first
    frame or the terminal size differs from the remembered one, and then
    once, before anything else of the frame; a steady refresh only moves
    the cursor home. *)
Theorem display_clear_screen fl rd (pattern : string)
  (exactMatch firstRun : bool) (st : State) (procs : list ProcessInfo) :
  getProcesses (procsRead rd) pattern exactMatch = Ok procs ->
  exited st = None ->
  let changed :=
    firstRun || negb (fst (termSize rd) =? lastTermWidth st)
    || negb (snd (termSize rd) =? lastTermHeight st) in
  exists frame,
    out (display fl rd pattern exactMatch firstRun st) = (out st ++ frame)%list /\
    filter isClearScreen frame = (if changed then [ClearScreen] else []) /\
    hd_error frame = Some (if changed then ClearScreen else MoveCursor 1 1).
Proof.
  intros G E changed.
  destruct (display_frame fl rd pattern exactMatch firstRun st procs G E) as (O & _).
  cbv zeta in O. eexists. split; [exact O|].
  assert (C : changed = firstRun
                        || (negb (fst (termSize rd) =? lastTermWidth st)
                            || negb (snd (termSize rd) =? lastTermHeight st))).
  { subst changed. rewrite orb_assoc. reflexivity. }
  rewrite <- C.
  rewrite !filter_app, rows_no_clear.
  assert (Hh : filter isClearScreen
                 (if negb (noHeader fl)
                  then (printHeader (since1 rd) (since2 rd) pattern (interval fl)
                          (Z.of_nat (List.length (publishedSnapshot fl procs)))
                          (calcColWidths (fst (termSize rd)))
                        ++ [TableHeader (calcColWidths (fst (termSize rd)))])%list
                  else []) = []).
  { destruct (negb (noHeader fl)); [|reflexivity].
    rewrite filter_app, printHeader_no_mark by reflexivity. reflexivity. }
  rewrite Hh. destruct changed; split; reflexivity.
Qed.

Lemma rowsOf_app (a b : list Output) : rowsOf (a ++ b) = (rowsOf a ++ rowsOf b)%list.
Proof. unfold rowsOf. apply flat_map_app. Qed.

Lemma rowsOf_rows (cw : colWidths) (procs : list ProcessInfo) :
  rowsOf (flat_map (fun p => [ProcessRow p cw; ClearLine]) procs)
  = map (fun p => (p, cw)) procs.
Proof.
  induction procs as [|p procs IH]; [reflexivity|].
  change (flat_map (fun p0 => [ProcessRow p0 cw; ClearLine]) (p :: procs))
    with ([ProcessRow p cw; ClearLine]
          ++ flat_map (fun p0 => [ProcessRow p0 cw; ClearLine]) procs)%list.
  rewrite rowsOf_app, IH. reflexivity.
Qed.

Lemma rowsOf_printHeader (since1 since2 : Z) (pattern : string)
  (interval : spec_float) (count : Z) (cw : colWidths) :
  rowsOf (printHeader since1 since2 pattern interval count cw) = [].
Proof.
  unfold printHeader. cbv zeta.
  destruct (strings_Repeat "-" (total cw)); reflexivity.
Qed.

(** X16: the rows a successful cycle writes are the records of the
    snapshot it publishes, each once and in the snapshot's order, all laid
    out for the terminal width just read. *)
Theorem display_rows fl rd (pattern : string)
  (exactMatch firstRun : bool) (st : State) (procs : list ProcessInfo) :
  getProcesses (procsRead rd) pattern exactMatch = Ok procs ->
  exited st = None ->
  exists frame,
    out (display fl rd pattern exactMatch firstRun st) = (out st ++ frame)%list /\
    rowsOf frame
    = map (fun p => (p, calcColWidths (fst (termSize rd))))
        (lastProcs (display fl rd pattern exactMatch firstRun st)).
Proof.
  intros G E.
  destruct (display_frame fl rd pattern exactMatch firstRun st procs G E) as (O & _).
  cbv zeta in O. eexists. split; [exact O|].
  rewrite (display_lastProcs fl rd pattern exactMatch firstRun st procs G).
  rewrite !rowsOf_app, rowsOf_rows.
  assert (Hh : rowsOf
                 (if negb (noHeader fl)
                  then (printHeader (since1 rd) (since2 rd) pattern (interval fl)
                          (Z.of_nat (List.length (publishedSnapshot fl procs)))
                          (calcColWidths (fst (termSize rd)))
                        ++ [TableHeader (calcColWidths (fst (termSize rd)))])%list
                  else []) = []).
  { destruct (negb (noHeader fl)); [|reflexivity].
    rewrite rowsOf_app, rowsOf_printHeader. reflexivity. }
  rewrite Hh.
  destruct (firstRun
            || (negb (fst (termSize rd) =? lastTermWidth st)
                || negb (snd (termSize rd) =? lastTermHeight st)));
    simpl; rewrite app_nil_r; reflexivity.
Qed.

(** ** Further properties of the session *)

Lemma handleExit_fields fl rd st :
  paused (handleExit fl rd st) = paused st /\
  lastProcs (handleExit fl rd st) = lastProcs st.
Proof.
  unfold handleExit. destruct (exitOnce st); [auto|]. cbv zeta.
  rewrite !emit_paused, !emit_lastProcs.
  match goal with
  | |- paused (if ?c then _ else _) = _ /\ _ => destruct c
  end; rewrite ?emit_paused, ?emit_lastProcs; auto.
Qed.

Lemma step_idle_paused fl st ev rd :
  sessionOf st = Paused -> isIdle ev = true -> step fl st (ev, rd) = st.
Proof.
  unfold sessionOf. intros S I.
  destruct (exited st) eqn:E; [discriminate|].
  destruct (exitOnce st); [discriminate|].
  destruct (paused st =? 0) eqn:P; [discriminate|].
  unfold step. rewrite E. simpl fst. simpl snd.
  destruct ev as [key| | |]; try discriminate; try reflexivity.
  - simpl in I. unfold onKey.
    destruct (isPauseKey key); [discriminate|].
    destruct (isQuitKey key); [discriminate|]. reflexivity.
  - unfold onTick. rewrite P. reflexivity.
Qed.

Lemma emit_one (o : Output) (st : State) :
  exited st = None -> emit [o] st = emit1 o st.
Proof. intros E. simpl. rewrite E. reflexivity. Qed.

Lemma rowsOf_Print (s : string) (os : list Output) :
  rowsOf (Print s :: os) = rowsOf os.
Proof. reflexivity. Qed.

Lemma rowsOf_map_rows (cw : colWidths) (procs : list ProcessInfo) :
  rowsOf (map (fun p => ProcessRow p cw) procs) = map (fun p => (p, cw)) procs.
Proof.
  induction procs as [|p procs IH]; [reflexivity|].
  change (rowsOf (map (fun p0 => ProcessRow p0 cw) (p :: procs)))
    with ((p, cw) :: rowsOf (map (fun p0 => ProcessRow p0 cw) procs)).
  rewrite IH. reflexivity.
Qed.

Lemma rowsOf_printPlainSnapshot fl rd (procs : list ProcessInfo) :
  rowsOf (printPlainSnapshot fl rd procs)
  = map (fun p => (p, calcColWidths (fst (termSize rd)))) procs.
Proof.
  unfold printPlainSnapshot. cbv zeta. rewrite rowsOf_app, rowsOf_map_rows.
  destruct (negb (noHeader fl)); [|reflexivity].
  rewrite rowsOf_app, rowsOf_printHeader. reflexivity.
Qed.

(** X17: a paused session is inert: ticks, unsuccessful key reads and keys
    other than the pause and quit keys, in any number and order and
    whatever the provider and the terminal answer, change nothing and
    write nothing. *)
Theorem paused_session_inert fl (st : State) (trace : list (Event * Reading)) :
  sessionOf st = Paused ->
  forallb (fun er => isIdle (fst er)) trace = true ->
  run fl st trace = st.
Proof.
  intros S. unfold run. induction trace as [|[ev rd] trace IH]; simpl; intros I.
  - reflexivity.
  - apply andb_true_iff in I. destruct I as [I1 I2].
    rewrite (step_idle_paused fl st ev rd S I1). apply IH. exact I2.
Qed.

(** X18: pausing shows the snapshot already published and collects
    nothing: the rows written on the pause key are the records of
    [lastProcs] in order, laid out for the width just read, after the
    alternate screen has been left, and [lastProcs] stays as it was. *)
Theorem pause_prints_last_snapshot fl rd (st : State) (key : Z) :
  sessionOf st = Running -> isPauseKey key = true ->
  exists frame,
    out (step fl st (KeyPress key, rd)) = (out st ++ frame)%list /\
    hd_error frame = Some (Print (ESC ++ "[?1049l")) /\
    rowsOf frame
    = map (fun p => (p, calcColWidths (fst (termSize rd)))) (lastProcs st) /\
    lastProcs (step fl st (KeyPress key, rd)) = lastProcs st /\
    paused (step fl st (KeyPress key, rd)) = 1.
Proof.
  unfold sessionOf. intros S K.
  destruct (exited st) eqn:E; [discriminate|].
  destruct (exitOnce st) eqn:O; [discriminate|].
  destruct (paused st =? 0) eqn:P; [|discriminate].
  unfold step. rewrite E. simpl fst. simpl snd. unfold onKey. rewrite K, P.
  cbv zeta.
  match goal with
  | |- context [emit ?l (set_paused 1 st)] => set (os := l)
  end.
  assert (Q : forallb quiet os = true).
  { subst os. simpl. rewrite forallb_app, printPlainSnapshot_quiet. reflexivity. }
  destruct (emit_quiet os (set_paused 1 st) E Q) as [Ho _].
  exists os. rewrite Ho, emit_lastProcs, emit_paused.
  split; [reflexivity|]. split; [reflexivity|]. split; [|split; reflexivity].
  subst os. change (lastProcs (set_paused 1 st)) with (lastProcs st).
  rewrite rowsOf_Print, rowsOf_app, rowsOf_printPlainSnapshot.
  rewrite rowsOf_Print. apply app_nil_r.
Qed.

(** X19: resuming redraws in full: on the pause key in a paused session
    the alternate screen is entered again and a first-frame cycle follows
    at once, so with a successful read the screen is cleared, the fresh
    snapshot is published and the session runs. *)
Theorem resume_redraws fl rd (st : State) (key : Z) (procs : list ProcessInfo) :
  sessionOf st = Paused -> isPauseKey key = true ->
  getProcesses (procsRead rd) (pattern fl) (exact fl) = Ok procs ->
  exists rest,
    out (step fl st (KeyPress key, rd))
    = (out st ++ Print (ESC ++ "[?1049h") :: ClearScreen :: MoveCursor 1 1 :: rest)%list /\
    lastProcs (step fl st (KeyPress key, rd)) = publishedSnapshot fl procs /\
    paused (step fl st (KeyPress key, rd)) = 0.
Proof.
  unfold sessionOf. intros S K G.
  destruct (exited st) eqn:E; [discriminate|].
  destruct (exitOnce st) eqn:O; [discriminate|].
  destruct (paused st =? 0) eqn:P; [discriminate|].
  unfold step. rewrite E. simpl fst. simpl snd. unfold onKey. rewrite K, P.
  cbv zeta.
  set (st1 := emit [Print (ESC ++ "[?1049h")] (set_paused 0 st)).
  assert (A : out st1 = (out (set_paused 0 st) ++ [Print (ESC ++ "[?1049h")])%list
              /\ exited st1 = None).
  { subst st1. apply emit_quiet; [exact E | reflexivity]. }
  destruct A as [O1 E1].
  destruct (display_frame fl rd (pattern fl) (exact fl) true st1 procs G E1)
    as (Of & _).
  cbv zeta in Of. simpl orb in Of.
  eexists. split; [|split].
  - rewrite Of, O1. simpl out. rewrite <- app_assoc. simpl. reflexivity.
  - apply display_lastProcs. exact G.
  - destruct (display_fields fl rd (pattern fl) (exact fl) true st1) as [Hp _].
    rewrite Hp. subst st1. rewrite emit_paused. reflexivity.
Qed.

(** X20: the teardown in order: on the first quit key or signal the
    console is restored before anything is printed, the saved snapshot is
    printed only if the session was not paused (a paused session has it
    on screen already), and the last two outputs are the termination line
    and the exit with status 0. *)
Theorem teardown_sequence fl rd (st : State) (ev : Event) :
  sessionOf st <> Terminating -> isQuit ev = true ->
  exists middle,
    out (step fl st (ev, rd))
    = (out st
       ++ [DisableRawInput; RestoreConsole; Print (ESC ++ "[0m")]
       ++ middle
       ++ [Print ("WatchProc terminated." ++ LF); Exit 0])%list /\
    middle = (if paused st =? 0
              then Print (ESC ++ "[?1049l") :: printPlainSnapshot fl rd (lastProcs st)
              else []) /\
    rowsOf middle
    = (if paused st =? 0
       then map (fun p => (p, calcColWidths (fst (termSize rd)))) (lastProcs st)
       else []) /\
    exited (step fl st (ev, rd)) = Some 0.
Proof.
  intros S Q. apply alive_iff in S. destruct S as [E O].
  assert (St : step fl st (ev, rd) = handleExit fl rd st).
  { unfold step. rewrite E. simpl fst. simpl snd.
    destruct ev as [key| | |]; try discriminate; [|reflexivity].
    apply isQuit_key in Q. destruct Q as [Q1 Q2].
    unfold onKey. rewrite Q1, Q2. reflexivity. }
  rewrite St.
  destruct (handleExit_fresh fl rd st O E) as (_ & X & _).
  eexists. split; [|split; [reflexivity|split; [|exact X]]].
  - unfold handleExit. rewrite O. cbv zeta.
    set (st0 := set_exitOnce true st).
    set (st1 := emit [DisableRawInput; RestoreConsole; Print (ESC ++ "[0m")] st0).
    assert (A1 : out st1
                 = (out st0 ++ [DisableRawInput; RestoreConsole; Print (ESC ++ "[0m")])%list
                 /\ exited st1 = None).
    { subst st1. apply emit_quiet; [exact E | reflexivity]. }
    destruct A1 as [O1 E1]. change (out st0) with (out st) in O1.
    assert (P1 : paused st1 = paused st /\ lastProcs st1 = lastProcs st).
    { subst st1. rewrite emit_paused, emit_lastProcs. auto. }
    destruct P1 as [P1 L1]. rewrite P1, L1.
    set (mid := if paused st =? 0
                then Print (ESC ++ "[?1049l")
                     :: printPlainSnapshot fl rd (lastProcs st)
                else []).
    assert (A2 : out (if paused st =? 0
                      then emit (Print (ESC ++ "[?1049l")
                                 :: printPlainSnapshot fl rd (lastProcs st)) st1
                      else st1) = (out st1 ++ mid)%list
                 /\ exited (if paused st =? 0
                            then emit (Print (ESC ++ "[?1049l")
                                       :: printPlainSnapshot fl rd (lastProcs st)) st1
                            else st1) = None).
    { subst mid. destruct (paused st =? 0).
      - apply emit_quiet; [exact E1|]. simpl. apply printPlainSnapshot_quiet.
      - rewrite app_nil_r. auto. }
    destruct A2 as [O2 E2].
    match goal with
    | |- out (emit [Exit 0] (emit ?l ?s)) = _ =>
        destruct (emit_quiet l s E2 eq_refl) as [O3 E3]
    end.
    rewrite emit_one by exact E3. cbn [out emit1]. rewrite O3, O2, O1.
    rewrite <- !app_assoc. reflexivity.
  - destruct (paused st =? 0); [|reflexivity].
    rewrite rowsOf_Print. apply rowsOf_printPlainSnapshot.
Qed.

(** *** Invariants along a run *)

Lemma publishedSnapshot_length fl (procs : list ProcessInfo) :
  0 < topN fl ->
  Z.of_nat (List.length (publishedSnapshot fl procs)) <= topN fl.
Proof.
  intros N. unfold publishedSnapshot.
  replace (topN fl >? 0) with true by (symmetry; apply Z.gtb_lt; lia).
  simpl andb.
  destruct (Z.gtb_spec
              (Z.of_nat (List.length (sortProcesses procs (sortBy fl) (descOrder fl))))
              (topN fl)) as [H|H]; [|exact H].
  rewrite length_firstn. lia.
Qed.

Lemma display_lastProcs_cases fl rd (pattern : string)
  (exactMatch firstRun : bool) st :
  lastProcs (display fl rd pattern exactMatch firstRun st) = lastProcs st \/
  exists procs,
    lastProcs (display fl rd pattern exactMatch firstRun st)
    = publishedSnapshot fl procs.
Proof.
  destruct (getProcesses (procsRead rd) pattern exactMatch) as [procs|e] eqn:G.
  - right. exists procs. apply display_lastProcs. exact G.
  - left. unfold display. rewrite G. apply emit_lastProcs.
Qed.

Lemma step_lastProcs_cases fl st er :
  lastProcs (step fl st er) = lastProcs st \/
  exists procs, lastProcs (step fl st er) = publishedSnapshot fl procs.
Proof.
  unfold step. destruct (exited st); [auto|].
  destruct er as [[key| | |] rd]; simpl fst; simpl snd; auto.
  - unfold onKey. destruct (isPauseKey key).
    + destruct (paused st =? 0).
      * left. cbv zeta. rewrite emit_lastProcs. reflexivity.
      * cbv zeta.
        destruct (display_lastProcs_cases fl rd (pattern fl) (exact fl) true
                    (emit [Print (ESC ++ "[?1049h")] (set_paused 0 st))) as [H|H].
        -- left. rewrite H, emit_lastProcs. reflexivity.
        -- right. exact H.
    + destruct (isQuitKey key); [|auto].
      left. apply handleExit_fields.
  - left. apply handleExit_fields.
  - unfold onTick. destruct (paused st =? 0); [|auto].
    apply display_lastProcs_cases.
Qed.

(** X21: the cap holds all along a session: with a positive [topN], and
    from any state whose snapshot respects it (the empty one at start-up
    does), the snapshot kept in [lastProcs], the one printed on pause and
    at exit, never has more than [topN] records, whatever events and
    readings follow. *)
Theorem run_snapshot_cap fl (st : State) (trace : list (Event * Reading)) :
  0 < topN fl ->
  Z.of_nat (List.length (lastProcs st)) <= topN fl ->
  Z.of_nat (List.length (lastProcs (run fl st trace))) <= topN fl.
Proof.
  intros N. revert st. unfold run.
  induction trace as [|er trace IH]; intros st H; simpl; [exact H|].
  apply IH.
  destruct (step_lastProcs_cases fl st er) as [E|[procs E]]; rewrite E.
  - exact H.
  - apply publishedSnapshot_length. exact N.
Qed.

Lemma step_paused_cases fl st er :
  paused (step fl st er) = paused st \/
  paused (step fl st er) = 0 \/ paused (step fl st er) = 1.
Proof.
  unfold step. destruct (exited st); [auto|].
  destruct er as [[key| | |] rd]; simpl fst; simpl snd; auto.
  - unfold onKey. destruct (isPauseKey key).
    + destruct (paused st =? 0); cbv zeta.
      * right. right. rewrite emit_paused. reflexivity.
      * right. left.
        destruct (display_fields fl rd (pattern fl) (exact fl) true
                    (emit [Print (ESC ++ "[?1049h")] (set_paused 0 st))) as [Hp _].
        rewrite Hp, emit_paused. reflexivity.
    + destruct (isQuitKey key); [|auto].
      left. apply handleExit_fields.
  - left. apply handleExit_fields.
  - unfold onTick. destruct (paused st =? 0); [|auto].
    left. apply display_fields.
Qed.

(** X22: the pause flag only ever holds 0 or 1: from a state where it
    does, every run leaves it at 0 or 1, so the compare-and-swap of the
    key listener always sees one of the two values it tells apart. *)
Theorem run_pause_flag fl (st : State) (trace : list (Event * Reading)) :
  paused st = 0 \/ paused st = 1 ->
  paused (run fl st trace) = 0 \/ paused (run fl st trace) = 1.
Proof.
  revert st. unfold run.
  induction trace as [|er trace IH]; intros st H; simpl; [exact H|].
  apply IH.
  destruct (step_paused_cases fl st er) as [E|[E|E]]; rewrite E; auto.
Qed.

(** *** Start-up *)

Lemma startup_interval fl args rd : interval (fst (startup fl args rd)) = interval fl.
Proof.
  unfold startup.
  destruct args as [|a args]; [|destruct (pattern fl =? "")%string]; simpl;
    match goal with
    | |- context [if ?c then _ else _] => destruct c
    end; reflexivity.
Qed.

(** X23: an interval that is zero or negative is refused before the
    terminal is touched: the only outputs are the error line on the
    standard error and the exit with status 1, with or without a
    positional pattern, and nothing is handled afterwards. *)
Theorem startup_rejects_interval fl (args : list string) (rd : Reading) :
  F64.leb (interval fl) F64.zero = true ->
  out (snd (startup fl args rd))
  = [Stderr ("Error: 간격은 0보다 커야 합니다" ++ LF); Exit 1] /\
  exited (snd (startup fl args rd)) = Some 1 /\
  forall trace,
    run (fst (startup fl args rd)) (snd (startup fl args rd)) trace
    = snd (startup fl args rd).
Proof.
  intros H.
  assert (S : snd (startup fl args rd)
              = emit [Stderr ("Error: 간격은 0보다 커야 합니다" ++ LF); Exit 1] initState).
  { unfold startup.
    destruct args as [|a args]; [|destruct (pattern fl =? "")%string]; simpl interval;
      rewrite H; reflexivity. }
  rewrite S. split; [reflexivity|]. split; [reflexivity|].
  intros trace. apply (run_ended _ _ trace 1). reflexivity.
Qed.

Lemma display_out_extends fl rd (pattern : string) (exactMatch firstRun : bool) st :
  exists frame,
    out (display fl rd pattern exactMatch firstRun st) = (out st ++ frame)%list.
Proof.
  destruct (getProcesses (procsRead rd) pattern exactMatch) as [procs|e] eqn:G.
  - destruct (exited st) as [c|] eqn:E.
    + destruct (display_success fl rd pattern exactMatch firstRun st procs G)
        as (os & st2 & D & _ & _ & _ & _ & _ & X & O).
      exists []. rewrite D, (emit_exited os st2 c), O, app_nil_r; congruence.
    + destruct (display_frame fl rd pattern exactMatch firstRun st procs G E) as (O & _).
      cbv zeta in O. eexists. exact O.
  - unfold display. rewrite G.
    destruct (exited st) as [c|] eqn:E.
    + exists []. rewrite (emit_exited _ st c E), app_nil_r. reflexivity.
    + destruct (emit_quiet [Print ("Error: " ++ e ++ LF)] st E eq_refl) as [O _].
      eexists. exact O.
Qed.

(** X24: an interval that passes the check but amounts to less than one
    nanosecond stops the program at the creation of the ticker, when no
    key or signal is handled before.  By then the console is in raw mode
    on the alternate screen and the first cycle has run: after a failed
    read its error line is on screen, after a successful one the whole
    first frame, the cleared screen, the header, one row for each record
    of the published snapshot and the footer.  The panic is the last
    output, the process ends on it, and the teardown never runs, so the
    console is not restored. *)
Theorem tiny_interval_panics fl (args : list string) (rd : Reading)
  (m : positive) (e : Z) :
  F64.leb (interval fl) F64.zero = false ->
  SFmul F64.prec F64.emax (interval fl) (F64.of_Z Duration.Second)
  = S754_finite false m e ->
  e < 0 -> Z.pos m < 2 ^ (- e) ->
  let fl' := fst (mainUntilTicker fl args rd) in
  let st := snd (mainUntilTicker fl args rd) in
  exited st = Some 2 /\
  teardownTrace st = [] /\
  (forall err,
      procsRead rd = Err err ->
      out st = [SetupConsole; EnableRawInput; Print (ESC ++ "[?1049h");
                Print ("Error: " ++ err ++ LF); Panic]) /\
  (forall procs,
      getProcesses (procsRead rd) (pattern fl') (exact fl') = Ok procs ->
      let snap := publishedSnapshot fl' procs in
      let cw := calcColWidths (fst (termSize rd)) in
      lastProcs st = snap /\
      out st
      = ([SetupConsole; EnableRawInput; Print (ESC ++ "[?1049h")]
         ++ [ClearScreen; MoveCursor 1 1]
         ++ (if negb (noHeader fl')
             then printHeader (since1 rd) (since2 rd) (pattern fl') (interval fl')
                    (Z.of_nat (List.length snap)) cw ++ [TableHeader cw]
             else [])
         ++ flat_map (fun p => [ProcessRow p cw; ClearLine]) snap
         ++ [ClearToEnd; Print LF;
             Print ("  " ++ ESC ++ "[90mp:pause  q:quit" ++ ESC ++ "[0m"); ClearLine]
         ++ [Panic])%list).
Proof.
  intros L M He Hm fl' st.
  assert (T : tickerPeriod (interval fl) = 0).
  { unfold tickerPeriod. rewrite M. unfold F64.to_int.
    replace (e <? 0) with true by (symmetry; apply Z.ltb_lt; lia).
    rewrite Z.div_small by lia. reflexivity. }
  assert (S : exists fl0,
             startup fl args rd
             = (fl0, display fl0 rd (pattern fl0) (exact fl0) true
                       (emit [SetupConsole; EnableRawInput; Print (ESC ++ "[?1049h")]
                          initState))
             /\ interval fl0 = interval fl).
  { unfold startup.
    destruct args as [|a args]; [|destruct (pattern fl =? "")%string];
      simpl interval; rewrite L; eexists; (split; [reflexivity|reflexivity]). }
  destruct S as (fl0 & S & I).
  set (st0 := emit [SetupConsole; EnableRawInput; Print (ESC ++ "[?1049h")] initState) in *.
  set (st1 := display fl0 rd (pattern fl0) (exact fl0) true st0) in *.
  assert (E0 : exited st0 = None) by reflexivity.
  assert (E1 : exited st1 = None) by (apply display_alive; reflexivity).
  assert (Sm : mainUntilTicker fl args rd = (fl0, emit1 Panic st1)).
  { unfold mainUntilTicker. rewrite S. cbv zeta. simpl fst. simpl snd.
    rewrite E1, I, T. change (0 <=? 0) with true. cbv iota.
    rewrite (emit_one Panic st1 E1). reflexivity. }
  assert (Fl : fl' = fl0) by (subst fl'; rewrite Sm; reflexivity).
  assert (St : st = emit1 Panic st1) by (subst st; rewrite Sm; reflexivity).
  rewrite Fl, St. clear Fl St.
  split; [reflexivity|]. split; [|split].
  - unfold teardownTrace. cbn [out emit1]. rewrite filter_app. simpl.
    rewrite app_nil_r.
    change (filter isTeardown (out st1)) with (teardownTrace st1).
    subst st1. unfold teardownTrace.
    rewrite display_filter by apply isTeardown_render. reflexivity.
  - intros err R. cbn [out emit1]. subst st1. unfold display.
    rewrite R. simpl getProcesses. reflexivity.
  - intros procs G snap cw.
    destruct (display_frame fl0 rd (pattern fl0) (exact fl0) true st0 procs G E0)
      as (O & _).
    cbv zeta in O. fold st1 in O. fold snap in O. fold cw in O.
    split.
    + cbn [lastProcs emit1]. subst st1. apply display_lastProcs. exact G.
    + cbn [out emit1]. rewrite O. simpl orb. cbv iota.
      change (out st0) with [SetupConsole; EnableRawInput; Print (ESC ++ "[?1049h")].
      rewrite <- !app_assoc. reflexivity.
Qed.

(** ** Further properties of the ordering *)

(** X7: sorting rearranges the records and does nothing else: for every
    key and direction the result holds the same records as often as the
    input, so it has the same length and the same members. *)
Theorem sortProcesses_rearranges (procs : list ProcessInfo) (sortBy : string)
  (desc : bool) :
  Permutation (sortProcesses procs sortBy desc) procs /\
  List.length (sortProcesses procs sortBy desc) = List.length procs /\
  (forall p, In p (sortProcesses procs sortBy desc) <-> In p procs).
Proof.
  pose proof (sort_Slice_perm (lessProcess sortBy desc) procs) as P.
  fold (sortProcesses procs sortBy desc) in P.
  split; [exact P|]. split; [apply Permutation_length; exact P|].
  intros p. split; intros H.
  - eapply Permutation_in; [exact P | exact H].
  - eapply Permutation_in; [apply Permutation_sym; exact P | exact H].
Qed.

(** X8: when no two records are tied under the key, the result is in the
    order asked for: every record stands, by the key's comparison, before
    all the records after it, ascending or descending. *)
Theorem sortProcesses_sorted (procs : list ProcessInfo) (sortBy : string)
  (desc : bool) :
  noTies (lessProcess sortBy false) procs = true ->
  StronglySorted (before (lessProcess sortBy false) desc)
    (sortProcesses procs sortBy desc).
Proof.
  intros H. rewrite sortProcesses_dir.
  apply sort_Slice_sorted; [apply lessProcess_trans | exact H].
Qed.

(** X9: when no two records are tied under the key, the order shown does
    not depend on the order the provider lists the processes in. *)
Theorem sortProcesses_arrival_order (procs procs' : list ProcessInfo)
  (sortBy : string) (desc : bool) :
  noTies (lessProcess sortBy false) procs = true ->
  Permutation procs' procs ->
  sortProcesses procs' sortBy desc = sortProcesses procs sortBy desc.
Proof.
  intros H P. rewrite !sortProcesses_dir.
  apply sort_Slice_of_perm;
    [apply lessProcess_irrefl | apply lessProcess_trans | exact H | exact P].
Qed.

Lemma StronglySorted_firstn_skipn {A : Type} (R : A -> A -> Prop) (n : nat)
  (l : list A) :
  StronglySorted R l ->
  forall a b, In a (firstn n l) -> In b (skipn n l) -> R a b.
Proof.
  intros S. revert n. induction S as [|x l S IH F]; intros n a b Ha Hb.
  - rewrite firstn_nil in Ha. destruct Ha.
  - destruct n as [|n]; simpl in Ha, Hb; [destruct Ha|].
    destruct Ha as [<-|Ha].
    + rewrite Forall_forall in F. apply F.
      rewrite <- (firstn_skipn n l). apply in_or_app. right. exact Hb.
    + apply (IH n a b Ha Hb).
Qed.

Lemma In_firstn_or_skipn {A : Type} (n : nat) (l : list A) (a : A) :
  In a l -> In a (firstn n l) \/ In a (skipn n l).
Proof.
  intros H. rewrite <- (firstn_skipn n l) in H. apply in_app_or. exact H.
Qed.

(** X10: the cap keeps the top of the list: when no two collected records
    are tied under the sort key and the cap is positive, every record of
    the published snapshot stands, in the order asked for, before every
    collected record left out of it. *)
Theorem display_topN_keeps_top fl rd (pattern : string)
  (exactMatch firstRun : bool) (st : State) (procs : list ProcessInfo) :
  getProcesses (procsRead rd) pattern exactMatch = Ok procs ->
  noTies (lessProcess (sortBy fl) false) procs = true ->
  0 < topN fl ->
  let snap := lastProcs (display fl rd pattern exactMatch firstRun st) in
  forall a b, In a snap -> In b procs -> ~ In b snap ->
              before (lessProcess (sortBy fl) false) (descOrder fl) a b.
Proof.
  intros G T N snap a b Ha Hb Hn.
  assert (S : snap = publishedSnapshot fl procs).
  { subst snap. apply display_lastProcs. exact G. }
  assert (Sd : StronglySorted (before (lessProcess (sortBy fl) false) (descOrder fl))
                 (sortProcesses procs (sortBy fl) (descOrder fl))).
  { rewrite sortProcesses_dir.
    apply sort_Slice_sorted; [apply lessProcess_trans | exact T]. }
  assert (Hb' : In b (sortProcesses procs (sortBy fl) (descOrder fl))).
  { eapply Permutation_in; [apply Permutation_sym, sortProcesses_perm | exact Hb]. }
  rewrite S in Ha, Hn. unfold publishedSnapshot in Ha, Hn.
  destruct ((topN fl >? 0)
            && (Z.of_nat (List.length (sortProcesses procs (sortBy fl) (descOrder fl)))
                >? topN fl)).
  - destruct (In_firstn_or_skipn (Z.to_nat (topN fl)) _ b Hb') as [H|H];
      [contradiction|].
    eapply StronglySorted_firstn_skipn; eauto.
  - contradiction.
Qed.

(** ** Elapsed times: the float detour of [Hours], [Minutes], [Seconds] *)

Lemma Zdigits2_mul_pow2 (m d : Z) :
  0 < m -> 0 <= d -> Zdigits2 (m * 2 ^ d) = Zdigits2 m + d.
Proof.
  intros Hm Hd.
  assert (0 < 2 ^ d) by (apply Z.pow_pos_nonneg; lia).
  rewrite !Zdigits2_log2 by nia.
  rewrite Z.log2_mul_pow2 by lia. lia.
Qed.

Lemma Zdigits2_lower (m : Z) : 0 < m -> 2 ^ (Zdigits2 m - 1) <= m.
Proof.
  intros Hm. rewrite Zdigits2_log2 by lia.
  replace (Z.log2 m + 1 - 1) with (Z.log2 m) by lia.
  apply Z.log2_spec. lia.
Qed.

(** The rounding of a positive magnitude above the subnormal range: the
    exponent rises by what the 53 bits ask for, and the mantissa is the
    quotient or the one above it. *)
Lemma binary_round_aux_value (m e : Z) (l : location) :
  0 < m -> -1074 <= e -> Z.max e (Zdigits2 m + e - 52) <= 971 ->
  exists m' e',
    binary_round_aux F64.prec F64.emax false m e l = S754_finite false m' e' /\
    e <= e' <= Z.max e (Zdigits2 m + e - 52) /\
    m / 2 ^ (e' - e) <= Z.pos m' <= m / 2 ^ (e' - e) + 1.
Proof.
  intros Hm He Hov. unfold binary_round_aux.
  destruct (shr_fexp_spec m e l) as (E1 & M1 & P1); [lia|].
  destruct (shr_fexp F64.prec F64.emax m e l) as [mrs1 e1].
  simpl fst in *. simpl snd in *.
  set (mr := round_nearest_even (shr_m mrs1) (loc_of_shr_record mrs1)).
  pose proof (round_nearest_even_bounds (shr_m mrs1) (loc_of_shr_record mrs1)) as Hr.
  fold mr in Hr.
  rewrite fexp_F64 in E1, M1.
  pose proof (Zdigits2_bound m ltac:(lia)) as Hub.
  pose proof (Zdigits2_lower m Hm) as Hlb.
  pose proof (Zdigits2_nonneg m) as Hd0.
  assert (Hd1 : 1 <= Zdigits2 m).
  { rewrite Zdigits2_log2 by lia. pose proof (Z.log2_nonneg m). lia. }
  set (s1 := e1 - e) in *.
  assert (Hs1 : 0 <= s1) by lia.
  assert (Hp1 : 0 < 2 ^ s1) by (apply Z.pow_pos_nonneg; lia).
  (* the first quotient is positive and below 2^53 *)
  assert (Hq1 : s1 <> 0 /\ 1 <= shr_m mrs1 /\ shr_m mrs1 < 2 ^ 53 \/
                s1 = 0 /\ shr_m mrs1 = m).
  { destruct (Z.eq_dec s1 0) as [Z0|NZ].
    - right. split; [exact Z0|]. rewrite M1.
      replace (Z.max e (Z.max (Zdigits2 m + e - 53) (-1074)) - e) with 0 by lia.
      apply Z.div_1_r.
    - left.
      assert (Es : s1 = Zdigits2 m - 53) by lia.
      rewrite M1.
      replace (Z.max e (Z.max (Zdigits2 m + e - 53) (-1074)) - e) with s1 by lia.
      split; [exact NZ|]. split.
      + apply Z.div_le_lower_bound; [lia|].
        replace (Zdigits2 m - 1) with (s1 + 52) in Hlb by lia.
        rewrite Z.pow_add_r in Hlb by lia.
        assert (1 <= 2 ^ 52) by (vm_compute; discriminate). nia.
      + apply Z.div_lt_upper_bound; [lia|].
        replace (Zdigits2 m) with (s1 + 53) in Hub by lia.
        rewrite Z.pow_add_r in Hub by lia. lia. }
  assert (Hmr0 : 1 <= mr) by lia.
  assert (Hdr : Zdigits2 mr <= Z.max 54 (Zdigits2 m + 1)
                /\ (s1 <> 0 -> Zdigits2 mr <= 54)
                /\ (s1 = 0 -> Zdigits2 mr <= Zdigits2 m + 1)).
  { destruct Hq1 as [[NZ [_ Hq]]|[Z0 Hq]].
    - assert (Zdigits2 mr <= 54).
      { apply Zdigits2_le; lia. }
      repeat split; lia.
    - assert (Zdigits2 mr <= Zdigits2 m + 1).
      { apply Zdigits2_le; try lia.
        rewrite Z.pow_add_r by lia. lia. }
      repeat split; lia. }
  destruct (shr_fexp_spec mr e1 loc_Exact) as (E2 & M2 & P2); [lia|].
  destruct (shr_fexp F64.prec F64.emax mr e1 loc_Exact) as [mrs2 e2].
  simpl fst in *. simpl snd in *.
  rewrite fexp_F64 in E2, M2.
  set (s2 := e2 - e1) in *.
  assert (Hs2 : 0 <= s2 <= 1).
  { destruct Hdr as (_ & Ha & Hb).
    destruct (Z.eq_dec s1 0) as [Z0|NZ]; [specialize (Hb Z0)|specialize (Ha NZ)]; lia. }
  assert (He2 : e <= e2 <= Z.max e (Zdigits2 m + e - 52)).
  { destruct Hdr as (_ & Ha & Hb).
    destruct (Z.eq_dec s1 0) as [Z0|NZ]; [specialize (Hb Z0)|specialize (Ha NZ)]; lia. }
  replace (Z.max e1 (Z.max (Zdigits2 mr + e1 - 53) (-1074)) - e1) with s2 in M2 by lia.
  assert (Hp2 : 0 < 2 ^ s2) by (apply Z.pow_pos_nonneg; lia).
  assert (Hm2 : 1 <= shr_m mrs2).
  { rewrite M2. destruct (Z.eq_dec s2 0) as [Z0|NZ].
    - rewrite Z0. rewrite Z.div_1_r. lia.
    - assert (Es : s2 = 1) by lia. rewrite Es. change (2 ^ 1) with 2.
      assert (Hdd : Zdigits2 mr = 54 \/ 54 < Zdigits2 mr) by lia.
      pose proof (Zdigits2_lower mr ltac:(lia)) as Hl.
      assert (2 ^ 53 <= mr).
      { eapply Z.le_trans; [|exact Hl]. apply Z.pow_le_mono_r; lia. }
      apply Z.div_le_lower_bound; [lia|].
      assert (2 <= 2 ^ 53) by (vm_compute; discriminate). lia. }
  destruct (shr_m mrs2) as [|p|p] eqn:Em; try lia.
  exists p, e2.
  replace (e2 <=? F64.emax - F64.prec) with true
    by (symmetry; apply Z.leb_le; unfold F64.emax, F64.prec; lia).
  split; [reflexivity|]. split; [exact He2|].
  replace (e2 - e) with (s1 + s2) by lia.
  rewrite Z.pow_add_r by lia.
  rewrite <- Z.div_div by lia.
  assert (Hq : shr_m mrs1 = m / 2 ^ s1).
  { rewrite M1. f_equal. f_equal. lia. }
  rewrite <- Hq. rewrite M2.
  split.
  - apply Z.div_le_mono; lia.
  - apply Z.le_trans with ((shr_m mrs1 + 1) / 2 ^ s2).
    + apply Z.div_le_mono; lia.
    + destruct (Z.eq_dec s2 0) as [Z0|NZ].
      * rewrite Z0. rewrite !Z.div_1_r. lia.
      * assert (Es : s2 = 1) by lia. rewrite Es. change (2 ^ 1) with 2.
        pose proof (Z.div_mod (shr_m mrs1) 2 ltac:(lia)).
        pose proof (Z.mod_pos_bound (shr_m mrs1) 2 ltac:(lia)).
        apply Z.div_le_upper_bound; lia.
Qed.

(** A mantissa that fits the 53 bits at its exponent is kept as it is. *)
Lemma binary_round_aux_exact (p : positive) (e : Z) :
  Z.max (Zdigits2 (Z.pos p) + e - 53) (-1074) <= e -> e <= 971 ->
  binary_round_aux F64.prec F64.emax false (Z.pos p) e loc_Exact
  = S754_finite false p e.
Proof.
  intros Hfit He.
  assert (S : shr_fexp F64.prec F64.emax (Z.pos p) e loc_Exact
              = ({| shr_m := Z.pos p; shr_r := false; shr_s := false |}, e)).
  { unfold shr_fexp, shr. rewrite fexp_F64.
    destruct (Z.max (Zdigits2 (Z.pos p) + e - 53) (-1074) - e) as [|q|q] eqn:E;
      try reflexivity.
    pose proof (Pos2Z.is_pos q). lia. }
  unfold binary_round_aux. rewrite S.
  cbn [shr_m loc_of_shr_record round_nearest_even].
  rewrite S. cbn [shr_m].
  replace (e <=? F64.emax - F64.prec) with true
    by (symmetry; apply Z.leb_le; unfold F64.emax, F64.prec; lia).
  reflexivity.
Qed.

(** [float64(n)] is exact below [2^53]. *)
Lemma of_Z_exact (n : Z) :
  0 < n < 2 ^ 53 ->
  exists m e, F64.of_Z n = S754_finite false m e /\
              -52 <= e <= 0 /\ Z.pos m = n * 2 ^ (- e).
Proof.
  intros Hn. destruct n as [|p|p]; try lia.
  unfold F64.of_Z, binary_normalize, binary_round, shl_align.
  change (Z.pos (digits2_pos p)) with (Zdigits2 (Z.pos p)).
  assert (Hd : 1 <= Zdigits2 (Z.pos p) <= 53).
  { split.
    - rewrite Zdigits2_log2 by lia. pose proof (Z.log2_nonneg (Z.pos p)). lia.
    - apply Zdigits2_le; lia. }
  rewrite fexp_F64.
  destruct (Z.max (Zdigits2 (Z.pos p) + 0 - 53) (-1074) - 0) as [|q|q] eqn:Ed.
  - exists p, 0. rewrite binary_round_aux_exact by lia.
    split; [reflexivity|]. split; [lia|]. simpl. lia.
  - pose proof (Pos2Z.is_pos q). lia.
  - set (ez := Z.max (Zdigits2 (Z.pos p) + 0 - 53) (-1074)) in *.
    assert (Eq : Z.pos q = - ez) by lia.
    assert (Hmz : Z.pos (Pos.iter xO p q) = Z.pos p * 2 ^ (- ez)).
    { rewrite Pos_iter_xO, Eq. reflexivity. }
    exists (Pos.iter xO p q), ez.
    rewrite binary_round_aux_exact.
    + split; [reflexivity|]. split; [lia|]. exact Hmz.
    + rewrite Hmz, Zdigits2_mul_pow2 by lia. lia.
    + lia.
Qed.

(** The alignment of [SFadd]: a shift to a lower exponent multiplies the
    mantissa. *)
Lemma shl_align_value (m : positive) (e e' : Z) :
  e' <= e -> Z.pos (fst (shl_align m e e')) = Z.pos m * 2 ^ (e - e').
Proof.
  intros H. unfold shl_align.
  destruct (e' - e) as [|q|q] eqn:E; simpl fst.
  - replace (e - e') with 0 by lia. simpl. lia.
  - pose proof (Pos2Z.is_pos q). lia.
  - rewrite Pos_iter_xO. f_equal. f_equal. lia.
Qed.

(** The normalisation of a positive magnitude [M * 2^e]: at some
    exponent [ez] at most [e] the magnitude is [mz * 2^ez], and the
    result holds the quotient of [mz], or the one above it, at an
    exponent that the 53 bits bound. *)
Lemma binary_normalize_value (M e : Z) :
  0 < M -> -1074 <= e -> Zdigits2 M + e <= 1000 -> e <= 900 ->
  exists m' e' ez,
    binary_normalize F64.prec F64.emax M e false = S754_finite false m' e' /\
    ez <= e /\ ez <= e' <= Z.max e (Zdigits2 M + e - 52) /\
    M * 2 ^ (e - ez) / 2 ^ (e' - ez) <= Z.pos m'
    <= M * 2 ^ (e - ez) / 2 ^ (e' - ez) + 1.
Proof.
  intros HM He Hov He9. destruct M as [|p|p]; try lia.
  unfold binary_normalize, binary_round, shl_align.
  change (Z.pos (digits2_pos p)) with (Zdigits2 (Z.pos p)).
  rewrite fexp_F64.
  destruct (Z.max (Zdigits2 (Z.pos p) + e - 53) (-1074) - e) as [|q|q] eqn:Ed.
  - destruct (binary_round_aux_value (Z.pos p) e loc_Exact) as (m' & e' & R & B & S);
      try lia.
    exists m', e', e. rewrite R. split; [reflexivity|].
    replace (e - e) with 0 by lia. rewrite Z.mul_1_r.
    repeat split; lia.
  - destruct (binary_round_aux_value (Z.pos p) e loc_Exact) as (m' & e' & R & B & S);
      try lia.
    exists m', e', e. rewrite R. split; [reflexivity|].
    replace (e - e) with 0 by lia. rewrite Z.mul_1_r.
    repeat split; lia.
  - set (ez := Z.max (Zdigits2 (Z.pos p) + e - 53) (-1074)) in *.
    assert (Eq : Z.pos q = e - ez) by lia.
    assert (Hmz : Z.pos (Pos.iter xO p q) = Z.pos p * 2 ^ (e - ez)).
    { rewrite Pos_iter_xO, Eq. reflexivity. }
    assert (Hdz : Zdigits2 (Z.pos (Pos.iter xO p q)) = Zdigits2 (Z.pos p) + (e - ez)).
    { rewrite Hmz. apply Zdigits2_mul_pow2; lia. }
    destruct (binary_round_aux_value (Z.pos (Pos.iter xO p q)) ez loc_Exact)
      as (m' & e' & R & B & S); try lia.
    exists m', e', ez. rewrite R. split; [reflexivity|].
    rewrite <- Hmz. repeat split; lia.
Qed.

Lemma smallFrac_finite (m : positive) (e : Z) :
  smallFrac (S754_finite false m e) = true ->
  -1074 <= e <= -53 /\ Z.pos m * 4096 <= 4095 * 2 ^ (- e).
Proof.
  unfold smallFrac. rewrite !andb_true_iff, !Z.leb_le. lia.
Qed.

(** An integer below [2^34] plus such a fraction, added in [float64] and
    converted back, is the integer: the sum is rounded at a grain far
    below the distance of the fraction from one. *)
Lemma add_frac_to_int (n : Z) (q : spec_float) :
  0 <= n < 2 ^ 34 -> smallFrac q = true ->
  F64.to_int (F64.add (F64.of_Z n) q) = n.
Proof.
  intros Hn Hq.
  destruct (Z.eq_dec n 0) as [->|Hnz].
  - change (F64.of_Z 0) with (S754_zero false).
    destruct q as [[|]|[|]| |[|] m e]; try discriminate Hq; try reflexivity.
    apply smallFrac_finite in Hq. destruct Hq as [He Hm].
    unfold F64.add, SFadd, F64.to_int.
    replace (e <? 0) with true by (symmetry; apply Z.ltb_lt; lia).
    assert (0 < 2 ^ (- e)) by (apply Z.pow_pos_nonneg; lia).
    rewrite Z.div_small by lia. reflexivity.
  - destruct (of_Z_exact n) as (mh & eh & Eh & Hb & Hv).
    { split; [lia|]. apply Z.lt_trans with (2 ^ 34); [lia|].
      apply Z.pow_lt_mono_r; lia. }
    rewrite Eh.
    assert (Hr : GoInt.in_range n).
    { unfold GoInt.in_range, GoInt.min_int, GoInt.max_int.
      assert (2 ^ 34 < 2 ^ 63) by (apply Z.pow_lt_mono_r; lia).
      assert (0 < 2 ^ 63) by (apply Z.pow_pos_nonneg; lia). lia. }
    destruct q as [[|]|[|]| |[|] mq eq]; try discriminate Hq.
    + unfold F64.add, SFadd, F64.to_int.
      destruct (eh <? 0) eqn:El.
      * rewrite Hv, Z.div_mul by (apply Z.pow_nonzero; lia).
        apply wrap_id. exact Hr.
      * apply Z.ltb_ge in El. replace eh with 0 in * by lia.
        simpl in Hv. rewrite Hv. simpl. rewrite Z.mul_1_r, Z.mul_1_r.
        apply wrap_id. exact Hr.
    + apply smallFrac_finite in Hq. destruct Hq as [He Hm].
      unfold F64.add, SFadd. cbv zeta.
      replace (Z.min eh eq) with eq by lia.
      rewrite !shl_align_value by lia.
      cbn [cond_Zopp].
      replace (eq - eq) with 0 by lia. rewrite Z.pow_0_r, Z.mul_1_r.
      set (P := 2 ^ (- eq)) in *.
      assert (HP : 0 < P) by (apply Z.pow_pos_nonneg; lia).
      assert (EM : Z.pos mh * 2 ^ (eh - eq) = n * P).
      { rewrite Hv. unfold P. rewrite <- Z.mul_assoc, <- Z.pow_add_r by lia.
        f_equal. f_equal. lia. }
      rewrite EM.
      set (M := n * P + Z.pos mq).
      assert (HM : 0 < M) by (unfold M; nia).
      assert (HMlt : M < 2 ^ (34 - eq)).
      { replace (34 - eq) with (34 + - eq) by lia.
        rewrite Z.pow_add_r by lia. fold P. unfold M. nia. }
      assert (Hdig : Zdigits2 M <= 34 - eq) by (apply Zdigits2_le; lia).
      destruct (binary_normalize_value M eq) as (m' & e' & ez & R & Hez & He' & Hs);
        try lia.
      rewrite R. unfold F64.to_int.
      assert (He'n : e' <= -18) by lia.
      replace (e' <? 0) with true by (symmetry; apply Z.ltb_lt; lia).
      set (C := 2 ^ (eq - ez)) in *.
      set (B := 2 ^ (e' - ez)) in *.
      set (E := 2 ^ (- e')).
      assert (HC : 0 < C) by (apply Z.pow_pos_nonneg; lia).
      assert (HB : 0 < B) by (apply Z.pow_pos_nonneg; lia).
      assert (HE : 8192 <= E).
      { change 8192 with (2 ^ 13). apply Z.pow_le_mono_r; lia. }
      assert (HPC : P * C = B * E).
      { unfold P, C, B, E. rewrite <- !Z.pow_add_r by lia. f_equal. lia. }
      assert (Hlow : n * E <= M * C / B).
      { apply Z.div_le_lower_bound; [lia|]. unfold M. nia. }
      assert (Hup : M * C / B < (n + 1) * E - 1).
      { apply Z.div_lt_upper_bound; [lia|]. unfold M. nia. }
      assert (Hdiv : Z.pos m' / E = n).
      { symmetry. apply Z.div_unique with (Z.pos m' - n * E); lia. }
      rewrite Hdiv. apply wrap_id. exact Hr.
Qed.

(** The fractions of an hour and of a minute that a whole number of
    seconds leaves: each of the 3600 and of the 60 quotients is evaluated. *)
Lemma hour_fractions (k : Z) :
  0 <= k < 3600 ->
  smallFrac (F64.div (F64.of_Z (k * 1000000000))
               (F64.of_Z (60 * 60 * 1000000000))) = true.
Proof.
  intros Hk.
  apply (Zrange_forallb
           (fun k => smallFrac (F64.div (F64.of_Z (k * 1000000000))
                                  (F64.of_Z (60 * 60 * 1000000000)))) 0 3600).
  - vm_compute. reflexivity.
  - lia.
Qed.

Lemma minute_fractions (k : Z) :
  0 <= k < 60 ->
  smallFrac (F64.div (F64.of_Z (k * 1000000000))
               (F64.of_Z (60 * 1000000000))) = true.
Proof.
  intros Hk.
  apply (Zrange_forallb
           (fun k => smallFrac (F64.div (F64.of_Z (k * 1000000000))
                                  (F64.of_Z (60 * 1000000000)))) 0 60).
  - vm_compute. reflexivity.
  - lia.
Qed.

Lemma whole_seconds_bound (S : Z) :
  0 <= S * Duration.Second <= GoInt.max_int -> 0 <= S < 2 ^ 34.
Proof.
  unfold Duration.Second, GoInt.max_int.
  change (2 ^ 63 - 1) with 9223372036854775807.
  change (2 ^ 34) with 17179869184. lia.
Qed.

(** [int(d.Hours())], [int(d.Minutes())] and [int(d.Seconds())] of a
    whole number of seconds. *)
Lemma Hours_to_int (S : Z) :
  0 <= S * Duration.Second <= GoInt.max_int ->
  F64.to_int (Duration.Hours (S * Duration.Second)) = S / 3600.
Proof.
  intros H. pose proof (whole_seconds_bound S H) as HS.
  unfold Duration.Hours. cbv zeta.
  assert (Q : Z.quot (S * Duration.Second) Duration.Hour = S / 3600).
  { rewrite Z.quot_div_nonneg by (unfold Duration.Hour, Duration.Minute, Duration.Second; lia).
    change Duration.Hour with (3600 * Duration.Second).
    apply Z.div_mul_cancel_r; unfold Duration.Second; lia. }
  assert (R : Z.rem (S * Duration.Second) Duration.Hour = (S mod 3600) * 1000000000).
  { rewrite Z.rem_mod_nonneg by (unfold Duration.Hour, Duration.Minute, Duration.Second; lia).
    change Duration.Hour with (3600 * Duration.Second).
    rewrite Z.mul_mod_distr_r by (unfold Duration.Second; lia). reflexivity. }
  rewrite Q, R.
  apply add_frac_to_int.
  - assert (0 <= S / 3600 <= S).
    { split; [apply Z.div_pos; lia|]. apply Z.div_le_upper_bound; lia. }
    lia.
  - apply hour_fractions. apply Z.mod_pos_bound. lia.
Qed.

Lemma Minutes_to_int (S : Z) :
  0 <= S * Duration.Second <= GoInt.max_int ->
  F64.to_int (Duration.Minutes (S * Duration.Second)) = S / 60.
Proof.
  intros H. pose proof (whole_seconds_bound S H) as HS.
  unfold Duration.Minutes. cbv zeta.
  assert (Q : Z.quot (S * Duration.Second) Duration.Minute = S / 60).
  { rewrite Z.quot_div_nonneg by (unfold Duration.Minute, Duration.Second; lia).
    change Duration.Minute with (60 * Duration.Second).
    apply Z.div_mul_cancel_r; unfold Duration.Second; lia. }
  assert (R : Z.rem (S * Duration.Second) Duration.Minute = (S mod 60) * 1000000000).
  { rewrite Z.rem_mod_nonneg by (unfold Duration.Minute, Duration.Second; lia).
    change Duration.Minute with (60 * Duration.Second).
    rewrite Z.mul_mod_distr_r by (unfold Duration.Second; lia). reflexivity. }
  rewrite Q, R.
  apply add_frac_to_int.
  - assert (0 <= S / 60 <= S).
    { split; [apply Z.div_pos; lia|]. apply Z.div_le_upper_bound; lia. }
    lia.
  - apply minute_fractions. apply Z.mod_pos_bound. lia.
Qed.

Lemma Seconds_to_int (S : Z) :
  0 <= S * Duration.Second <= GoInt.max_int ->
  F64.to_int (Duration.Seconds (S * Duration.Second)) = S.
Proof.
  intros H. pose proof (whole_seconds_bound S H) as HS.
  unfold Duration.Seconds. cbv zeta.
  assert (Q : Z.quot (S * Duration.Second) Duration.Second = S).
  { rewrite Z.quot_div_nonneg by (unfold Duration.Second; lia).
    apply Z.div_mul. unfold Duration.Second. lia. }
  assert (R : Z.rem (S * Duration.Second) Duration.Second = 0).
  { rewrite Z.rem_mod_nonneg by (unfold Duration.Second; lia).
    apply Z.mod_mul. unfold Duration.Second. lia. }
  rewrite Q, R.
  apply add_frac_to_int; [exact HS | reflexivity].
Qed.

(** Truncation to the second of a duration that is not negative. *)
Lemma Truncate_Second (d : Z) :
  0 <= d <= GoInt.max_int ->
  Duration.Truncate d Duration.Second = d / Duration.Second * Duration.Second /\
  0 <= d / Duration.Second * Duration.Second <= GoInt.max_int.
Proof.
  intros H. unfold Duration.Truncate.
  assert (HS : 0 < Duration.Second) by (unfold Duration.Second; lia).
  replace (Duration.Second <=? 0) with false by (symmetry; apply Z.leb_gt; exact HS).
  rewrite Z.rem_mod_nonneg by lia.
  pose proof (Z.div_mod d Duration.Second ltac:(lia)) as E.
  pose proof (Z.mod_pos_bound d Duration.Second HS) as B.
  assert (0 <= d / Duration.Second) by (apply Z.div_pos; lia).
  assert (R : 0 <= d / Duration.Second * Duration.Second <= GoInt.max_int) by nia.
  split; [|exact R].
  unfold GoInt.sub. rewrite wrap_id.
  - lia.
  - unfold GoInt.in_range, GoInt.min_int. unfold GoInt.max_int in *. lia.
Qed.

Lemma elapsed_parts (d : Z) :
  0 <= d <= GoInt.max_int ->
  let t := Duration.Truncate d Duration.Second in
  let S := d / Duration.Second in
  F64.to_int (Duration.Hours t) = S / 3600 /\
  Z.rem (F64.to_int (Duration.Minutes t)) 60 = (S / 60) mod 60 /\
  Z.rem (F64.to_int (Duration.Seconds t)) 60 = S mod 60 /\
  S = S / 3600 * 3600 + (S / 60) mod 60 * 60 + S mod 60.
Proof.
  intros H t S.
  destruct (Truncate_Second d H) as [E B]. subst t. rewrite E. fold S in B |- *.
  assert (HS : 0 <= S).
  { unfold S. apply Z.div_pos; [lia | unfold Duration.Second; lia]. }
  rewrite Hours_to_int, Minutes_to_int, Seconds_to_int by exact B.
  assert (0 <= S / 60) by (apply Z.div_pos; lia).
  rewrite !Z.rem_mod_nonneg by lia.
  repeat split.
  pose proof (Z.div_mod S 60 ltac:(lia)).
  pose proof (Z.div_mod (S / 60) 60 ltac:(lia)).
  replace (S / 3600) with (S / 60 / 60) by (rewrite Z.div_div by lia; reflexivity).
  lia.
Qed.

(** X25: the elapsed time of the title is exact. For every duration that
    is not negative, the detour through [float64] of [Hours], [Minutes]
    and [Seconds] loses nothing: with [S] the whole seconds of the
    duration, the text shows [S / 3600] hours, [(S / 60) mod 60] minutes
    and [S mod 60] seconds, which add up to [S]; hours and minutes are
    left out while they are zero. *)
Theorem formatElapsed_exact (d : Z) :
  0 <= d <= GoInt.max_int ->
  let S := d / Duration.Second in
  let h := S / 3600 in
  let m := (S / 60) mod 60 in
  let s := S mod 60 in
  S = h * 3600 + m * 60 + s /\
  formatElapsed d
  = if h >? 0 then fmt_d h ++ "h" ++ fmt_02d m ++ "m" ++ fmt_02d s ++ "s"
    else if m >? 0 then fmt_d m ++ "m" ++ fmt_02d s ++ "s"
    else fmt_d s ++ "s".
Proof.
  intros H S h m s.
  destruct (elapsed_parts d H) as (Eh & Em & Es & Sum).
  split; [exact Sum|].
  unfold formatElapsed. cbv zeta. rewrite Eh, Em, Es. reflexivity.
Qed.

Lemma formatElapsed_exact_witness :
  formatElapsed 3725500000000 = "1h02m05s".
Proof.
  assert (H : 0 <= 3725500000000 <= GoInt.max_int).
  { unfold GoInt.max_int. lia. }
  exact (proj2 (formatElapsed_exact 3725500000000 H)).
Defined.

(** X26: the short elapsed time is exact as well: [S / 3600] hours and
    [(S / 60) mod 60] minutes from one hour on, without the seconds;
    minutes and seconds below one hour; the seconds alone below one
    minute. *)
Theorem formatElapsedShort_exact (d : Z) :
  0 <= d <= GoInt.max_int ->
  let S := d / Duration.Second in
  let h := S / 3600 in
  let m := (S / 60) mod 60 in
  let s := S mod 60 in
  formatElapsedShort d
  = if h >? 0 then fmt_d h ++ "h" ++ fmt_02d m ++ "m"
    else if m >? 0 then fmt_d m ++ "m" ++ fmt_02d s ++ "s"
    else fmt_d s ++ "s".
Proof.
  intros H S h m s.
  destruct (elapsed_parts d H) as (Eh & Em & Es & _).
  unfold formatElapsedShort. cbv zeta. rewrite Eh, Em, Es. reflexivity.
Qed.

Lemma formatElapsedShort_exact_witness :
  formatElapsedShort 3725500000000 = "1h02m".
Proof.
  assert (H : 0 <= 3725500000000 <= GoInt.max_int).
  { unfold GoInt.max_int. lia. }
  exact (formatElapsedShort_exact 3725500000000 H).
Defined.

Lemma string_append_assoc (a b c : string) : ((a ++ b) ++ c = a ++ b ++ c)%string.
Proof. induction a as [|x a IH]; simpl; [reflexivity | rewrite IH; reflexivity]. Qed.

Lemma string_append_nil (a : string) : (a ++ "" = a)%string.
Proof. induction a as [|x a IH]; simpl; [reflexivity | rewrite IH; reflexivity]. Qed.

Lemma len_append (a b : string) : len (a ++ b) = len a + len b.
Proof.
  unfold len.
  assert (E : String.length (a ++ b) = (String.length a + String.length b)%nat).
  { induction a as [|c a IH]; simpl; [reflexivity | rewrite IH; reflexivity]. }
  rewrite E. lia.
Qed.

(** X27: the short elapsed time is the beginning of the full one, for
    every duration: the two differ only from one hour on, where the short
    one drops the seconds; so the short one is never the longer. *)
Theorem formatElapsedShort_prefix (d : Z) :
  exists rest,
    formatElapsed d = formatElapsedShort d ++ rest /\
    len (formatElapsedShort d) <= len (formatElapsed d) /\
    (F64.to_int (Duration.Hours (Duration.Truncate d Duration.Second)) <= 0 ->
     rest = "").
Proof.
  unfold formatElapsed, formatElapsedShort. cbv zeta.
  set (h := F64.to_int (Duration.Hours (Duration.Truncate d Duration.Second))).
  set (m := Z.rem (F64.to_int (Duration.Minutes (Duration.Truncate d Duration.Second))) 60).
  set (s := Z.rem (F64.to_int (Duration.Seconds (Duration.Truncate d Duration.Second))) 60).
  destruct (h >? 0) eqn:Eh.
  - exists (fmt_02d s ++ "s").
    assert (E : fmt_d h ++ "h" ++ fmt_02d m ++ "m" ++ fmt_02d s ++ "s"
                = (fmt_d h ++ "h" ++ fmt_02d m ++ "m") ++ fmt_02d s ++ "s").
    { rewrite !string_append_assoc. reflexivity. }
    split; [exact E|]. split.
    + rewrite E.
      rewrite (len_append (fmt_d h ++ "h" ++ fmt_02d m ++ "m") (fmt_02d s ++ "s")).
      assert (0 <= len (fmt_02d s ++ "s")) by (unfold len; lia). lia.
    + intros Hh. apply Z.gtb_lt in Eh. lia.
  - exists "". rewrite string_append_nil.
    destruct (m >? 0); repeat split; lia.
Qed.

(** ** The table header *)

Lemma len_spaces (n : Z) : 0 <= n -> len (spaces n) = n.
Proof.
  intros H. unfold len, spaces.
  assert (E : forall k, String.length (repeat_string " " k) = k).
  { induction k as [|k IH]; simpl; [reflexivity | rewrite IH; reflexivity]. }
  rewrite E. lia.
Qed.

Lemma len_fmt_s_left (w : Z) (s : string) : len s <= w -> len (fmt_s_left w s) = w.
Proof.
  intros H. unfold fmt_s_left. rewrite len_append, len_spaces by lia. lia.
Qed.

Lemma len_fmt_s_right (w : Z) (s : string) : len s <= w -> len (fmt_s_right w s) = w.
Proof.
  intros H. unfold fmt_s_right. rewrite len_append, len_spaces by lia. lia.
Qed.

Lemma len_fmt_s_left_star (w : Z) (s : string) :
  len s <= w <= 1000000 -> len (fmt_s_left_star w s) = w.
Proof.
  intros H. unfold fmt_s_left_star.
  assert (0 <= len s) by (unfold len; lia).
  replace (w >? 1000000) with false
    by (symmetry; rewrite Z.gtb_ltb; apply Z.ltb_ge; lia).
  replace (w <? -1000000) with false by (symmetry; apply Z.ltb_ge; lia).
  simpl orb. cbv iota. rewrite Z.abs_eq by lia. apply len_fmt_s_left. lia.
Qed.

(** The header line between its two colour codes, for a layout whose
    columns hold their labels. *)
Lemma printTableHeader_line (cw : colWidths) :
  4 <= name cw <= 1000000 -> 7 <= created cw <= 1000000 -> 4 <= user cw <= 1000000 ->
  exists line,
    printTableHeader cw = ESC ++ "[1;37m" ++ line ++ ESC ++ "[0m" ++ LF /\
    len line = layoutSum cw.
Proof.
  intros Hn Hc Hu.
  exists (fmt_s_left 8 "PID" ++ " " ++ fmt_s_left_star (name cw) "NAME" ++ " "
          ++ fmt_s_right 8 "CPU%" ++ " " ++ fmt_s_right 8 "MEM%" ++ "  "
          ++ fmt_s_left 10 "MEM" ++ " " ++ fmt_s_left_star (created cw) "CREATED" ++ " "
          ++ fmt_s_left 8 "UPTIME" ++ " " ++ fmt_s_left_star (user cw) "USER" ++ " "
          ++ fmt_s_left 8 "STATUS").
  split.
  - unfold printTableHeader. rewrite !string_append_assoc. reflexivity.
  - rewrite !len_append.
    rewrite !len_fmt_s_left, !len_fmt_s_right by (vm_compute; discriminate).
    rewrite !len_fmt_s_left_star
      by (split; [eapply Z.le_trans; [|apply Hn || apply Hc || apply Hu];
                  vm_compute; discriminate | lia]).
    unfold layoutSum, fixedWidth.
    change (len " ") with 1. change (len "  ") with 2. lia.
Qed.

Lemma printTableHeader_width_of (W : Z) (cw : colWidths) :
  W <= 1000000 -> layoutSum cw = Z.max W 90 ->
  12 <= name cw <= 30 -> 10 <= created cw <= 20 -> 8 <= user cw ->
  exists line,
    printTableHeader cw = ESC ++ "[1;37m" ++ line ++ ESC ++ "[0m" ++ LF /\
    len line = Z.max W 90.
Proof.
  intros Hm S Bn Bc Bu.
  assert (Hu : user cw <= 1000000).
  { unfold layoutSum, fixedWidth in S. lia. }
  destruct (printTableHeader_line cw) as (line & E & L); try lia.
  exists line. split; [exact E|]. rewrite L. exact S.
Qed.

(** X1: the table header fills the terminal: for every width [W] up to a
    million, the limit of [fmt] on a width argument, the line that
    [printTableHeader] writes for the layout of [W] has, between its two
    colour codes, exactly [max W 90] characters, as wide as the terminal
    from 90 columns on, while the rule above it has [max W 89]. *)
Theorem printTableHeader_width (W : Z) :
  GoInt.in_range W -> W <= 1000000 ->
  exists line,
    printTableHeader (calcColWidths W) = ESC ++ "[1;37m" ++ line ++ ESC ++ "[0m" ++ LF /\
    len line = Z.max W 90 /\
    total (calcColWidths W) = Z.max W 89.
Proof.
  intros HW Hm.
  destruct (calcColWidths_layoutSum W HW) as [S T].
  destruct (calcColWidths_bounds W HW) as (Bn & Bc & Bu & _).
  destruct (printTableHeader_width_of W (calcColWidths W) Hm S Bn Bc Bu)
    as (line & E & L).
  exists line. split; [exact E|]. split; [exact L | exact T].
Qed.

Lemma printTableHeader_width_witness :
  exists line,
    printTableHeader (calcColWidths 132) = ESC ++ "[1;37m" ++ line ++ ESC ++ "[0m" ++ LF /\
    len line = 132 /\
    total (calcColWidths 132) = 132.
Proof.
  apply (printTableHeader_width 132).
  - vm_compute. split; discriminate.
  - lia.
Defined.

(** ** The user column *)

Lemma lastIndexFrom_split (c : ascii) (s : string) (i : Z) :
  0 <= i ->
  (lastIndexFrom c s i = -1 /\ ~ In c (list_ascii_of_string s)) \/
  (exists pre post,
      s = (pre ++ String c post)%string /\
      ~ In c (list_ascii_of_string post) /\
      lastIndexFrom c s i = i + len pre).
Proof.
  revert i. induction s as [|x r IH]; intros i Hi.
  - left. split; [reflexivity|]. intros [].
  - simpl lastIndexFrom.
    destruct (IH (i + 1) ltac:(lia)) as [[E N]|(pre & post & E & N & L)].
    + rewrite E. simpl. destruct (Ascii.eqb x c) eqn:Ex.
      * apply Ascii.eqb_eq in Ex. subst x. right. exists ""%string, r.
        split; [reflexivity|]. split; [exact N|]. unfold len. simpl. lia.
      * left. split; [reflexivity|]. simpl. intros [H|H].
        -- subst x. rewrite Ascii.eqb_refl in Ex. discriminate Ex.
        -- exact (N H).
    + right. exists (String x pre), post.
      split; [simpl; rewrite E; reflexivity|]. split; [exact N|].
      rewrite L.
      assert (P : 0 <= len pre) by (unfold len; lia).
      replace (i + 1 + len pre =? -1) with false by (symmetry; apply Z.eqb_neq; lia).
      unfold len. simpl String.length. lia.
Qed.

Lemma substring_all (s : string) : String.substring 0 (String.length s) s = s.
Proof. induction s as [|x r IH]; simpl; [reflexivity | rewrite IH; reflexivity]. Qed.

Lemma sliceFrom_after (pre post : string) (c : ascii) :
  sliceFrom (pre ++ String c post) (len pre + 1) = post.
Proof.
  unfold sliceFrom, len.
  replace (Z.to_nat (Z.of_nat (String.length pre) + 1)) with (S (String.length pre)) by lia.
  induction pre as [|x pre IH].
  - simpl. rewrite Nat.sub_0_r. apply substring_all.
  - simpl in *. exact IH.
Qed.

(** X28: the user column never shows a domain: for every user name the
    text shown holds no backslash and is the end of the name, all of it
    when the name has no backslash and else what follows its last
    backslash. *)
Theorem displayedUser_strips_domain (user : string) :
  ~ In backslash (list_ascii_of_string (displayedUser user)) /\
  exists domain,
    user = (domain ++ displayedUser user)%string /\
    (domain = ""%string \/
     exists d, domain = (d ++ String backslash "")%string) /\
    (~ In backslash (list_ascii_of_string user) -> displayedUser user = user).
Proof.
  unfold displayedUser, strings_LastIndex. cbv zeta.
  destruct (lastIndexFrom_split backslash user 0 ltac:(lia))
    as [[E N]|(pre & post & E & N & L)].
  - rewrite E. simpl. split; [exact N|]. exists ""%string.
    split; [reflexivity|]. split; [left; reflexivity|]. intros _. reflexivity.
  - rewrite L.
    assert (P : 0 <= len pre) by (unfold len; lia).
    replace (0 + len pre =? -1) with false by (symmetry; apply Z.eqb_neq; lia).
    simpl negb. cbv iota.
    replace (0 + len pre + 1) with (len pre + 1) by lia.
    rewrite E, sliceFrom_after.
    split; [exact N|]. exists (pre ++ String backslash "")%string.
    split.
    + clear. induction pre as [|x pre IH]; simpl; [reflexivity | rewrite <- IH; reflexivity].
    + split; [right; exists pre; reflexivity|].
      intros H. exfalso. apply H. clear.
      induction pre as [|x pre IH]; simpl; [left; reflexivity | right; exact IH].
Qed.

End WatchProc.

(** ** The claims at the sample data *)

(** The end-to-end scenario: CPU 12.3, 0.5 and 0.0 percent sorted by "cpu"
    descending, and the first two kept under a cap of two. *)
Example scenario_sorted :
  map PID (sortProcesses asciiLower sampleInfos "cpu" true) = [1; 2; 3].
Proof. vm_compute. reflexivity. Qed.

Example scenario_top2 :
  map PID (lastProcs (display asciiLower sampleFlags sampleReading "" false true initState))
  = [1; 2].
Proof. vm_compute. reflexivity. Qed.

Example scenario_collected :
  match getProcesses asciiLower (Ok sampleHandles) "" false with
  | Ok infos => map PID infos = [2; 1; 3]
  | Err _ => False
  end.
Proof. vm_compute. reflexivity. Qed.

(** C7 as stated fails: the records with process ids 2, 1, 3 have no ties
    under the key "pid", and sorted twice with the direction flipped they
    come out as 3, 2, 1 or as 1, 2, 3, never in the order they arrived
    in. *)
Lemma sortProcesses_round_trip_counterexample :
  noTies (lessProcess asciiLower "pid" false) sampleInfos = true /\
  sortProcesses asciiLower (sortProcesses asciiLower sampleInfos "pid" false) "pid" true
  <> sampleInfos /\
  sortProcesses asciiLower (sortProcesses asciiLower sampleInfos "pid" true) "pid" false
  <> sampleInfos.
Proof.
  split; [vm_compute; reflexivity|].
  split; intros H; apply (f_equal (map PID)) in H; vm_compute in H; discriminate H.
Qed.

Lemma sortProcesses_double_inversion_witness :
  noTies (lessProcess asciiLower "pid" false) sampleInfos = true /\
  sortProcesses asciiLower sampleInfos "pid" (negb false)
  = rev (sortProcesses asciiLower sampleInfos "pid" false) /\
  sortProcesses asciiLower (rev sampleInfos) "pid" false
  = sortProcesses asciiLower sampleInfos "pid" false /\
  Permutation (sortProcesses asciiLower sampleInfos "pid" false) sampleInfos.
Proof.
  assert (H : noTies (lessProcess asciiLower "pid" false) sampleInfos = true).
  { vm_compute. reflexivity. }
  split; [exact H|].
  destruct (sortProcesses_double_inversion asciiLower sampleInfos "pid" false H)
    as (F & _ & _ & A & P & _).
  split; [exact F|]. split; [|exact P].
  apply A. apply Permutation_sym, Permutation_rev.
Defined.

Lemma sortProcesses_unknown_key_witness :
  ~ In "uptime" knownSortKeys /\
  sortProcesses asciiLower sampleInfos "uptime" true
  = sortProcesses asciiLower sampleInfos "cpu" true /\
  noTies (fun a b => F64.ltb (CPUPercent a) (CPUPercent b)) sampleInfos = true /\
  StronglySorted (fun a b => F64.ltb (CPUPercent b) (CPUPercent a) = true)
    (sortProcesses asciiLower sampleInfos "uptime" true).
Proof.
  assert (H : ~ In "uptime" knownSortKeys).
  { unfold knownSortKeys. simpl. intros [H|[H|[H|[H|[H|[]]]]]]; discriminate H. }
  assert (T : noTies (fun a b => F64.ltb (CPUPercent a) (CPUPercent b)) sampleInfos
              = true).
  { vm_compute. reflexivity. }
  split; [exact H|].
  destruct (sortProcesses_unknown_key asciiLower sampleInfos "uptime" true H)
    as (E & _ & _ & S).
  split; [exact E|]. split; [exact T|]. exact (S T).
Defined.

Lemma display_topN_witness :
  getProcesses asciiLower (procsRead sampleReading) "" false
  = Ok (flat_map (collected asciiLower "" false) sampleHandles) /\
  0 < topN sampleFlags /\
  lastProcs (display asciiLower sampleFlags sampleReading "" false true initState)
  = firstn 2
      (sortProcesses asciiLower (flat_map (collected asciiLower "" false) sampleHandles)
         (sortBy sampleFlags) (descOrder sampleFlags)) /\
  Z.of_nat (List.length
              (lastProcs (display asciiLower sampleFlags sampleReading "" false true
                            initState))) = 2.
Proof.
  assert (G : getProcesses asciiLower (procsRead sampleReading) "" false
              = Ok (flat_map (collected asciiLower "" false) sampleHandles)).
  { vm_compute. reflexivity. }
  assert (N : 0 < topN sampleFlags) by reflexivity.
  split; [exact G|]. split; [exact N|].
  destruct (display_topN asciiLower sampleFlags sampleReading "" false true initState
              _ G) as (_ & C & _).
  destruct (C N) as (S & L & _).
  split; [exact S | exact L].
Defined.

Lemma display_read_failure_witness :
  procsRead failedReading = Err "too many open files" /\
  exited initState = None /\
  lastProcs (display asciiLower sampleFlags failedReading "" false false initState)
  = lastProcs initState.
Proof.
  split; [reflexivity|]. split; [reflexivity|].
  apply (display_read_failure asciiLower sampleFlags failedReading initState
           "too many open files" eq_refl eq_refl).
Defined.

Lemma session_state_machine_witness :
  sessionOf initState = Running /\
  sessionOf (step asciiLower sampleFlags initState (KeyPress 112, sampleReading)) = Paused.
Proof.
  split; [reflexivity|].
  apply (proj1 (session_state_machine asciiLower sampleFlags sampleReading initState));
    reflexivity.
Defined.

(** ** The further properties at the sample data *)

Lemma getProcesses_exact_subset_witness :
  incl (flat_map (collected asciiLower "c" true) sampleHandles)
       (flat_map (collected asciiLower "c" false) sampleHandles).
Proof.
  intros i.
  apply (getProcesses_exact_subset asciiLower sampleHandles "c"
           (flat_map (collected asciiLower "c" true) sampleHandles)
           (flat_map (collected asciiLower "c" false) sampleHandles));
    vm_compute; reflexivity.
Defined.

Lemma getProcesses_status_witness :
  Forall (fun i =>
            (Status i = "active" /\ F64.gtb (CPUPercent i) F64.tenth = true) \/
            (Status i = "idle" /\ F64.gtb (CPUPercent i) F64.tenth = false))
         (flat_map (collected asciiLower "" false) sampleHandles).
Proof.
  apply Forall_forall.
  apply (getProcesses_status asciiLower sampleHandles "" false).
  vm_compute. reflexivity.
Defined.

Lemma getProcesses_pattern_case_witness :
  "C" <> "" /\ "c" <> "" /\ asciiLower "C" = asciiLower "c" /\
  getProcesses asciiLower (Ok sampleHandles) "C" true
  = getProcesses asciiLower (Ok sampleHandles) "c" true.
Proof.
  split; [discriminate|]. split; [discriminate|]. split; [reflexivity|].
  apply (getProcesses_pattern_case asciiLower (Ok sampleHandles) "C" "c" true);
    [discriminate | discriminate | reflexivity].
Defined.

Lemma sortProcesses_sorted_witness :
  noTies (lessProcess asciiLower "cpu" false) sampleInfos = true /\
  StronglySorted (before (lessProcess asciiLower "cpu" false) true)
    (sortProcesses asciiLower sampleInfos "cpu" true).
Proof.
  split; [vm_compute; reflexivity|].
  apply (sortProcesses_sorted asciiLower sampleInfos "cpu" true).
  vm_compute. reflexivity.
Defined.

Lemma sortProcesses_arrival_order_witness :
  noTies (lessProcess asciiLower "cpu" false) sampleInfos = true /\
  sortProcesses asciiLower (rev sampleInfos) "cpu" true
  = sortProcesses asciiLower sampleInfos "cpu" true.
Proof.
  split; [vm_compute; reflexivity|].
  apply (sortProcesses_arrival_order asciiLower sampleInfos (rev sampleInfos) "cpu" true).
  - vm_compute. reflexivity.
  - apply Permutation_sym, Permutation_rev.
Defined.

Lemma display_topN_keeps_top_witness :
  0 < topN sampleFlags /\
  before (lessProcess asciiLower (sortBy sampleFlags) false) (descOrder sampleFlags)
    (nth 1 (flat_map (collected asciiLower "" false) sampleHandles) (newProcessInfo 0 ""))
    (nth 2 (flat_map (collected asciiLower "" false) sampleHandles) (newProcessInfo 0 "")).
Proof.
  split; [reflexivity|].
  apply (display_topN_keeps_top asciiLower sampleFlags sampleReading "" false true
           initState (flat_map (collected asciiLower "" false) sampleHandles)).
  - vm_compute. reflexivity.
  - vm_compute. reflexivity.
  - reflexivity.
  - vm_compute. left. reflexivity.
  - vm_compute. right. right. left. reflexivity.
  - intros H. vm_compute in H. destruct H as [H|[H|[]]]; discriminate H.
Defined.

Lemma printHeader_title_monotone_witness :
  total (calcColWidths 60) <= total (calcColWidths 140) /\
  exists v v',
    titleLine (printHeader 150000000000 150000000000 "" (F64.of_Z 5) 3
                 (calcColWidths 60))
    = Some (titleStyled v (formatElapsed 150000000000)
              (formatElapsedShort 150000000000) "*" (F64.of_Z 5) 3) /\
    titleLine (printHeader 150000000000 150000000000 "" (F64.of_Z 5) 3
                 (calcColWidths 140))
    = Some (titleStyled v' (formatElapsed 150000000000)
              (formatElapsedShort 150000000000) "*" (F64.of_Z 5) 3) /\
    (titleRank v' <= titleRank v)%nat.
Proof.
  assert (H : total (calcColWidths 60) <= total (calcColWidths 140)).
  { vm_compute. discriminate. }
  split; [exact H|].
  exact (printHeader_title_monotone 150000000000 150000000000 "" (F64.of_Z 5) 3
           (calcColWidths 60) (calcColWidths 140) H).
Defined.

Lemma display_keeps_running_witness :
  exited initState = None /\
  exited (display asciiLower sampleFlags failedReading "" false false initState) = None /\
  exited (display asciiLower sampleFlags sampleReading "" false true initState) = None.
Proof.
  split; [reflexivity|]. split.
  - apply (proj1 (display_keeps_running asciiLower sampleFlags failedReading ""
                    false false initState eq_refl)).
  - apply (proj1 (display_keeps_running asciiLower sampleFlags sampleReading ""
                    false true initState eq_refl)).
Defined.

Lemma display_tracks_size_witness :
  (lastTermWidth (display asciiLower sampleFlags sampleReading "" false true initState),
   lastTermHeight (display asciiLower sampleFlags sampleReading "" false true initState))
  = (100, 24).
Proof.
  apply (proj1 (display_tracks_size asciiLower sampleFlags sampleReading ""
                  false true initState eq_refl)
           (flat_map (collected asciiLower "" false) sampleHandles)).
  vm_compute. reflexivity.
Defined.

Lemma display_clear_screen_witness :
  exists frame,
    out (display asciiLower sampleFlags sampleReading "" false false
           (sampleRunning asciiLower))
    = (out (sampleRunning asciiLower) ++ frame)%list /\
    filter isClearScreen frame = [] /\
    hd_error frame = Some (MoveCursor 1 1).
Proof.
  apply (display_clear_screen asciiLower sampleFlags sampleReading "" false false
           (sampleRunning asciiLower)
           (flat_map (collected asciiLower "" false) sampleHandles)).
  - vm_compute. reflexivity.
  - vm_compute. reflexivity.
Defined.

Lemma display_rows_witness :
  exists frame,
    out (display asciiLower sampleFlags sampleReading "" false true initState)
    = (out initState ++ frame)%list /\
    rowsOf frame
    = map (fun p => (p, calcColWidths 100))
        (lastProcs (display asciiLower sampleFlags sampleReading "" false true initState)).
Proof.
  apply (display_rows asciiLower sampleFlags sampleReading "" false true initState
           (flat_map (collected asciiLower "" false) sampleHandles)).
  - vm_compute. reflexivity.
  - reflexivity.
Defined.

Lemma paused_session_inert_witness :
  sessionOf samplePaused = Paused /\
  run asciiLower sampleFlags samplePaused idleTrace = samplePaused.
Proof.
  split; [reflexivity|].
  apply (paused_session_inert asciiLower sampleFlags samplePaused idleTrace);
    reflexivity.
Defined.

Lemma pause_prints_last_snapshot_witness :
  sessionOf (sampleRunning asciiLower) = Running /\
  exists frame,
    out (step asciiLower sampleFlags (sampleRunning asciiLower)
           (KeyPress 112, sampleReading))
    = (out (sampleRunning asciiLower) ++ frame)%list /\
    hd_error frame = Some (Print (ESC ++ "[?1049l")) /\
    rowsOf frame
    = map (fun p => (p, calcColWidths 100)) (lastProcs (sampleRunning asciiLower)) /\
    lastProcs (step asciiLower sampleFlags (sampleRunning asciiLower)
                 (KeyPress 112, sampleReading))
    = lastProcs (sampleRunning asciiLower) /\
    paused (step asciiLower sampleFlags (sampleRunning asciiLower)
              (KeyPress 112, sampleReading)) = 1.
Proof.
  assert (H : sessionOf (sampleRunning asciiLower) = Running).
  { vm_compute. reflexivity. }
  split; [exact H|].
  exact (pause_prints_last_snapshot asciiLower sampleFlags sampleReading
           (sampleRunning asciiLower) 112 H eq_refl).
Defined.

Lemma resume_redraws_witness :
  sessionOf samplePaused = Paused /\
  paused (step asciiLower sampleFlags samplePaused (KeyPress 32, sampleReading)) = 0.
Proof.
  split; [reflexivity|].
  destruct (resume_redraws asciiLower sampleFlags sampleReading samplePaused 32
              (flat_map (collected asciiLower "" false) sampleHandles)
              eq_refl eq_refl) as [rest [_ [_ H]]].
  - vm_compute. reflexivity.
  - exact H.
Defined.

Lemma teardown_sequence_witness :
  sessionOf (sampleRunning asciiLower) <> Terminating /\
  exited (step asciiLower sampleFlags (sampleRunning asciiLower)
            (Signal, sampleReading)) = Some 0.
Proof.
  assert (H : sessionOf (sampleRunning asciiLower) <> Terminating).
  { vm_compute. discriminate. }
  split; [exact H|].
  destruct (teardown_sequence asciiLower sampleFlags sampleReading
              (sampleRunning asciiLower) Signal H eq_refl) as [middle [_ [_ [_ E]]]].
  exact E.
Defined.

Lemma run_snapshot_cap_witness :
  0 < topN sampleFlags /\
  Z.of_nat (List.length (lastProcs (run asciiLower sampleFlags initState busyTrace)))
  <= topN sampleFlags.
Proof.
  split; [reflexivity|].
  apply (run_snapshot_cap asciiLower sampleFlags initState busyTrace).
  - reflexivity.
  - vm_compute. discriminate.
Defined.

Lemma run_pause_flag_witness :
  paused initState = 0 /\
  (paused (run asciiLower sampleFlags initState busyTrace) = 0 \/
   paused (run asciiLower sampleFlags initState busyTrace) = 1).
Proof.
  split; [reflexivity|].
  apply (run_pause_flag asciiLower sampleFlags initState busyTrace).
  left. reflexivity.
Defined.

Lemma startup_rejects_interval_witness :
  F64.leb (interval zeroFlags) F64.zero = true /\
  exited (snd (startup asciiLower zeroFlags ["chrome"] sampleReading)) = Some 1.
Proof.
  split; [reflexivity|].
  apply (startup_rejects_interval asciiLower zeroFlags ["chrome"] sampleReading).
  reflexivity.
Defined.

Lemma tiny_interval_panics_witness :
  F64.leb (interval tinyFlags) F64.zero = false /\
  exited (snd (mainUntilTicker asciiLower tinyFlags [] sampleReading)) = Some 2 /\
  teardownTrace (snd (mainUntilTicker asciiLower tinyFlags [] sampleReading)) = [] /\
  lastProcs (snd (mainUntilTicker asciiLower tinyFlags [] sampleReading))
  = publishedSnapshot asciiLower tinyFlags
      (flat_map (collected asciiLower "" false) sampleHandles) /\
  out (snd (mainUntilTicker asciiLower tinyFlags [] failedReading))
  = [SetupConsole; EnableRawInput; Print (ESC ++ "[?1049h");
     Print ("Error: too many open files" ++ LF); Panic].
Proof.
  split; [reflexivity|].
  destruct (tiny_interval_panics asciiLower tinyFlags [] sampleReading
              8388608000000000 (-63)) as (H1 & H2 & _ & H4).
  - reflexivity.
  - vm_compute. reflexivity.
  - reflexivity.
  - vm_compute. reflexivity.
  - split; [exact H1|]. split; [exact H2|]. split.
    + destruct (H4 (flat_map (collected asciiLower "" false) sampleHandles)) as [HL _].
      * vm_compute. reflexivity.
      * exact HL.
    + destruct (tiny_interval_panics asciiLower tinyFlags [] failedReading
                  8388608000000000 (-63)) as (_ & _ & H3 & _).
      * reflexivity.
      * vm_compute. reflexivity.
      * reflexivity.
      * vm_compute. reflexivity.
      * exact (H3 "too many open files" eq_refl).
Defined.
